(** * dependency-hell-cli: detection, disk-usage audit and cache cleaning

    A shallow embedding of the Go sources of the [dhell] command line tool
    (packages [core], [scanner], [cleaner], [providers] and [cmd]) and the
    properties of its clean / scan workflow.

    Conventions of the embedding:
    - a Go [string] is a sequence of bytes: [string] of the standard library;
    - [int64] is [Z] with the two's complement wrap-around written out
      ([wrap64], [add64]);
    - the operating system (filesystem, environment, subprocesses) is the
      interface [OS]; code that changes it runs in the monad [M], which
      threads the world and a log of the effects performed;
    - a Go run-time panic is the outcome [Panicked]. *)

From Stdlib Require Import ZArith Lia List Bool Ascii String.
From stdpp Require Import base list gmap strings.

Local Open Scope string_scope.
Local Open Scope Z_scope.

(** ** Go's [int64] *)

Module Int64.

Definition min_int64 : Z := - 2 ^ 63.
Definition max_int64 : Z := 2 ^ 63 - 1.

Definition in_range (z : Z) : Prop := min_int64 <= z <= max_int64.

(** Reduction of an integer to its [int64] representative. *)
Definition wrap64 (z : Z) : Z := (z + 2 ^ 63) mod 2 ^ 64 - 2 ^ 63.

(** [a + b] on [int64]. *)
Definition add64 (a b : Z) : Z := wrap64 (a + b).

(** The sum of the list in unbounded integers. *)
Definition sumZ (l : list Z) : Z := fold_right Z.add 0 l.

End Int64.
Export Int64.

(** ** The functions of Go's [strings] package that the sources call *)

Module GoStrings.

Definition bytes (l : list nat) : string :=
  fold_right (fun n s => String (ascii_of_nat n) s) "" l.

(** The runes for which [unicode.IsSpace] holds, in UTF-8: the six ASCII
    ones (['\t'], ['\n'], ['\v'], ['\f'], ['\r'], [' ']), U+0085, U+00A0,
    U+1680, U+2000..U+200A, U+2028, U+2029, U+202F, U+205F and U+3000. *)
Definition spaceRunes : list string :=
  map bytes
    [ [9]; [10]; [11]; [12]; [13]; [32];
      [194; 133]; [194; 160];
      [225; 154; 128];
      [226; 128; 128]; [226; 128; 129]; [226; 128; 130]; [226; 128; 131];
      [226; 128; 132]; [226; 128; 133]; [226; 128; 134]; [226; 128; 135];
      [226; 128; 136]; [226; 128; 137]; [226; 128; 138];
      [226; 128; 168]; [226; 128; 169]; [226; 128; 175];
      [226; 129; 159];
      [227; 128; 128] ]%nat.

Fixpoint dropn (n : nat) (s : string) : string :=
  match n, s with
  | O, _ => s
  | S n', String _ s' => dropn n' s'
  | S _, EmptyString => EmptyString
  end.

Fixpoint rev (s : string) : string :=
  match s with
  | EmptyString => EmptyString
  | String c s' => rev s' ++ String c EmptyString
  end.

(** [HasPrefix(s, prefix)]. *)
Definition HasPrefix (s pre : string) : bool := String.prefix pre s.

(** [TrimPrefix(s, prefix)]. *)
Definition TrimPrefix (s pre : string) : string :=
  if HasPrefix s pre then dropn (String.length pre) s else s.

(** The rest of [s] after one leading rune taken from [runes]. *)
Definition stripRune (runes : list string) (s : string) : option string :=
  match List.find (fun r => HasPrefix s r) runes with
  | Some r => Some (dropn (String.length r) s)
  | None => None
  end.

Fixpoint trimLeft (fuel : nat) (runes : list string) (s : string) : string :=
  match fuel with
  | O => s
  | S fuel' =>
      match stripRune runes s with
      | Some rest => trimLeft fuel' runes rest
      | None => s
      end
  end.

(** [TrimLeftFunc(s, unicode.IsSpace)]: every stripped rune takes at least
    one byte, so [length s] rounds are enough. *)
Definition TrimLeftSpace (s : string) : string :=
  trimLeft (String.length s) spaceRunes s.

(** [TrimRightFunc(s, unicode.IsSpace)]: the same from the end. *)
Definition TrimRightSpace (s : string) : string :=
  rev (trimLeft (String.length s) (map rev spaceRunes) (rev s)).

(** [TrimSpace(s)]. *)
Definition TrimSpace (s : string) : string :=
  TrimRightSpace (TrimLeftSpace s).

Definition lowerByte (c : ascii) : ascii :=
  let n := nat_of_ascii c in
  if ((65 <=? n)%nat && (n <=? 90)%nat)%bool then ascii_of_nat (n + 32) else c.

(** [ToLower(s)] on the ASCII letters. Go also folds the letters outside
    ASCII through its Unicode tables; those runes are left as they are
    here (none of them lowers to a letter of ["yes"]). *)
Fixpoint ToLower (s : string) : string :=
  match s with
  | EmptyString => EmptyString
  | String c s' => String (lowerByte c) (ToLower s')
  end.

Definition flush (cur : string) : list string :=
  match cur with
  | EmptyString => []
  | _ => [cur]
  end.

Fixpoint fields (fuel : nat) (cur s : string) : list string :=
  match fuel with
  | O => flush cur
  | S fuel' =>
      match s with
      | EmptyString => flush cur
      | String c s' =>
          match stripRune spaceRunes s with
          | Some rest => flush cur ++ fields fuel' EmptyString rest
          | None => fields fuel' (cur ++ String c EmptyString) s'
          end
      end
  end.

(** [Fields(s)]: the maximal runs of non-space runes of [s]. *)
Definition Fields (s : string) : list string :=
  fields (S (String.length s)) EmptyString s.

(** [Index(s, substr)]: the first position of [substr] in [s], or [-1]. *)
Fixpoint Index (s substr : string) : Z :=
  if HasPrefix s substr then 0
  else match s with
       | EmptyString => -1
       | String _ s' =>
           let i := Index s' substr in
           if i <? 0 then -1 else i + 1
       end.

(** [Contains(s, substr)], which Go defines as [Index(s, substr) >= 0]. *)
Definition Contains (s substr : string) : bool := 0 <=? Index s substr.

(** The first piece of [Split(s, sep)] for a non-empty [sep]: [s] up to the
    first occurrence of [sep], or the whole of [s]. *)
Definition SplitFirst (s sep : string) : string :=
  let i := Index s sep in
  if i <? 0 then s else String.substring 0 (Z.to_nat i) s.

Fixpoint split (fuel : nat) (s sep : string) : list string :=
  match fuel with
  | O => [s]
  | S fuel' =>
      let i := Index s sep in
      if i <? 0 then [s]
      else String.substring 0 (Z.to_nat i) s
           :: split fuel' (dropn (Z.to_nat i + String.length sep) s) sep
  end.

(** [Split(s, sep)] for a non-empty [sep]: the pieces of [s] between the
    occurrences of [sep]; every piece but the last uses up at least one
    byte, so [length s] rounds are enough. *)
Definition Split (s sep : string) : list string :=
  split (String.length s) s sep.

End GoStrings.

(** ** Outcomes and errors *)

(** A Go [error] value, by its message. *)
Definition error : Type := string.

(** What a Go call comes to: it returns, or the goroutine panics. *)
Inductive Outcome (A : Type) : Type :=
| Returned (a : A)
| Panicked (msg : string).
Arguments Returned {A} a.
Arguments Panicked {A} msg.

(** [s[:hi]]: Go panics when [hi] is outside [0..len(s)]. *)
Definition slice_to (s : string) (hi : Z) : Outcome string :=
  if ((0 <=? hi) && (hi <=? Z.of_nat (String.length s)))%bool
  then Returned (String.substring 0 (Z.to_nat hi) s)
  else Panicked "slice bounds out of range".

(** [s[lo:]]. *)
Definition slice_from (s : string) (lo : Z) : Outcome string :=
  if ((0 <=? lo) && (lo <=? Z.of_nat (String.length s)))%bool
  then Returned (GoStrings.dropn (Z.to_nat lo) s)
  else Panicked "slice bounds out of range".

(** ** Package [core]: the shared data types *)

Module core.

(** [InstallSource]: the five constants the providers return. *)
Inductive InstallSource : Type :=
| SourceVersionManager
| SourceHomebrew
| SourceSystem
| SourceManual
| SourceUnknown.

(** [Installation]. [ManagerName] is the field that [GoProvider] fills. *)
Record Installation : Type := {
  Version : string;
  Source : InstallSource;
  BinaryPath : string;
  ManagerPath : string;
  ManagerName : string
}.

(** [DiskUsageItem] (fields [Path], [Description], [Size]). *)
Record DiskUsageItem : Type := {
  ItemPath : string;
  ItemDescription : string;
  ItemSize : Z
}.

Record DiskUsage : Type := {
  Items : list DiskUsageItem;
  Total : Z
}.

Inductive Status : Type := StatusGood | StatusWarning | StatusBad.

Definition DetermineStatus (source : InstallSource) : Status :=
  match source with
  | SourceVersionManager => StatusGood
  | SourceHomebrew => StatusWarning
  | SourceSystem | SourceUnknown => StatusBad
  | _ => StatusBad
  end.

Record CleanableItem : Type := {
  Path : string;
  Description : string;
  Size : Z;
  Command : string;
  Safe : bool
}.

(** [CleanResult]. [ItemsCleaned] is a Go [int] that counts items of a
    slice: it stays below [len(items)] and so never overflows. *)
Record CleanResult : Type := {
  ItemsCleaned : Z;
  SpaceReclaimed : Z;
  Errors : list error
}.

End core.
Export core.

(** [s != ""]. *)
Definition nonEmpty (s : string) : bool := negb (String.eqb s "").

(** ** The operating system *)

(** One call of the [fs.WalkDirFunc] callback by [filepath.WalkDir]. *)
Inductive WalkEntry : Type :=
| WalkError                   (* called with [err != nil] *)
| WalkDirectory               (* [d.IsDir()] *)
| WalkFile (info : option Z). (* any other entry; [d.Info()] gives its size, or fails *)

(** What the program asks of the operating system. Queries read the world;
    [exec_Run] (a subprocess started for its effect) and [os_RemoveAll]
    change it. The sub-commands that only report ([<tool> --version],
    [go env NAME]) are queries. *)
Class OS : Type := {
  World : Type;
  (* [os.Stat(p)] returns no error *)
  os_Stat : World -> string -> bool;
  (* [os.UserHomeDir()], [None] when it fails *)
  os_UserHomeDir : World -> option string;
  os_Getenv : World -> string -> string;
  filepath_Join : string -> string -> string;
  filepath_EvalSymlinks : World -> string -> string * option error;
  (* the calls that [filepath.WalkDir(root, fn)] makes to an [fn] that never
     returns an error *)
  filepath_WalkDir : World -> string -> list WalkEntry;
  exec_LookPath : World -> string -> string * option error;
  (* [cmd.Output()] *)
  exec_Output : World -> list string -> string * option error;
  (* [cmd.CombinedOutput()] of a reporting sub-command *)
  exec_CombinedOutput : World -> list string -> string * option error;
  (* [cmd.Run()] / [cmd.CombinedOutput()] of a cleaning command *)
  exec_Run : list string -> World -> (string * option error) * World;
  os_RemoveAll : string -> World -> option error * World
}.

(** ** Effects *)

(** What is written to standard output, by the statement that writes it. *)
Inductive Output : Type :=
| OutNoItems (name : string)
| OutPreview (name : string) (items : list CleanableItem)
| OutUnsafeWarning
| OutConfirmPrompt (items : list CleanableItem) (totalSize : Z)
| OutCancelled
| OutCleaning (name : string)
| OutCleanResult (result : CleanResult) (items : list CleanableItem).

(** The effects a run performs, in order. *)
Inductive Event : Type :=
| Stdout (o : Output)
| ReadStdin
| Exec (argv : list string)
| RemoveAll (path : string)
| CallClean (name : string) (items : list CleanableItem).

Section Monad.
Context `{os : OS}.

Record State : Type := { world : World; log : list Event }.

Definition M (A : Type) : Type := State -> Outcome A * State.

Definition ret {A} (a : A) : M A := fun st => (Returned a, st).

Definition bind {A B} (c : M A) (k : A -> M B) : M B :=
  fun st =>
    match c st with
    | (Returned a, st') => k a st'
    | (Panicked msg, st') => (Panicked msg, st')
    end.

Definition panic {A} (msg : string) : M A := fun st => (Panicked msg, st).

(** A query of the world. *)
Definition ask {A} (q : World -> A) : M A :=
  fun st => (Returned (q (world st)), st).

Definition emit (e : Event) : M unit :=
  fun st => (Returned tt, {| world := world st; log := log st ++ [e] |}).

(** An operation that changes the world, logged as [e]. *)
Definition perform {A} (e : Event) (op : World -> A * World) : M A :=
  fun st =>
    let '(a, w') := op (world st) in
    (Returned a, {| world := w'; log := log st ++ [e] |}).

Definition Println (o : Output) : M unit := emit (Stdout o).

(** [for _, x := range l { s = step(s, x) }]. *)
Fixpoint forEach {A S} (step : S -> A -> M S) (l : list A) (s : S) : M S :=
  match l with
  | [] => ret s
  | x :: l' => bind (step s x) (forEach step l')
  end.

Definition run {A} (c : M A) (w : World) : Outcome A * State :=
  c {| world := w; log := [] |}.

End Monad.

Notation "x <- c ;; k" := (bind c (fun x => k))
  (at level 100, c at next level, right associativity).
Notation "c ;;; k" := (bind c (fun _ => k))
  (at level 100, right associativity).

(** ** Package [scanner] *)

Module scanner.
Section scanner.
Context `{os : OS}.
Import GoStrings.

Definition ExpandHome (w : World) (path : string) : string :=
  if HasPrefix path "~/" then
    match os_UserHomeDir w with
    | None => path
    | Some home => filepath_Join home (dropn 2 path)
    end
  else path.

Definition PathExists (w : World) (path : string) : bool :=
  let expandedPath := ExpandHome w path in
  os_Stat w expandedPath.

Definition FindExecutable (w : World) (name : string) : string * option error :=
  exec_LookPath w name.

Definition GetExecutableVersion (w : World) (executable : string)
    (args : list string) : string * option error :=
  match exec_CombinedOutput w (executable :: args) with
  | (_, Some err) => ("", Some err)
  | (output, None) => (TrimSpace output, None)
  end.

Definition ResolveSymlink (w : World) (path : string) : string * option error :=
  filepath_EvalSymlinks w path.

Definition GetEnvVar (w : World) (name : string) : string :=
  os_Getenv w name.

(** [filepath.WalkDir]: the callback is run on the entries in turn and the
    walk stops at the first error the callback returns. *)
Fixpoint WalkDir {S} (fn : WalkEntry -> S -> S * option error)
    (entries : list WalkEntry) (s : S) : S * option error :=
  match entries with
  | [] => (s, None)
  | d :: rest =>
      match fn d s with
      | (s', Some err) => (s', Some err)
      | (s', None) => WalkDir fn rest s'
      end
  end.

(** The callback of [CalculateDirSize]. *)
Definition addEntrySize (d : WalkEntry) (size : Z) : Z * option error :=
  match d with
  | WalkError => (size, None)
  | WalkDirectory => (size, None)
  | WalkFile None => (size, None)
  | WalkFile (Some n) => (add64 size n, None)
  end.

Definition CalculateDirSize (w : World) (path : string) : Z * option error :=
  let expandedPath := ExpandHome w path in
  if negb (PathExists w expandedPath) then (0, None)
  else
    match WalkDir addEntrySize (filepath_WalkDir w expandedPath) 0 with
    | (_, Some err) => (0, Some err)
    | (size, None) => (size, None)
    end.

Definition ScanMultiplePaths (w : World) (paths : list string) : Z * option error :=
  let total :=
    fold_left
      (fun total path =>
         match CalculateDirSize w path with
         | (_, Some _) => total
         | (size, None) => add64 total size
         end)
      paths 0 in
  (total, None).

(** [CalculatePathSizes(paths)]: [entries] are the descriptions and paths of
    the map [paths] in the order in which [range] yields them. *)
Definition CalculatePathSizes (w : World) (entries : list (string * string))
    : gmap string Z :=
  fold_left
    (fun sizes entry =>
       let '(description, path) := entry in
       match CalculateDirSize w path with
       | (_, Some _) => <[description := 0]> sizes
       | (size, None) => <[description := size]> sizes
       end)
    entries ∅.

End scanner.
End scanner.

(** ** Package [cleaner] *)

Module cleaner.
Section cleaner.
Context `{os : OS}.
Import GoStrings.

Definition newline : string := String (ascii_of_nat 10) EmptyString.

(** [bufio.NewReader(os.Stdin).ReadString('\n')] on the bytes that standard
    input still holds: the text up to and including the first newline, or
    everything that is left together with the error of the stream. *)
Definition ReadString (stdin : string) : string * option error :=
  let i := Index stdin newline in
  if i <? 0 then (stdin, Some "EOF")
  else (String.substring 0 (Z.to_nat (i + 1)) stdin, None).

Definition ConfirmClean (items : list CleanableItem) (totalSize : Z)
    (stdin : string) : M bool :=
  Println (OutConfirmPrompt items totalSize) ;;;
  emit ReadStdin ;;;
  match ReadString stdin with
  | (_, Some _) => ret false
  | (response, None) =>
      let response := ToLower (TrimSpace response) in
      ret (String.eqb response "y" || String.eqb response "yes")
  end.

(** [result.ItemsCleaned++; result.SpaceReclaimed += item.Size]. *)
Definition cleaned (result : CleanResult) (item : CleanableItem) : CleanResult :=
  {| ItemsCleaned := ItemsCleaned result + 1;
     SpaceReclaimed := add64 (SpaceReclaimed result) (Size item);
     Errors := Errors result |}.

(** [result.Errors = append(result.Errors,
      fmt.Errorf("failed to clean %s: %w", item.Description, err))]. *)
Definition failed (result : CleanResult) (item : CleanableItem) (err : error)
    : CleanResult :=
  {| ItemsCleaned := ItemsCleaned result;
     SpaceReclaimed := SpaceReclaimed result;
     Errors := Errors result ++ ["failed to clean " ++ Description item ++ ": " ++ err] |}.

Definition emptyResult : CleanResult :=
  {| ItemsCleaned := 0; SpaceReclaimed := 0; Errors := [] |}.

Definition CleanDirectory (path : string) : M (option error) :=
  expandedPath <- ask (fun w => scanner.ExpandHome w path) ;;
  exists_ <- ask (fun w => scanner.PathExists w expandedPath) ;;
  if negb exists_ then ret None
  else perform (RemoveAll expandedPath) (os_RemoveAll expandedPath).

Definition RunCleanCommand (cmdStr : string) : M (option error) :=
  let parts := Fields cmdStr in
  if (List.length parts =? 0)%nat then ret (Some "empty command")
  else
    r <- perform (Exec parts) (exec_Run parts) ;;
    match r with
    | (output, Some err) =>
        ret (Some ("command failed: " ++ err ++ " (output: " ++ output ++ ")"))
    | (_, None) => ret None
    end.

(** [var err error; if item.Command != "" { err = RunCleanCommand(item.Command) }
     else if item.Path != "" { err = CleanDirectory(item.Path) }]. *)
Definition cleanAction (item : CleanableItem) : M (option error) :=
  if nonEmpty (Command item) then RunCleanCommand (Command item)
  else if nonEmpty (Path item) then CleanDirectory (Path item)
  else ret None.

(** The body of the loop of [CleanItems]. *)
Definition CleanItem (dryRun : bool) (result : CleanResult)
    (item : CleanableItem) : M CleanResult :=
  if dryRun then ret (cleaned result item)
  else
    err <- cleanAction item ;;
    match err with
    | Some e => ret (failed result item e)
    | None => ret (cleaned result item)
    end.

Definition CleanItems (items : list CleanableItem) (dryRun : bool)
    : M (CleanResult * option error) :=
  result <- forEach (CleanItem dryRun) items emptyResult ;;
  ret (result, None).

End cleaner.
End cleaner.

(** ** Calls that only read the world *)

Definition Outcome_bind {A B} (c : Outcome A) (k : A -> Outcome B) : Outcome B :=
  match c with
  | Returned a => k a
  | Panicked msg => Panicked msg
  end.

Notation "'let!' x ':=' c 'in' k" := (Outcome_bind c (fun x => k))
  (at level 10, x name, c at level 100, k at level 200).

(** [s[lo:hi]]. *)
Definition slice (s : string) (lo hi : Z) : Outcome string :=
  if ((0 <=? lo) && (lo <=? hi) && (hi <=? Z.of_nat (String.length s)))%bool
  then Returned (String.substring (Z.to_nat lo) (Z.to_nat (hi - lo)) s)
  else Panicked "slice bounds out of range".

(** [l[i]]. *)
Definition index {A} (l : list A) (i : nat) : Outcome A :=
  match List.nth_error l i with
  | Some x => Returned x
  | None => Panicked "index out of range"
  end.

(** ** Package [cleaner]: the text of a size *)

Module cleaner_text.

(** What [formatSize] hands to [fmt.Sprintf]: [("%d B", bytes)], or
    [("%.1f %cB", float64(bytes)/float64(div), unit)]. *)
Inductive SizeText : Type :=
| Bytes (bytes : Z)
| Scaled (bytes div : Z) (unit : ascii).

(** [for n := bytes / unit; n >= unit; n /= unit { div *= unit; exp++ }],
    on [int64]. *)
Fixpoint scale (fuel : nat) (n div : Z) (exp : nat) : Z * nat :=
  match fuel with
  | O => (div, exp)
  | S fuel' =>
      if 1024 <=? n then scale fuel' (n ÷ 1024) (wrap64 (div * 1024)) (S exp)
      else (div, exp)
  end.

(** [formatSize(bytes)]; the loop divides [n] by 1024 in every round, so
    one round for each bit of [bytes] is more than enough. *)
Definition formatSize (bytes : Z) : Outcome SizeText :=
  if bytes <? 1024 then Returned (Bytes bytes)
  else
    let '(div, exp) := scale (S (Z.to_nat (Z.log2 bytes))) (bytes ÷ 1024) 1024 0 in
    let! unit := index (list_ascii_of_string "KMGTPE") exp in
    Returned (Scaled bytes div unit).

End cleaner_text.

(** ** The interface [core.LanguageProvider] *)

Section LanguageProvider.
Context `{os : OS}.

(** The measurement operations read the world; [Clean] changes it. *)
Record LanguageProvider : Type := {
  Name : string;
  DetectInstalled : World -> Outcome (list Installation * option error);
  GetGlobalCacheUsage : World -> Outcome (option DiskUsage * option error);
  GetEnvVars : World -> gmap string string;
  GetCleanableItems : World -> Outcome (list CleanableItem * option error);
  Clean : list CleanableItem -> M (option CleanResult * option error)
}.

End LanguageProvider.

(** ** Package [providers] *)

Module providers.
Section providers.
Context `{os : OS}.
Import GoStrings.

Definition quote : string := String (ascii_of_nat 34) EmptyString.

(** [realPath, err := scanner.ResolveSymlink(p); if err != nil { realPath = p }]. *)
Definition resolveOr (w : World) (p : string) : string :=
  match scanner.ResolveSymlink w p with
  | (_, Some _) => p
  | (realPath, None) => realPath
  end.

(** [if idx := strings.Index(path, marker); idx != -1 { return path[:idx+n] }],
    and [""] otherwise. *)
Definition upTo (path marker : string) (n : Z) : Outcome string :=
  let idx := Index path marker in
  if negb (idx =? -1) then slice_to path (idx + n) else Returned "".

(** [if scanner.PathExists(p) { size, _ := scanner.CalculateDirSize(p);
      items = append(items, core.DiskUsageItem{p, description, size}) }]. *)
Definition measure (w : World) (items : list DiskUsageItem)
    (p description : string) : list DiskUsageItem :=
  if scanner.PathExists w p then
    let size := fst (scanner.CalculateDirSize w p) in
    items ++ [ {| ItemPath := p; ItemDescription := description; ItemSize := size |} ]
  else items.

(** [var total int64; for _, item := range items { total += item.Size }]. *)
Definition totalOf (items : list DiskUsageItem) : Z :=
  fold_left (fun total item => add64 total (ItemSize item)) items 0.

Definition usage (items : list DiskUsageItem)
    : Outcome (option DiskUsage * option error) :=
  Returned (Some {| Items := items; Total := totalOf items |}, None).

(** [for _, name := range names { if value := get(name); value != "" { vars[name] = value } }]. *)
Definition envVars (get : string -> string) (names : list string)
    : gmap string string :=
  fold_left
    (fun vars name =>
       let value := get name in
       if nonEmpty value then <[name := value]> vars else vars)
    names ∅.

(** The same block for a cleanable item. *)
Definition cleanable (w : World) (items : list CleanableItem)
    (p : string) (item : Z -> CleanableItem) : list CleanableItem :=
  if scanner.PathExists w p then
    let size := fst (scanner.CalculateDirSize w p) in
    items ++ [item size]
  else items.

Definition installation (version : string) (source : InstallSource)
    (binaryPath managerPath : string) : Installation :=
  {| Version := version; Source := source; BinaryPath := binaryPath;
     ManagerPath := managerPath; ManagerName := "" |}.

Definition isVersionManager (source : InstallSource) : bool :=
  match source with
  | SourceVersionManager => true
  | _ => false
  end.

(** [os.RemoveAll(scanner.ExpandHome(path))]. *)
Definition removeExpanded (path : string) : M (option error) :=
  expandedPath <- ask (fun w => scanner.ExpandHome w path) ;;
  perform (RemoveAll expandedPath) (os_RemoveAll expandedPath).

(** [exec.Command("sh", "-c", command).Run()]. *)
Definition runShell (command : string) : M (option error) :=
  let argv := ["sh"; "-c"; command] in
  r <- perform (Exec argv) (exec_Run argv) ;;
  ret (snd r).

(** The end of every [Clean] loop body: the error is recorded and the loop
    continues, or the item is counted. *)
Definition settle (result : CleanResult) (item : CleanableItem)
    (err : option error) : M CleanResult :=
  match err with
  | Some e => ret (cleaner.failed result item e)
  | None => ret (cleaner.cleaned result item)
  end.

Definition cleanWith (step : CleanResult -> CleanableItem -> M CleanResult)
    (items : list CleanableItem) : M (option CleanResult * option error) :=
  result <- forEach step items cleaner.emptyResult ;;
  ret (Some result, None).

(** *** Go *)

Definition GoProvider_getManagerName (path : string) (source : InstallSource) : string :=
  if isVersionManager source then
    if Contains path ".goenv" then "goenv" else ""
  else "".

Definition GoProvider_determineSource (path : string) : InstallSource :=
  if Contains path ".goenv" then SourceVersionManager
  else if Contains path "/opt/homebrew" || Contains path "/usr/local/Cellar"
  then SourceHomebrew
  else if Contains path "/usr/local/go" then SourceManual
  else SourceUnknown.

Definition GoProvider_getManagerPath (path : string) (source : InstallSource)
    : Outcome string :=
  if isVersionManager source && Contains path ".goenv"
  then upTo path ".goenv" 6
  else Returned "".

Definition GoProvider_getGoEnv (w : World) (name : string) : string :=
  match exec_Output w ["go"; "env"; name] with
  | (_, Some _) => os_Getenv w name
  | (output, None) => TrimSpace output
  end.

Definition GoProvider_DetectInstalled (w : World)
    : Outcome (list Installation * option error) :=
  match scanner.FindExecutable w "go" with
  | (_, Some _) => Returned ([], Some "go not found in PATH")
  | (goPath, None) =>
      let realPath := resolveOr w goPath in
      match scanner.GetExecutableVersion w "go" ["version"] with
      | (_, Some err) => Returned ([], Some ("failed to get go version: " ++ err))
      | (version, None) =>
          let parts := Fields version in
          let! versionStr :=
            (if (3 <=? List.length parts)%nat
             then let! p := index parts 2 in Returned (TrimPrefix p "go")
             else Returned "unknown") in
          let source := GoProvider_determineSource realPath in
          let managerName := GoProvider_getManagerName realPath source in
          let! managerPath := GoProvider_getManagerPath realPath source in
          Returned ([ {| Version := versionStr; Source := source;
                         BinaryPath := goPath; ManagerPath := managerPath;
                         ManagerName := managerName |} ], None)
      end
  end.

(** [GOMODCACHE], or [GOPATH + "/pkg/mod"] when it is not set. *)
Definition GoProvider_gomodcache (w : World) : string :=
  let gomodcache := GoProvider_getGoEnv w "GOMODCACHE" in
  if String.eqb gomodcache "" then
    let gopath := GoProvider_getGoEnv w "GOPATH" in
    if nonEmpty gopath then gopath ++ "/pkg/mod" else gomodcache
  else gomodcache.

Definition GoProvider_GetGlobalCacheUsage (w : World)
    : Outcome (option DiskUsage * option error) :=
  let items := [] in
  let goroot := GoProvider_getGoEnv w "GOROOT" in
  let items := if nonEmpty goroot then measure w items goroot "SDK" else items in
  let gocache := GoProvider_getGoEnv w "GOCACHE" in
  let items := if nonEmpty gocache then measure w items gocache "Build Cache" else items in
  let gomodcache := GoProvider_gomodcache w in
  let items :=
    if nonEmpty gomodcache then measure w items gomodcache "Module Cache" else items in
  usage items.

Definition GoProvider_GetEnvVars (w : World) : gmap string string :=
  envVars (GoProvider_getGoEnv w) ["GOROOT"; "GOPATH"; "GOCACHE"; "GOMODCACHE"].

Definition GoProvider_GetCleanableItems (w : World)
    : Outcome (list CleanableItem * option error) :=
  let items := [] in
  let gomodcache := GoProvider_gomodcache w in
  let items :=
    if nonEmpty gomodcache then
      cleanable w items gomodcache
        (fun size => {| Path := ""; Description := "Go Module Cache";
                        Size := size; Command := "go clean -modcache"; Safe := true |})
    else items in
  let gocache := GoProvider_getGoEnv w "GOCACHE" in
  let items :=
    if nonEmpty gocache then
      cleanable w items gocache
        (fun size => {| Path := ""; Description := "Go Build Cache";
                        Size := size; Command := "go clean -cache"; Safe := true |})
    else items in
  Returned (items, None).

Definition GoProvider_CleanItem (result : CleanResult) (item : CleanableItem)
    : M CleanResult :=
  err <- (if nonEmpty (Command item) then runShell (Command item) else ret None) ;;
  settle result item err.

Definition GoProvider_Clean := cleanWith GoProvider_CleanItem.

Definition NewGoProvider : LanguageProvider :=
  {| Name := "Golang";
     DetectInstalled := GoProvider_DetectInstalled;
     GetGlobalCacheUsage := GoProvider_GetGlobalCacheUsage;
     GetEnvVars := GoProvider_GetEnvVars;
     GetCleanableItems := GoProvider_GetCleanableItems;
     Clean := GoProvider_Clean |}.

(** *** Node.js *)

Definition NodeProvider_determineSource (path : string) : InstallSource :=
  if Contains path ".nvm" then SourceVersionManager
  else if Contains path ".volta" then SourceVersionManager
  else if Contains path "/opt/homebrew" || Contains path "/usr/local/Cellar"
  then SourceHomebrew
  else SourceUnknown.

Definition NodeProvider_getManagerPath (path : string) (source : InstallSource)
    : Outcome string :=
  if isVersionManager source then
    if Contains path ".nvm" then upTo path ".nvm" 4
    else if Contains path ".volta" then upTo path ".volta" 6
    else Returned ""
  else Returned "".

Definition NodeProvider_DetectInstalled (w : World)
    : Outcome (list Installation * option error) :=
  match scanner.FindExecutable w "node" with
  | (_, Some _) => Returned ([], Some "node not found in PATH")
  | (nodePath, None) =>
      let realPath := resolveOr w nodePath in
      match scanner.GetExecutableVersion w "node" ["--version"] with
      | (_, Some err) => Returned ([], Some ("failed to get node version: " ++ err))
      | (version, None) =>
          let version := TrimSpace version in
          let source := NodeProvider_determineSource realPath in
          let! managerPath := NodeProvider_getManagerPath realPath source in
          Returned ([installation version source nodePath managerPath], None)
      end
  end.

Definition NodeProvider_GetGlobalCacheUsage (w : World)
    : Outcome (option DiskUsage * option error) :=
  let items := [] in
  let items := measure w items "~/.nvm/versions" "NVM Versions" in
  let items := measure w items "~/.npm/_cacache" "NPM Cache" in
  let items := measure w items "~/Library/Caches/Yarn" "Yarn Cache" in
  let items := measure w items "~/.yarn" "Yarn v2+ Cache" in
  let items := measure w items "~/.local/share/pnpm/store" "PNPM Store" in
  usage items.

Definition NodeProvider_GetEnvVars (w : World) : gmap string string :=
  envVars (scanner.GetEnvVar w) ["NODE_PATH"; "NPM_CONFIG_PREFIX"; "NVM_DIR"].

Definition NodeProvider_GetCleanableItems (w : World)
    : Outcome (list CleanableItem * option error) :=
  let items := [] in
  let items :=
    cleanable w items "~/.npm/_cacache"
      (fun size => {| Path := ""; Description := "NPM Cache"; Size := size;
                      Command := "npm cache clean --force"; Safe := true |}) in
  let items :=
    cleanable w items "~/Library/Caches/Yarn"
      (fun size => {| Path := ""; Description := "Yarn Cache"; Size := size;
                      Command := "yarn cache clean"; Safe := true |}) in
  let items :=
    cleanable w items "~/.local/share/pnpm/store"
      (fun size => {| Path := ""; Description := "PNPM Store"; Size := size;
                      Command := "pnpm store prune"; Safe := true |}) in
  Returned (items, None).

(** [parts := strings.Fields(item.Command);
     exec.Command(parts[0], parts[1:]...).Run()]: [parts[0]] is evaluated
    without a check of [len(parts)]. *)
Definition NodeProvider_CleanItem (result : CleanResult) (item : CleanableItem)
    : M CleanResult :=
  err <- (if nonEmpty (Command item) then
            let parts := Fields (Command item) in
            match index parts 0 with
            | Panicked msg => panic msg
            | Returned name =>
                let argv := name :: List.tl parts in
                r <- perform (Exec argv) (exec_Run argv) ;;
                ret (snd r)
            end
          else ret None) ;;
  settle result item err.

Definition NodeProvider_Clean := cleanWith NodeProvider_CleanItem.

Definition NewNodeProvider : LanguageProvider :=
  {| Name := "Node.js";
     DetectInstalled := NodeProvider_DetectInstalled;
     GetGlobalCacheUsage := NodeProvider_GetGlobalCacheUsage;
     GetEnvVars := NodeProvider_GetEnvVars;
     GetCleanableItems := NodeProvider_GetCleanableItems;
     Clean := NodeProvider_Clean |}.

(** *** Java *)

Definition JavaProvider_parseVersion (output : string) : Outcome string :=
  let firstLine := SplitFirst output cleaner.newline in
  let start := Index firstLine quote in
  if negb (start =? -1) then
    let! rest := slice_from firstLine (start + 1) in
    let end_ := Index rest quote in
    if negb (end_ =? -1) then slice firstLine (start + 1) (start + 1 + end_)
    else Returned "unknown"
  else Returned "unknown".

Definition JavaProvider_determineSource (w : World) (path : string) : InstallSource :=
  let javaHome := os_Getenv w "JAVA_HOME" in
  if Contains path ".sdkman" || Contains javaHome ".sdkman" then SourceVersionManager
  else if Contains path "/opt/homebrew" || Contains path "/usr/local/Cellar"
  then SourceHomebrew
  else if Contains path "/Library/Java" then SourceManual
  else SourceUnknown.

Definition JavaProvider_getManagerPath (path : string) (source : InstallSource)
    : Outcome string :=
  if isVersionManager source && Contains path ".sdkman"
  then upTo path ".sdkman" 7
  else Returned "".

Definition JavaProvider_DetectInstalled (w : World)
    : Outcome (list Installation * option error) :=
  match scanner.FindExecutable w "java" with
  | (_, Some _) => Returned ([], Some "java not found in PATH")
  | (javaPath, None) =>
      let realPath := resolveOr w javaPath in
      match scanner.GetExecutableVersion w "java" ["-version"] with
      | (_, Some err) => Returned ([], Some ("failed to get java version: " ++ err))
      | (version, None) =>
          let! versionStr := JavaProvider_parseVersion version in
          let source := JavaProvider_determineSource w realPath in
          let! managerPath := JavaProvider_getManagerPath realPath source in
          Returned ([installation versionStr source javaPath managerPath], None)
      end
  end.

Definition JavaProvider_GetGlobalCacheUsage (w : World)
    : Outcome (option DiskUsage * option error) :=
  let items := [] in
  let items := measure w items "~/.sdkman/candidates/java" "SDKMAN Java SDKs" in
  let items := measure w items "~/.m2/repository" "Maven Repository" in
  let items := measure w items "~/.gradle/caches" "Gradle Cache" in
  usage items.

Definition JavaProvider_GetEnvVars (w : World) : gmap string string :=
  envVars (scanner.GetEnvVar w) ["JAVA_HOME"; "M2_HOME"; "GRADLE_HOME"].

Definition JavaProvider_GetCleanableItems (w : World)
    : Outcome (list CleanableItem * option error) :=
  let items := [] in
  let items :=
    cleanable w items "~/.gradle/caches"
      (fun size => {| Path := "~/.gradle/caches"; Description := "Gradle Cache";
                      Size := size; Command := ""; Safe := true |}) in
  let items :=
    cleanable w items "~/.m2/repository"
      (fun size => {| Path := "~/.m2/repository"; Description := "Maven Repository";
                      Size := size; Command := ""; Safe := false |}) in
  Returned (items, None).

Definition JavaProvider_CleanItem (result : CleanResult) (item : CleanableItem)
    : M CleanResult :=
  err <- (if nonEmpty (Path item) then removeExpanded (Path item) else ret None) ;;
  settle result item err.

Definition JavaProvider_Clean := cleanWith JavaProvider_CleanItem.

Definition NewJavaProvider : LanguageProvider :=
  {| Name := "Java";
     DetectInstalled := JavaProvider_DetectInstalled;
     GetGlobalCacheUsage := JavaProvider_GetGlobalCacheUsage;
     GetEnvVars := JavaProvider_GetEnvVars;
     GetCleanableItems := JavaProvider_GetCleanableItems;
     Clean := JavaProvider_Clean |}.

(** *** Python *)

Definition PythonProvider_determineSource (path : string) : InstallSource :=
  if Contains path ".pyenv" then SourceVersionManager
  else if Contains path "anaconda" || Contains path "miniconda"
  then SourceVersionManager
  else if Contains path "/opt/homebrew" || Contains path "/usr/local/Cellar"
  then SourceHomebrew
  else if Contains path "/usr/bin/python" then SourceSystem
  else SourceUnknown.

Definition PythonProvider_getManagerPath (path : string) (source : InstallSource)
    : Outcome string :=
  if isVersionManager source then
    if Contains path ".pyenv" then upTo path ".pyenv" 6 else Returned ""
  else Returned "".

Definition PythonProvider_DetectInstalled (w : World)
    : Outcome (list Installation * option error) :=
  match scanner.FindExecutable w "python3" with
  | (_, Some _) => Returned ([], Some "python3 not found in PATH")
  | (pythonPath, None) =>
      let realPath := resolveOr w pythonPath in
      match scanner.GetExecutableVersion w "python3" ["--version"] with
      | (_, Some err) => Returned ([], Some ("failed to get python version: " ++ err))
      | (version, None) =>
          let versionStr :=
            if HasPrefix version "Python " then TrimPrefix version "Python "
            else "unknown" in
          let source := PythonProvider_determineSource realPath in
          let! managerPath := PythonProvider_getManagerPath realPath source in
          Returned ([installation versionStr source pythonPath managerPath], None)
      end
  end.

Definition PythonProvider_GetGlobalCacheUsage (w : World)
    : Outcome (option DiskUsage * option error) :=
  let items := [] in
  let items := measure w items "~/.pyenv/versions" "Pyenv Versions" in
  let items := measure w items "~/Library/Caches/pip" "Pip Cache" in
  let items := measure w items "~/.virtualenvs" "Virtualenvs" in
  usage items.

Definition PythonProvider_GetEnvVars (w : World) : gmap string string :=
  envVars (scanner.GetEnvVar w) ["PYTHONPATH"; "VIRTUAL_ENV"; "PYENV_ROOT"].

Definition PythonProvider_GetCleanableItems (w : World)
    : Outcome (list CleanableItem * option error) :=
  let items := [] in
  let items :=
    cleanable w items "~/Library/Caches/pip"
      (fun size => {| Path := ""; Description := "Pip Cache"; Size := size;
                      Command := "pip cache purge"; Safe := true |}) in
  Returned (items, None).

(** The command is split into fields and then not run: the loop removes
    [item.Path] instead. *)
Definition PythonProvider_CleanItem (result : CleanResult) (item : CleanableItem)
    : M CleanResult :=
  err <- (if nonEmpty (Command item) then
            let parts := Fields (Command item) in
            if (0 <? List.length parts)%nat then removeExpanded (Path item)
            else ret None
          else ret None) ;;
  settle result item err.

Definition PythonProvider_Clean := cleanWith PythonProvider_CleanItem.

Definition NewPythonProvider : LanguageProvider :=
  {| Name := "Python";
     DetectInstalled := PythonProvider_DetectInstalled;
     GetGlobalCacheUsage := PythonProvider_GetGlobalCacheUsage;
     GetEnvVars := PythonProvider_GetEnvVars;
     GetCleanableItems := PythonProvider_GetCleanableItems;
     Clean := PythonProvider_Clean |}.

(** *** PHP *)

Definition PHPProvider_parseVersion (output : string) : Outcome string :=
  let firstLine := SplitFirst output cleaner.newline in
  if HasPrefix firstLine "PHP " then
    let parts := Fields firstLine in
    if (2 <=? List.length parts)%nat then index parts 1 else Returned "unknown"
  else Returned "unknown".

Definition PHPProvider_determineSource (path : string) : InstallSource :=
  if Contains path ".phpenv" then SourceVersionManager
  else if Contains path "/opt/homebrew" || Contains path "/usr/local/Cellar"
  then SourceHomebrew
  else if Contains path "/usr/bin/php" then SourceSystem
  else SourceUnknown.

Definition PHPProvider_getManagerPath (path : string) (source : InstallSource)
    : Outcome string :=
  if isVersionManager source && Contains path ".phpenv"
  then upTo path ".phpenv" 7
  else Returned "".

Definition PHPProvider_DetectInstalled (w : World)
    : Outcome (list Installation * option error) :=
  match scanner.FindExecutable w "php" with
  | (_, Some _) => Returned ([], Some "php not found in PATH")
  | (phpPath, None) =>
      let realPath := resolveOr w phpPath in
      match scanner.GetExecutableVersion w "php" ["--version"] with
      | (_, Some err) => Returned ([], Some ("failed to get php version: " ++ err))
      | (version, None) =>
          let! versionStr := PHPProvider_parseVersion version in
          let source := PHPProvider_determineSource realPath in
          let! managerPath := PHPProvider_getManagerPath realPath source in
          Returned ([installation versionStr source phpPath managerPath], None)
      end
  end.

(** The Homebrew installation directory of PHP:
    [realPath[:strings.Index(realPath[idx:], "/bin")+idx]] for
    [idx = strings.Index(realPath, "/Cellar/php")]; the result of the inner
    [Index] is used without a test for [-1]. *)
Definition PHPProvider_installation (w : World) (items : list DiskUsageItem)
    : Outcome (list DiskUsageItem) :=
  match scanner.FindExecutable w "php" with
  | (_, Some _) => Returned items
  | (phpPath, None) =>
      let realPath := fst (scanner.ResolveSymlink w phpPath) in
      if Contains realPath "/opt/homebrew" || Contains realPath "/usr/local/Cellar"
      then
        let idx := Index realPath "/Cellar/php" in
        if negb (idx =? -1) then
          let! tail := slice_from realPath idx in
          let! phpDir := slice_to realPath (Index tail "/bin" + idx) in
          Returned (measure w items phpDir "PHP Installation")
        else Returned items
      else Returned items
  end.

Definition PHPProvider_GetGlobalCacheUsage (w : World)
    : Outcome (option DiskUsage * option error) :=
  let items := [] in
  let! items := PHPProvider_installation w items in
  let items := measure w items "~/.composer/cache" "Composer Cache" in
  let items := measure w items "~/.composer/vendor" "Composer Global Packages" in
  usage items.

Definition PHPProvider_GetEnvVars (w : World) : gmap string string :=
  envVars (scanner.GetEnvVar w) ["COMPOSER_HOME"; "PHP_INI_SCAN_DIR"].

Definition PHPProvider_GetCleanableItems (w : World)
    : Outcome (list CleanableItem * option error) :=
  let items := [] in
  let items :=
    cleanable w items "~/.composer/cache"
      (fun size => {| Path := ""; Description := "Composer Cache"; Size := size;
                      Command := "composer clear-cache"; Safe := true |}) in
  Returned (items, None).

(** The command is never run: the directory [item.Path] is removed when
    the item has one. *)
Definition PHPProvider_CleanItem (result : CleanResult) (item : CleanableItem)
    : M CleanResult :=
  err <- (if nonEmpty (Command item) then
            if nonEmpty (Path item) then removeExpanded (Path item)
            else ret None
          else ret None) ;;
  settle result item err.

Definition PHPProvider_Clean := cleanWith PHPProvider_CleanItem.

Definition NewPHPProvider : LanguageProvider :=
  {| Name := "PHP";
     DetectInstalled := PHPProvider_DetectInstalled;
     GetGlobalCacheUsage := PHPProvider_GetGlobalCacheUsage;
     GetEnvVars := PHPProvider_GetEnvVars;
     GetCleanableItems := PHPProvider_GetCleanableItems;
     Clean := PHPProvider_Clean |}.

(** *** Rust *)

Definition RustProvider_parseVersion (output : string) : Outcome string :=
  let parts := Fields output in
  if (2 <=? List.length parts)%nat
     && String.eqb (List.nth 0 parts "") "rustc"
  then index parts 1
  else Returned "unknown".

Definition RustProvider_determineSource (path : string) : InstallSource :=
  if Contains path ".cargo/bin" then SourceVersionManager
  else if Contains path "/opt/homebrew" || Contains path "/usr/local/Cellar"
  then SourceHomebrew
  else SourceUnknown.

Definition RustProvider_getManagerPath (path : string) (source : InstallSource)
    : Outcome string :=
  if isVersionManager source && Contains path ".cargo"
  then upTo path ".cargo" 6
  else Returned "".

Definition RustProvider_DetectInstalled (w : World)
    : Outcome (list Installation * option error) :=
  match scanner.FindExecutable w "rustc" with
  | (_, Some _) => Returned ([], Some "rustc not found in PATH")
  | (rustcPath, None) =>
      let realPath := resolveOr w rustcPath in
      match scanner.GetExecutableVersion w "rustc" ["--version"] with
      | (_, Some err) => Returned ([], Some ("failed to get rust version: " ++ err))
      | (version, None) =>
          let! versionStr := RustProvider_parseVersion version in
          let source := RustProvider_determineSource realPath in
          let! managerPath := RustProvider_getManagerPath realPath source in
          Returned ([installation versionStr source rustcPath managerPath], None)
      end
  end.

Definition RustProvider_GetGlobalCacheUsage (w : World)
    : Outcome (option DiskUsage * option error) :=
  let items := [] in
  let items := measure w items "~/.rustup/toolchains" "Rustup Toolchains" in
  let items := measure w items "~/.cargo/registry" "Cargo Registry" in
  let items := measure w items "~/.cargo/git" "Cargo Git Checkouts" in
  usage items.

Definition RustProvider_GetEnvVars (w : World) : gmap string string :=
  envVars (scanner.GetEnvVar w) ["CARGO_HOME"; "RUSTUP_HOME"].

Definition RustProvider_GetCleanableItems (w : World)
    : Outcome (list CleanableItem * option error) :=
  let items := [] in
  let items :=
    cleanable w items "~/.cargo/registry"
      (fun size => {| Path := "~/.cargo/registry"; Description := "Cargo Registry";
                      Size := size; Command := ""; Safe := true |}) in
  let items :=
    cleanable w items "~/.cargo/git"
      (fun size => {| Path := "~/.cargo/git"; Description := "Cargo Git Checkouts";
                      Size := size; Command := ""; Safe := true |}) in
  Returned (items, None).

Definition RustProvider_CleanItem (result : CleanResult) (item : CleanableItem)
    : M CleanResult :=
  err <- (if nonEmpty (Path item) then removeExpanded (Path item)
          else if nonEmpty (Command item) then runShell (Command item)
          else ret None) ;;
  settle result item err.

Definition RustProvider_Clean := cleanWith RustProvider_CleanItem.

Definition NewRustProvider : LanguageProvider :=
  {| Name := "Rust";
     DetectInstalled := RustProvider_DetectInstalled;
     GetGlobalCacheUsage := RustProvider_GetGlobalCacheUsage;
     GetEnvVars := RustProvider_GetEnvVars;
     GetCleanableItems := RustProvider_GetCleanableItems;
     Clean := RustProvider_Clean |}.

End providers.
End providers.

(** ** Package [cmd]: the clean and scan commands *)

(** [output.ScanResult]; a field that was never assigned is [None]. *)
Record ScanResult `{os : OS} : Type := {
  Provider : option LanguageProvider;
  ScanInstallation : option Installation;
  ScanDiskUsage : option DiskUsage;
  ScanError : option error
}.

Module cmd.
Section cmd.
Context `{os : OS}.

(** The flags [--dry-run], [--force] and [--verbose], which the commands
    read from package variables. *)
Record Flags : Type := { dryRun : bool; force : bool; verbose : bool }.

(** A call of a measurement operation of a provider. *)
Definition query {A} (q : World -> Outcome A) : M A :=
  fun st => (q (world st), st).

(** [var totalSize int64; for _, item := range items { totalSize += item.Size }]. *)
Definition totalSizeOf (items : list CleanableItem) : Z :=
  fold_left (fun totalSize item => add64 totalSize (Size item)) items 0.

(** The end of [cleanProvider], from the comment [Execute cleaning] on. *)
Definition executeCleaning (flags : Flags) (provider : LanguageProvider)
    (items : list CleanableItem) : M (option error) :=
  (if verbose flags then Println (OutCleaning (Name provider)) else ret tt) ;;;
  emit (CallClean (Name provider) items) ;;;
  r <- Clean provider items ;;
  match r with
  | (_, Some err) => ret (Some ("cleaning failed: " ++ err))
  | (Some result, None) => Println (OutCleanResult result items) ;;; ret None
  | (None, None) => panic "invalid memory address or nil pointer dereference"
  end.

Definition cleanProvider (flags : Flags) (stdin : string)
    (provider : LanguageProvider) : M (option error) :=
  r <- query (GetCleanableItems provider) ;;
  match r with
  | (_, Some err) => ret (Some ("failed to get cleanable items: " ++ err))
  | (items, None) =>
      if (List.length items =? 0)%nat then
        Println (OutNoItems (Name provider)) ;;; ret None
      else
        let totalSize := totalSizeOf items in
        if dryRun flags then
          Println (OutPreview (Name provider) items) ;;; ret None
        else
          let hasUnsafeItems := existsb (fun item => negb (Safe item)) items in
          if negb (force flags) then
            (if hasUnsafeItems then Println OutUnsafeWarning else ret tt) ;;;
            confirmed <- cleaner.ConfirmClean items totalSize stdin ;;
            if negb confirmed then Println OutCancelled ;;; ret None
            else executeCleaning flags provider items
          else executeCleaning flags provider items
  end.

Definition emptyDiskUsage : DiskUsage := {| Items := []; Total := 0 |}.

(** [scanProvider]; the second component is what it prints. *)
Definition scanProvider (flags : Flags) (w : World) (provider : LanguageProvider)
    : Outcome (ScanResult * list string) :=
  let result err :=
    {| Provider := Some provider; ScanInstallation := None;
       ScanDiskUsage := None; ScanError := Some err |} in
  let! d := DetectInstalled provider w in
  match d with
  | (_, Some err) => Returned (result err, [])
  | ([], None) => Returned (result "not installed", [])
  | (installation :: _, None) =>
      let! u := GetGlobalCacheUsage provider w in
      let '(diskUsage, out) :=
        match u with
        | (_, Some err) =>
            (Some emptyDiskUsage,
             if verbose flags
             then ["Warning: failed to get disk usage for " ++ Name provider ++ ": " ++ err]
             else [])
        | (diskUsage, None) => (diskUsage, [])
        end in
      Returned ({| Provider := Some provider; ScanInstallation := Some installation;
                   ScanDiskUsage := diskUsage; ScanError := None |}, out)
  end.

(** The zero value of [output.ScanResult]. *)
Definition zeroScanResult : ScanResult :=
  {| Provider := None; ScanInstallation := None;
     ScanDiskUsage := None; ScanError := None |}.

(** The goroutine of slot [index] finishes: [results[index] = scanProvider(p)].
    A panic in a goroutine ends the program. *)
Definition finish (flags : Flags) (w : World) (providers : list LanguageProvider)
    (acc : Outcome (list ScanResult * list string)) (index : nat)
    : Outcome (list ScanResult * list string) :=
  let! a := acc in
  match providers !! index with
  | None => Returned a
  | Some p =>
      let! r := scanProvider flags w p in
      Returned (<[index := fst r]> (fst a), (snd a ++ snd r)%list)
  end.

(** [scanProviders]: [results := make([]output.ScanResult, len(providers))],
    one goroutine per provider, [wg.Wait()]. The goroutines only read the
    world; [order] is the order in which they finish, a permutation of the
    slot numbers [0 .. len(providers) - 1]. *)
Definition scanProviders (flags : Flags) (w : World)
    (providers : list LanguageProvider) (order : list nat)
    : Outcome (list ScanResult * list string) :=
  let results := replicate (List.length providers) zeroScanResult in
  fold_left (finish flags w providers) order (Returned (results, [])).

(** The providers that [runClean], [runScan] and [runInfo] register. *)
Definition allProviders : list LanguageProvider :=
  [ providers.NewGoProvider; providers.NewNodeProvider; providers.NewJavaProvider;
    providers.NewPythonProvider; providers.NewPHPProvider; providers.NewRustProvider ].

(** The selection of [runClean], for [language := strings.ToLower(args[0])]:
    every provider for ["all"], and otherwise the first provider whose
    lowered name contains the language. *)
Definition selectProviders (providers : list LanguageProvider) (language : string)
    : list LanguageProvider :=
  if String.eqb language "all" then providers
  else
    match List.find
            (fun provider =>
               GoStrings.Contains (GoStrings.ToLower (Name provider)) language)
            providers with
    | Some provider => [provider]
    | None => []
    end.

(** The keys of [langMap] in [filterProviders]. (The names of the
    providers are ASCII and have no [i] and no [k], the only ASCII letters
    that a rune outside ASCII lowers to: lowering the ASCII letters of the
    filter selects the providers that Go's [ToLower] selects.) *)
Definition filterTerms (filter : string) : gset string :=
  list_to_set
    (map GoStrings.TrimSpace (GoStrings.Split (GoStrings.ToLower filter) ",")).

(** [filterProviders]: a provider is kept when its lowered name contains
    some key of [langMap]. *)
Definition filterProviders (providers : list LanguageProvider) (filter : string)
    : list LanguageProvider :=
  if String.eqb filter "" then providers
  else
    let langMap := filterTerms filter in
    List.filter
      (fun provider =>
         let name := GoStrings.ToLower (Name provider) in
         existsb (fun filterLang => GoStrings.Contains name filterLang)
           (elements langMap))
      providers.

(** What [runScan] prints: a line of text, or the table that
    [output.RenderScanResults] draws of the results. *)
Inductive ScanLine : Type :=
| Text (line : string)
| Table (results : list ScanResult).

(** [runScan] with the flag [--lang] set to [langFilter]; [order] is the
    order in which the goroutines of [scanProviders] finish. *)
Definition runScan (flags : Flags) (langFilter : string) (w : World)
    (order : list nat) : Outcome (list ScanLine) :=
  let selectedProviders := filterProviders allProviders langFilter in
  if (List.length selectedProviders =? 0)%nat
  then Returned [Text "No languages selected to scan."]
  else
    let intro :=
      if verbose flags
      then [Text "Scanning development environment..."; Text ""]
      else [] in
    let! r := scanProviders flags w selectedProviders order in
    Returned (intro ++ map Text (snd r) ++ [Table (fst r)])%list.

End cmd.
End cmd.

(** ** A small machine

    A concrete operating system, on which the definitions above evaluate:
    a list of regular files with their sizes (a directory exists when a file
    lies below it), an environment, the executables on the search path and
    what the reporting sub-commands print. *)

Record Machine : Type := {
  files : list (string * Z);
  home : option string;
  environ : list (string * string);
  binaries : list (string * string);
  reports : list (list string * string);
  protected : list string
}.

Module machine.
Import GoStrings.

(** [q] is [p] or lies below the directory [p]. *)
Definition under (p q : string) : bool :=
  String.eqb q p || HasPrefix q (p ++ "/").

Definition lookup {A} (eqb : A -> A -> bool) (k : A) (l : list (A * string))
    : option string :=
  match List.find (fun e => eqb k (fst e)) l with
  | Some e => Some (snd e)
  | None => None
  end.

Fixpoint argv_eqb (a b : list string) : bool :=
  match a, b with
  | [], [] => true
  | x :: a', y :: b' => String.eqb x y && argv_eqb a' b'
  | _, _ => false
  end.

(** No file has the empty path. *)
Definition stat (m : Machine) (p : string) : bool :=
  nonEmpty p && existsb (fun f => under p (fst f)) (files m).

Definition getenv (m : Machine) (name : string) : string :=
  match lookup String.eqb name (environ m) with
  | Some v => v
  | None => ""
  end.

Definition lookPath (m : Machine) (name : string) : string * option error :=
  match lookup String.eqb name (binaries m) with
  | Some p => (p, None)
  | None => ("", Some "executable file not found in $PATH")
  end.

Definition report (m : Machine) (argv : list string) : string * option error :=
  match lookup argv_eqb argv (reports m) with
  | Some out => (out, None)
  | None => ("", Some "exit status 1")
  end.

Definition walk (m : Machine) (root : string) : list WalkEntry :=
  WalkDirectory ::
  map (fun f => WalkFile (Some (snd f)))
      (List.filter (fun f => under root (fst f)) (files m)).

(** A command runs when its program is on the search path; it changes
    nothing. *)
Definition runCommand (argv : list string) (m : Machine)
    : (string * option error) * Machine :=
  match argv with
  | name :: _ =>
      match lookup String.eqb name (binaries m) with
      | Some _ => (("", None), m)
      | None => (("", Some "executable file not found in $PATH"), m)
      end
  | [] => (("", Some "no command"), m)
  end.

(** [os.RemoveAll]: nothing to do for [""], an error for a protected path,
    and otherwise the path and everything below it is gone. *)
Definition removeAll (p : string) (m : Machine) : option error * Machine :=
  if String.eqb p "" then (None, m)
  else if existsb (String.eqb p) (protected m)
  then (Some ("unlinkat " ++ p ++ ": permission denied"), m)
  else (None,
        {| files := List.filter (fun f => negb (under p (fst f))) (files m);
           home := home m; environ := environ m; binaries := binaries m;
           reports := reports m; protected := protected m |}).

End machine.

#[export] Instance machineOS : OS := {|
  World := Machine;
  os_Stat := machine.stat;
  os_UserHomeDir := home;
  os_Getenv := machine.getenv;
  filepath_Join := fun a b => a ++ "/" ++ b;
  filepath_EvalSymlinks := fun _ p => (p, None);
  filepath_WalkDir := machine.walk;
  exec_LookPath := machine.lookPath;
  exec_Output := machine.report;
  exec_CombinedOutput := machine.report;
  exec_Run := machine.runCommand;
  os_RemoveAll := machine.removeAll
|}.

(** A developer's machine: a Gradle cache, a Maven repository and a
    Composer cache in the home directory, Java and PHP installed. *)
Definition laptop : Machine := {|
  files := [ ("/Users/dev/.gradle/caches/modules/a.jar", 700);
             ("/Users/dev/.gradle/caches/modules/b.jar", 300);
             ("/Users/dev/.m2/repository/org/x.jar", 5000);
             ("/Users/dev/.composer/cache/files/p.zip", 40);
             ("/Users/dev/.sdkman/candidates/java/17/bin/java", 90);
             ("/opt/homebrew/Cellar/php/8.2.0/bin/php", 60);
             ("/tmp/build-cache/obj.o", 5) ];
  home := Some "/Users/dev";
  environ := [ ("JAVA_HOME", "/Users/dev/.sdkman/candidates/java/17") ];
  binaries := [ ("java", "/Users/dev/.sdkman/candidates/java/17/bin/java");
                ("php", "/opt/homebrew/Cellar/php/8.2.0/bin/php");
                ("sh", "/bin/sh") ];
  reports := [ (["php"; "--version"], "PHP 8.2.0 (cli)");
               (["java"; "-version"],
                "openjdk version " ++ providers.quote ++ "17.0.9"
                ++ providers.quote ++ " 2023-10-17") ];
  protected := []
|}.

(** ** The vocabulary of the properties *)

(** *** Effects *)

(** An event that only writes to standard output. *)
Definition isPrint (e : Event) : Prop :=
  match e with
  | Stdout _ => True
  | _ => False
  end.

(** A call of [os.RemoveAll]. *)
Definition isDeletion (e : Event) : Prop :=
  match e with
  | RemoveAll _ => True
  | _ => False
  end.

(** An event that can change the filesystem: a subprocess, a deletion, or a
    call of a provider's [Clean]. *)
Definition isMutation (e : Event) : bool :=
  match e with
  | Exec _ | RemoveAll _ | CallClean _ _ => true
  | Stdout _ | ReadStdin => false
  end.

(** *** The confirmation prompt *)

(** The answer on standard input is a complete line that reads [y] or [yes]
    once it is trimmed and lowered. *)
Definition affirmative (stdin : string) : Prop :=
  exists line,
    cleaner.ReadString stdin = (line, None) /\
    (GoStrings.ToLower (GoStrings.TrimSpace line) = "y" \/
     GoStrings.ToLower (GoStrings.TrimSpace line) = "yes").

(** The text on standard input after [answer] was typed and entered. *)
Definition enter (answer : string) : string := answer ++ cleaner.newline.

(** *** Classification by an ordered rule list *)

(** A rule: a predicate over the path, and the source it stands for. *)
Definition Rule : Type := (string -> bool) * InstallSource.

(** The source of the first rule whose predicate holds, [SourceUnknown] when
    there is none. *)
Fixpoint classify (rules : list Rule) (path : string) : InstallSource :=
  match rules with
  | [] => SourceUnknown
  | (matches, source) :: rest =>
      if matches path then source else classify rest path
  end.

Inductive Ecosystem : Type := Go | Node | Java | Python | PHP | Rust.

Definition containsAny (markers : list string) (path : string) : bool :=
  existsb (GoStrings.Contains path) markers.

Definition homebrewRule : Rule :=
  (containsAny ["/opt/homebrew"; "/usr/local/Cellar"], SourceHomebrew).

(** The rule list of each provider, in the order of its [determineSource];
    [javaHome] is the value of [JAVA_HOME]. *)
Definition rulesOf (e : Ecosystem) (javaHome : string) : list Rule :=
  match e with
  | Go =>
      [ (containsAny [".goenv"], SourceVersionManager);
        homebrewRule;
        (containsAny ["/usr/local/go"], SourceManual) ]
  | Node =>
      [ (containsAny [".nvm"], SourceVersionManager);
        (containsAny [".volta"], SourceVersionManager);
        homebrewRule ]
  | Java =>
      [ (fun path => GoStrings.Contains path ".sdkman"
                     || GoStrings.Contains javaHome ".sdkman",
         SourceVersionManager);
        homebrewRule;
        (containsAny ["/Library/Java"], SourceManual) ]
  | Python =>
      [ (containsAny [".pyenv"], SourceVersionManager);
        (containsAny ["anaconda"; "miniconda"], SourceVersionManager);
        homebrewRule;
        (containsAny ["/usr/bin/python"], SourceSystem) ]
  | PHP =>
      [ (containsAny [".phpenv"], SourceVersionManager);
        homebrewRule;
        (containsAny ["/usr/bin/php"], SourceSystem) ]
  | Rust =>
      [ (containsAny [".cargo/bin"], SourceVersionManager);
        homebrewRule ]
  end.

Section Vocabulary.
Context `{os : OS}.

(** [determineSource] of the provider of an ecosystem. *)
Definition determineSource (e : Ecosystem) (w : World) (path : string) : InstallSource :=
  match e with
  | Go => providers.GoProvider_determineSource path
  | Node => providers.NodeProvider_determineSource path
  | Java => providers.JavaProvider_determineSource w path
  | Python => providers.PythonProvider_determineSource path
  | PHP => providers.PHPProvider_determineSource path
  | Rust => providers.RustProvider_determineSource path
  end.

(** [c] returns (it does not panic) in every state, with a value that
    satisfies [P]. *)
Definition returnsWith {A} (c : M A) (P : A -> Prop) : Prop :=
  forall st, exists a st', c st = (Returned a, st') /\ P a.

(** Whatever [c] adds to the log satisfies [P]. *)
Definition logsOnly {A} (P : Event -> Prop) (c : M A) : Prop :=
  forall st, exists l, log (snd (c st)) = (log st ++ l)%list /\ Forall P l.

(** *** Accounting of a clean run *)

(** What the action of [CleanItems] on each item came to, each in the state
    in which the loop reaches it. *)
Fixpoint attempts (items : list CleanableItem) (st : State)
    : list (CleanableItem * option error) :=
  match items with
  | [] => []
  | item :: rest =>
      match cleaner.cleanAction item st with
      | (Returned err, st') => (item, err) :: attempts rest st'
      | (Panicked _, _) => []
      end
  end.

(** The items whose action returned no error. *)
Definition succeeded (a : list (CleanableItem * option error)) : list CleanableItem :=
  omap (fun x => match snd x with None => Some (fst x) | Some _ => None end) a.

(** The messages recorded for the items whose action failed. *)
Definition failures (a : list (CleanableItem * option error)) : list error :=
  omap (fun x =>
          match snd x with
          | Some e => Some ("failed to clean " ++ Description (fst x) ++ ": " ++ e)
          | None => None
          end) a.

(** *** Sizes *)

(** What an entry of a walk adds to the size of the directory. *)
Definition entrySize (d : WalkEntry) : Z :=
  match d with
  | WalkFile (Some n) => n
  | _ => 0
  end.

(** The files of the world have sizes that are not negative, and the files
    below any one directory add up to a size that fits in an [int64]. *)
Definition sizesBounded (w : World) : Prop :=
  forall root,
    Forall (fun d => 0 <= entrySize d) (filepath_WalkDir w root) /\
    in_range (sumZ (map entrySize (filepath_WalkDir w root))).

(** *** What deleting does to the world *)

(** After a deletion that reports no error the path is gone; a deletion
    creates nothing; and it leaves the home directory of the user alone. *)
Record RemoveAllLaws : Prop := {
  removeAll_removes : forall p w w',
    os_RemoveAll p w = (None, w') -> os_Stat w' p = false;
  removeAll_creates_nothing : forall p q w,
    os_Stat w q = false -> os_Stat (snd (os_RemoveAll p w)) q = false;
  removeAll_keeps_home : forall p w,
    os_UserHomeDir (snd (os_RemoveAll p w)) = os_UserHomeDir w
}.

(** Expanding an expanded path changes nothing: the home directory is not
    itself written with a leading [~/]. *)
Definition homeExpanded (w : World) : Prop :=
  forall p, scanner.ExpandHome w (scanner.ExpandHome w p) = scanner.ExpandHome w p.

(** The item is cleaned by deleting its path. *)
Definition pathOnly (item : CleanableItem) : Prop := Command item = "".

(** The path of the item is absent (or the item has none). *)
Definition gone (w : World) (item : CleanableItem) : Prop :=
  nonEmpty (Path item) = false \/
  os_Stat w (scanner.ExpandHome w (Path item)) = false.

End Vocabulary.

(** A machine on which PHP resolves to a path below a directory [/Cellar]
    of the root, with no [/bin] in it. *)
Definition oddCellar : Machine := {|
  files := [ ("/Cellar/php/opt/homebrew/php", 60) ];
  home := Some "/Users/dev";
  environ := [];
  binaries := [ ("php", "/Cellar/php/opt/homebrew/php") ];
  reports := [ (["php"; "--version"], "PHP 8.2.0 (cli)") ];
  protected := []
|}.

(** *** The six providers *)

Section Ecosystems.
Context `{os : OS}.

Definition providerOf (e : Ecosystem) : LanguageProvider :=
  match e with
  | Go => providers.NewGoProvider
  | Node => providers.NewNodeProvider
  | Java => providers.NewJavaProvider
  | Python => providers.NewPythonProvider
  | PHP => providers.NewPHPProvider
  | Rust => providers.NewRustProvider
  end.

End Ecosystems.

(** The executable that [DetectInstalled] looks for, and the argument with
    which it asks for the version. *)
Definition executableOf (e : Ecosystem) : string :=
  match e with
  | Go => "go"
  | Node => "node"
  | Java => "java"
  | Python => "python3"
  | PHP => "php"
  | Rust => "rustc"
  end.

Definition versionArgOf (e : Ecosystem) : string :=
  match e with
  | Go => "version"
  | Java => "-version"
  | _ => "--version"
  end.

(** [getManagerPath] of the provider of an ecosystem. *)
Definition getManagerPath (e : Ecosystem) (path : string) (source : InstallSource)
    : Outcome string :=
  match e with
  | Go => providers.GoProvider_getManagerPath path source
  | Node => providers.NodeProvider_getManagerPath path source
  | Java => providers.JavaProvider_getManagerPath path source
  | Python => providers.PythonProvider_getManagerPath path source
  | PHP => providers.PHPProvider_getManagerPath path source
  | Rust => providers.RustProvider_getManagerPath path source
  end.


(** The variables that [GetEnvVars] of each provider looks up, and how it
    reads one: the Go provider asks [go env], the others the environment. *)
Definition envNamesOf (e : Ecosystem) : list string :=
  match e with
  | Go => ["GOROOT"; "GOPATH"; "GOCACHE"; "GOMODCACHE"]
  | Node => ["NODE_PATH"; "NPM_CONFIG_PREFIX"; "NVM_DIR"]
  | Java => ["JAVA_HOME"; "M2_HOME"; "GRADLE_HOME"]
  | Python => ["PYTHONPATH"; "VIRTUAL_ENV"; "PYENV_ROOT"]
  | PHP => ["COMPOSER_HOME"; "PHP_INI_SCAN_DIR"]
  | Rust => ["CARGO_HOME"; "RUSTUP_HOME"]
  end.

Section Environment.
Context `{os : OS}.

Definition envValue (e : Ecosystem) (w : World) (name : string) : string :=
  match e with
  | Go => providers.GoProvider_getGoEnv w name
  | _ => scanner.GetEnvVar w name
  end.

(** The item is cleaned either by a command or by deleting a path, not by
    both and not by neither. *)
Definition oneWay (item : CleanableItem) : Prop :=
  xorb (nonEmpty (Path item)) (nonEmpty (Command item)) = true.

(** The location exists and the item carries its measured size. *)
Definition measured (w : World) (item : DiskUsageItem) : Prop :=
  scanner.PathExists w (ItemPath item) = true /\
  ItemSize item = fst (scanner.CalculateDirSize w (ItemPath item)).

End Environment.

Section Cleaning_vocabulary.
Context `{os : OS}.

(** The effect by which the [Clean] of a provider cleans an item: the
    command of the item run by a shell or run directly, or the deletion of
    the expanded path of the item. *)
Definition cleans (e : Ecosystem) (item : CleanableItem) (ev : Event) : Prop :=
  let shell := ev = Exec ["sh"; "-c"; Command item] in
  let deletion := exists w, ev = RemoveAll (scanner.ExpandHome w (Path item)) in
  match e with
  | Go => shell
  | Node => ev = Exec (GoStrings.Fields (Command item))
  | Java | Python | PHP => deletion
  | Rust => deletion \/ shell
  end.

(** The effect by which [cleaner.CleanItems] cleans an item. *)
Definition cleansDirectly (item : CleanableItem) (ev : Event) : Prop :=
  ev = Exec (GoStrings.Fields (Command item)) \/
  exists w, ev = RemoveAll (scanner.ExpandHome w (Path item)).

(** What [cleanProvider] has done when it calls [Clean]: unless it is
    forced, the warning about unsafe items (if there is one), the prompt
    and the reading of the answer; then the call itself. *)
Definition beforeClean (flags : cmd.Flags) (provider : LanguageProvider)
    (items : list CleanableItem) : list Event :=
  ((if cmd.force flags then []
    else (if existsb (fun item => negb (Safe item)) items
          then [Stdout OutUnsafeWarning] else [])
         ++ [Stdout (OutConfirmPrompt items (cmd.totalSizeOf items)); ReadStdin])
   ++ (if cmd.verbose flags then [Stdout (OutCleaning (Name provider))] else [])
   ++ [CallClean (Name provider) items])%list.

End Cleaning_vocabulary.

(** The developer's machine with a Maven repository that cannot be
    removed. *)
Definition lockedLaptop : Machine := {|
  files := files laptop;
  home := home laptop;
  environ := environ laptop;
  binaries := binaries laptop;
  reports := reports laptop;
  protected := ["/Users/dev/.m2/repository"]
|}.

(** The items that [JavaProvider.GetCleanableItems] lists on the
    developer's machine. *)
Definition javaItems : list CleanableItem :=
  [ {| Path := "~/.gradle/caches"; Description := "Gradle Cache"; Size := 1000;
       Command := ""; Safe := true |};
    {| Path := "~/.m2/repository"; Description := "Maven Repository"; Size := 5000;
       Command := ""; Safe := false |} ].

(** *** Words *)

(** A byte of printable ASCII that is not a blank. *)
Definition plainByte (c : ascii) : bool :=
  let n := nat_of_ascii c in ((32 <? n) && (n <? 127))%nat.

(** A text without blanks: a non-empty run of such bytes. *)
Fixpoint plain (s : string) : bool :=
  match s with
  | EmptyString => true
  | String c s' => plainByte c && plain s'
  end.

Definition isWord (s : string) : Prop := nonEmpty s = true /\ plain s = true.

(** * Properties *)

(** ** Arithmetic on [int64] *)

Lemma wrap64_in_range (z : Z) : in_range z -> wrap64 z = z.
Proof.
  unfold in_range, min_int64, max_int64, wrap64. intros Hz.
  rewrite Z.mod_small; lia.
Qed.

Lemma wrap64_add_l (a b : Z) : wrap64 (wrap64 a + b) = wrap64 (a + b).
Proof.
  unfold wrap64. f_equal.
  replace ((a + 2 ^ 63) mod 2 ^ 64 - 2 ^ 63 + b + 2 ^ 63)
    with ((a + 2 ^ 63) mod 2 ^ 64 + b) by lia.
  rewrite Zplus_mod_idemp_l. f_equal. lia.
Qed.

Lemma fold_add64_wrap {A} (size : A -> Z) (l : list A) (a : Z) :
  fold_left (fun total x => add64 total (size x)) l (wrap64 a)
  = wrap64 (a + sumZ (map size l)).
Proof.
  revert a. induction l as [|x l IH]; intros a; simpl.
  - f_equal. lia.
  - unfold add64 at 2. rewrite wrap64_add_l, IH. f_equal. lia.
Qed.

Lemma fold_add64_sum {A} (size : A -> Z) (l : list A) :
  fold_left (fun total x => add64 total (size x)) l 0
  = wrap64 (sumZ (map size l)).
Proof.
  change 0 with (wrap64 0) at 1. now rewrite fold_add64_wrap.
Qed.

(** ** The clean command *)

Section Clean_command.
Context `{os : OS}.

(** C1. In dry-run mode [cleanProvider] leaves the world as it found it and
    does nothing but print: it does not read the prompt, starts no
    subprocess, deletes nothing and never calls the provider's [Clean],
    whatever the items and their [Safe] flags are. When the provider has
    items, it prints their preview and returns. *)
Theorem cleanProvider_dry_run (provider : LanguageProvider)
    (force verbose : bool) (stdin : string) (w : World) :
  let flags := {| cmd.dryRun := true; cmd.force := force; cmd.verbose := verbose |} in
  let result := run (cmd.cleanProvider flags stdin provider) w in
  world (snd result) = w /\
  Forall isPrint (log (snd result)) /\
  forall items,
    GetCleanableItems provider w = Returned (items, None) -> items <> [] ->
    result = (Returned None,
              {| world := w; log := [Stdout (OutPreview (Name provider) items)] |}).
Proof.
  intros flags result. subst result flags.
  unfold run, cmd.cleanProvider, bind, cmd.query. simpl.
  destruct (GetCleanableItems provider w) as [[items [err|]]|msg]; simpl.
  - repeat split; [constructor | intros ? [=]].
  - destruct items as [|item items]; simpl.
    + repeat split; [repeat constructor | intros ? [= <-] H; congruence].
    + repeat split; [repeat constructor | intros ? [= <-] _; reflexivity].
  - repeat split; [constructor | intros ? [=]].
Qed.

End Clean_command.

(** ** The confirmation prompt *)

Section Confirmation.
Context `{os : OS}.

Lemma ConfirmClean_answer (items : list CleanableItem) (totalSize : Z)
    (stdin : string) (st : State) :
  exists answer : bool,
    cleaner.ConfirmClean items totalSize stdin st
    = (Returned answer,
       {| world := world st;
          log := log st ++ [Stdout (OutConfirmPrompt items totalSize); ReadStdin] |})
    /\ (answer = true <-> affirmative stdin).
Proof.
  unfold cleaner.ConfirmClean, affirmative, Println, emit, bind. simpl.
  rewrite <- app_assoc. simpl.
  destruct (cleaner.ReadString stdin) as [line [err|]].
  - exists false. split; [reflexivity|]. split; [discriminate|].
    intros (l & [=] & _).
  - eexists. split; [reflexivity|].
    rewrite orb_true_iff, !String.eqb_eq. split.
    + intros H. exists line. now split.
    + intros (l & [= <-] & H). exact H.
Qed.

Lemma lowerByte_y (c : ascii) :
  GoStrings.lowerByte c = "y"%char -> c = "y"%char \/ c = "Y"%char.
Proof.
  destruct c as [[] [] [] [] [] [] [] []]; vm_compute; intros H;
    try discriminate H; auto.
Qed.

Lemma lowerByte_e (c : ascii) :
  GoStrings.lowerByte c = "e"%char -> c = "e"%char \/ c = "E"%char.
Proof.
  destruct c as [[] [] [] [] [] [] [] []]; vm_compute; intros H;
    try discriminate H; auto.
Qed.

Lemma lowerByte_s (c : ascii) :
  GoStrings.lowerByte c = "s"%char -> c = "s"%char \/ c = "S"%char.
Proof.
  destruct c as [[] [] [] [] [] [] [] []]; vm_compute; intros H;
    try discriminate H; auto.
Qed.

(** The answers that [ToLower] turns into [y] or [yes] are their spellings
    in upper and lower case. *)
Lemma ToLower_yes (s : string) :
  GoStrings.ToLower s = "y" \/ GoStrings.ToLower s = "yes" ->
  In s ["y"; "Y"; "yes"; "yeS"; "yEs"; "yES"; "Yes"; "YeS"; "YEs"; "YES"].
Proof.
  intros [H|H].
  - destruct s as [|c1 [|c2 s]]; try discriminate H.
    injection H as H1. apply lowerByte_y in H1 as [-> | ->]; cbn; auto.
  - destruct s as [|c1 [|c2 [|c3 [|c4 s]]]]; try discriminate H.
    injection H as H1 H2 H3.
    apply lowerByte_y in H1 as [-> | ->];
      apply lowerByte_e in H2 as [-> | ->];
      apply lowerByte_s in H3 as [-> | ->]; cbn; auto 12.
Qed.

(** C2. [ConfirmClean] prints the prompt, reads standard input, changes
    nothing, and answers [true] exactly when a complete line was read that
    is [y] or [yes] after trimming and lowering. The answers [n],
    [yes please], the empty line, and a stream that ends before the end of
    the line (empty, or a [y] that is never terminated) are all declined.
    When the answer is declined and neither [--dry-run] nor [--force] is
    set, [cleanProvider] prints that it was cancelled and returns: the world
    is unchanged, no subprocess was started, nothing was deleted and
    [Clean] was not called. *)
Theorem confirmation_gate :
  (forall items totalSize stdin st,
     exists answer : bool,
       cleaner.ConfirmClean items totalSize stdin st
       = (Returned answer,
          {| world := world st;
             log := log st ++ [Stdout (OutConfirmPrompt items totalSize); ReadStdin] |})
       /\ (answer = true <-> affirmative stdin))
  /\ (affirmative (enter "y") /\ affirmative (enter "yes") /\
      affirmative (enter "  YES ") /\
      ~ affirmative (enter "n") /\ ~ affirmative (enter "yes please") /\
      ~ affirmative (enter "") /\ ~ affirmative "" /\ ~ affirmative "y")
  /\ (forall provider verbose stdin w items,
        GetCleanableItems provider w = Returned (items, None) ->
        items <> [] ->
        ~ affirmative stdin ->
        let flags := {| cmd.dryRun := false; cmd.force := false; cmd.verbose := verbose |} in
        let result := run (cmd.cleanProvider flags stdin provider) w in
        fst result = Returned None /\
        world (snd result) = w /\
        Forall (fun e => isMutation e = false) (log (snd result)) /\
        last (log (snd result)) = Some (Stdout OutCancelled)).
Proof.
  split; [|split].
  - apply ConfirmClean_answer.
  - unfold affirmative.
    repeat split;
      try (eexists; split; [vm_compute; reflexivity|]; vm_compute; auto; fail);
      intros (line & Hread & Hline); vm_compute in Hread;
      injection Hread as <-; try discriminate;
      vm_compute in Hline; destruct Hline; discriminate.
  - intros provider verbose stdin w items Hitems Hne Hno flags result.
    assert (Hrun : exists l,
               result = (Returned None,
                         {| world := w; log := l ++ [Stdout OutCancelled] |})
               /\ Forall (fun e => isMutation e = false) l).
    { subst result flags. unfold run, cmd.cleanProvider, cmd.query.
      unfold bind at 1. simpl. rewrite Hitems. simpl.
      destruct items as [|item items]; [congruence|].
      cbn [List.length Nat.eqb].
      set (warn := if existsb _ _ then _ else _).
      assert (Hwarn : exists l, warn {| world := w; log := [] |}
                                = (Returned tt, {| world := w; log := l |})
                                /\ Forall (fun e => isMutation e = false) l).
      { subst warn. destruct (existsb _ _); simpl; eexists; split;
          try reflexivity; repeat constructor. }
      destruct Hwarn as (l & Hwarn & Hl).
      unfold bind at 1. rewrite Hwarn.
      destruct (ConfirmClean_answer (item :: items)
                  (cmd.totalSizeOf (item :: items)) stdin
                  {| world := w; log := l |}) as (answer & Hconfirm & Hanswer).
      unfold bind at 1. rewrite Hconfirm.
      destruct answer; [exfalso; apply Hno, Hanswer; reflexivity|].
      simpl. eexists. split; [reflexivity|]. simpl.
      rewrite Forall_app. split; auto; repeat constructor. }
    destruct Hrun as (l & -> & Hl). simpl. repeat split.
    + rewrite Forall_app. split; auto; repeat constructor.
    + now rewrite last_snoc.
Qed.

End Confirmation.

(** ** The clean loops *)

Section Clean_loops.
Context `{os : OS}.

Lemma returnsWith_ret {A} (a : A) (P : A -> Prop) : P a -> returnsWith (ret a) P.
Proof. intros H st. now exists a, st. Qed.

Lemma returnsWith_bind {A B} (c : M A) (k : A -> M B) (P : A -> Prop) (Q : B -> Prop) :
  returnsWith c P -> (forall a, P a -> returnsWith (k a) Q) ->
  returnsWith (bind c k) Q.
Proof.
  intros Hc Hk st. destruct (Hc st) as (a & st' & Hrun & Ha).
  unfold bind. rewrite Hrun. apply Hk, Ha.
Qed.

Lemma returnsWith_ask {A} (q : World -> A) : returnsWith (ask q) (fun _ => True).
Proof. intros st. now eexists _, _. Qed.

Lemma returnsWith_perform {A} (e : Event) (op : World -> A * World) :
  returnsWith (perform e op) (fun _ => True).
Proof.
  intros st. unfold perform. destruct (op (world st)) as [a w'].
  now eexists _, _.
Qed.

Lemma returnsWith_forEach {A S} (step : S -> A -> M S) (l : list A) (s : S) :
  (forall s x, returnsWith (step s x) (fun _ => True)) ->
  returnsWith (forEach step l s) (fun _ => True).
Proof.
  intros Hstep. revert s. induction l as [|x l IH]; intros s; simpl.
  - now apply returnsWith_ret.
  - eapply returnsWith_bind; [apply Hstep|]. intros s' _. apply IH.
Qed.

Create HintDb returns.
#[local] Hint Resolve returnsWith_ret returnsWith_ask returnsWith_perform : returns.

Lemma removeExpanded_returns (path : string) :
  returnsWith (providers.removeExpanded path) (fun _ => True).
Proof.
  unfold providers.removeExpanded.
  eapply returnsWith_bind; [apply returnsWith_ask|]. intros; apply returnsWith_perform.
Qed.

Lemma runShell_returns (command : string) :
  returnsWith (providers.runShell command) (fun _ => True).
Proof.
  unfold providers.runShell.
  eapply returnsWith_bind; [apply returnsWith_perform|].
  intros; now apply returnsWith_ret.
Qed.

Lemma settle_returns (result : CleanResult) (item : CleanableItem) (err : option error) :
  returnsWith (providers.settle result item err) (fun _ => True).
Proof. destruct err; now apply returnsWith_ret. Qed.

Lemma cleanWith_returns step (items : list CleanableItem) :
  (forall result item, returnsWith (step result item) (fun _ => True)) ->
  returnsWith (providers.cleanWith step items)
    (fun r => exists result, r = (Some result, None)).
Proof.
  intros Hstep. unfold providers.cleanWith.
  eapply returnsWith_bind; [now apply returnsWith_forEach|].
  intros result _. apply returnsWith_ret. now exists result.
Qed.

Lemma RunCleanCommand_returns (cmdStr : string) :
  returnsWith (cleaner.RunCleanCommand cmdStr) (fun _ => True).
Proof.
  unfold cleaner.RunCleanCommand. destruct (_ =? _)%nat; auto with returns.
  eapply returnsWith_bind; [apply returnsWith_perform|].
  intros [output [err|]] _; auto with returns.
Qed.

Lemma CleanDirectory_returns (path : string) :
  returnsWith (cleaner.CleanDirectory path) (fun _ => True).
Proof.
  unfold cleaner.CleanDirectory.
  eapply returnsWith_bind; [apply returnsWith_ask|]. intros expandedPath _.
  eapply returnsWith_bind; [apply returnsWith_ask|]. intros [] _; simpl;
    auto with returns.
Qed.

Lemma cleanAction_returns (item : CleanableItem) :
  returnsWith (cleaner.cleanAction item) (fun _ => True).
Proof.
  unfold cleaner.cleanAction.
  destruct (nonEmpty (Command item)); [apply RunCleanCommand_returns|].
  destruct (nonEmpty (Path item)); [apply CleanDirectory_returns|].
  auto with returns.
Qed.

Lemma CleanItem_returns (dryRun : bool) (result : CleanResult) (item : CleanableItem) :
  returnsWith (cleaner.CleanItem dryRun result item) (fun _ => True).
Proof.
  unfold cleaner.CleanItem. destruct dryRun; auto with returns.
  eapply returnsWith_bind; [apply cleanAction_returns|].
  intros [e|] _; auto with returns.
Qed.

(** C3. [CleanItems] and the [Clean] of the Go, Java, Python, PHP and Rust
    providers return a result and a [nil] error for every list of items, in
    every state. [NodeProvider.Clean] does not: on an item whose command is
    not empty but holds no field (a blank), [parts[0]] is out of range and
    the call panics before anything is run or counted. *)
Theorem Clean_returns_except_NodeProvider :
  (forall items dryRun,
     returnsWith (cleaner.CleanItems items dryRun) (fun r => snd r = None))
  /\ (forall items,
        Forall (fun clean : list CleanableItem -> M (option CleanResult * option error) =>
                  returnsWith (clean items)
                    (fun r => exists result, r = (Some result, None)))
          [ providers.GoProvider_Clean; providers.JavaProvider_Clean;
            providers.PythonProvider_Clean; providers.PHPProvider_Clean;
            providers.RustProvider_Clean ])
  /\ (forall path description size safe st,
        providers.NodeProvider_Clean
          [ {| Path := path; Description := description; Size := size;
               Command := " "; Safe := safe |} ] st
        = (Panicked "index out of range", st)).
Proof.
  split; [|split].
  - intros items dryRun. unfold cleaner.CleanItems.
    eapply returnsWith_bind.
    + apply returnsWith_forEach. intros; apply CleanItem_returns.
    + intros result _. now apply returnsWith_ret.
  - intros items.
    repeat constructor; apply cleanWith_returns; intros result item.
    + unfold providers.GoProvider_CleanItem.
      apply (returnsWith_bind _ _ (fun _ => True)); [|intros; apply settle_returns].
      destruct (nonEmpty _); [apply runShell_returns | auto with returns].
    + unfold providers.JavaProvider_CleanItem.
      apply (returnsWith_bind _ _ (fun _ => True)); [|intros; apply settle_returns].
      destruct (nonEmpty _); [apply removeExpanded_returns | auto with returns].
    + unfold providers.PythonProvider_CleanItem.
      apply (returnsWith_bind _ _ (fun _ => True)); [|intros; apply settle_returns].
      destruct (nonEmpty _); [|auto with returns].
      destruct (_ <? _)%nat; [apply removeExpanded_returns | auto with returns].
    + unfold providers.PHPProvider_CleanItem.
      apply (returnsWith_bind _ _ (fun _ => True)); [|intros; apply settle_returns].
      destruct (nonEmpty _); [|auto with returns].
      destruct (nonEmpty _); [apply removeExpanded_returns | auto with returns].
    + unfold providers.RustProvider_CleanItem.
      apply (returnsWith_bind _ _ (fun _ => True)); [|intros; apply settle_returns].
      destruct (nonEmpty _); [apply removeExpanded_returns|].
      destruct (nonEmpty _); [apply runShell_returns | auto with returns].
  - intros. reflexivity.
Qed.

End Clean_loops.

(** ** Accounting of [CleanItems] *)

Section Accounting.
Context `{os : OS}.

Lemma forEach_CleanItem (items : list CleanableItem) (result : CleanResult) (st : State) :
  let a := attempts items st in
  map fst a = items /\
  exists st',
    forEach (cleaner.CleanItem false) items result st
    = (Returned
         {| ItemsCleaned := ItemsCleaned result + Z.of_nat (List.length (succeeded a));
            SpaceReclaimed :=
              fold_left (fun total item => add64 total (Size item)) (succeeded a)
                (SpaceReclaimed result);
            Errors := Errors result ++ failures a |}, st').
Proof.
  revert result st. induction items as [|item rest IH]; intros result st; simpl.
  - split; [reflexivity|]. exists st. unfold ret. destruct result; simpl.
    now rewrite Z.add_0_r, app_nil_r.
  - destruct (cleanAction_returns item st) as (err & st1 & Haction & _).
    rewrite Haction. unfold bind at 1. unfold cleaner.CleanItem at 1.
    unfold bind at 1. rewrite Haction.
    destruct err as [e|]; simpl.
    + destruct (IH (cleaner.failed result item e) st1) as (Hfst & st' & Hrun).
      split; [now rewrite Hfst|]. exists st'. refine (eq_trans Hrun _). simpl.
      now rewrite <- app_assoc.
    + destruct (IH (cleaner.cleaned result item) st1) as (Hfst & st' & Hrun).
      split; [now rewrite Hfst|]. exists st'. refine (eq_trans Hrun _). simpl.
      do 2 f_equal. f_equal. lia.
Qed.

Lemma attempt_ok (item : CleanableItem) (a : list (CleanableItem * option error)) :
  succeeded ((item, None) :: a) = item :: succeeded a /\
  failures ((item, None) :: a) = failures a.
Proof. split; reflexivity. Qed.

Lemma attempt_failed (item : CleanableItem) (e : error)
    (a : list (CleanableItem * option error)) :
  succeeded ((item, Some e) :: a) = succeeded a /\
  failures ((item, Some e) :: a)
  = ("failed to clean " ++ Description item ++ ": " ++ e) :: failures a.
Proof. split; reflexivity. Qed.

Lemma succeeded_failures_length (a : list (CleanableItem * option error)) :
  (List.length (succeeded a) + List.length (failures a) = List.length a)%nat.
Proof.
  induction a as [|[item [e|]] a IH]; [reflexivity| |].
  - destruct (attempt_failed item e a) as [-> ->]. simpl. lia.
  - destruct (attempt_ok item a) as [-> ->]. simpl. lia.
Qed.

(** C10. [CleanItems], when it is not a dry run, handles every item of the
    list once and in order ([attempts] pairs each item with what its action
    returned), and returns the result in which [ItemsCleaned] counts the
    items whose action returned no error, [Errors] holds one message for
    each of the others, so that the two add up to [len(items)], and
    [SpaceReclaimed] is the [int64] sum of the sizes of the former, which is
    their sum whenever that fits in an [int64]. An item with no command and
    no path is counted as cleaned although nothing is done: the state is
    left as it was. *)
Theorem CleanItems_accounts_for_every_item (items : list CleanableItem) (w : World) :
  let a := attempts items {| world := w; log := [] |} in
  map fst a = items /\
  (exists result st,
     run (cleaner.CleanItems items false) w = (Returned (result, None), st) /\
     ItemsCleaned result = Z.of_nat (List.length (succeeded a)) /\
     Errors result = failures a /\
     ItemsCleaned result + Z.of_nat (List.length (Errors result))
       = Z.of_nat (List.length items) /\
     SpaceReclaimed result = wrap64 (sumZ (map Size (succeeded a))) /\
     (in_range (sumZ (map Size (succeeded a))) ->
      SpaceReclaimed result = sumZ (map Size (succeeded a)))) /\
  (forall description size safe st,
     cleaner.CleanItems
       [ {| Path := ""; Description := description; Size := size;
            Command := ""; Safe := safe |} ] false st
     = (Returned ({| ItemsCleaned := 1; SpaceReclaimed := wrap64 size; Errors := [] |},
                  None), st)).
Proof.
  intros a.
  destruct (forEach_CleanItem items cleaner.emptyResult {| world := w; log := [] |})
    as (Hfst & st' & Hrun).
  fold a in Hfst, Hrun. split; [exact Hfst|]. split.
  - eexists _, st'. unfold run, cleaner.CleanItems, bind. rewrite Hrun.
    split; [reflexivity|]. simpl. rewrite fold_add64_sum.
    repeat split.
    + pose proof (succeeded_failures_length a) as Hlen.
      assert (Hitems : List.length items = List.length a)
        by (rewrite <- Hfst; apply length_map).
      rewrite Hitems. lia.
    + intros Hrange. now apply wrap64_in_range.
  - intros. unfold cleaner.CleanItems, bind. simpl. unfold cleaner.cleaned, add64.
    simpl. reflexivity.
Qed.

End Accounting.

(** ** Items that carry a command *)

Section Commands.
Context `{os : OS}.

Lemma logsOnly_ret {A} (P : Event -> Prop) (a : A) : logsOnly P (ret a).
Proof. intros st. exists []. split; [now rewrite app_nil_r | constructor]. Qed.

Lemma logsOnly_ask {A} (P : Event -> Prop) (q : World -> A) : logsOnly P (ask q).
Proof. intros st. exists []. split; [now rewrite app_nil_r | constructor]. Qed.

Lemma logsOnly_perform {A} (P : Event -> Prop) (e : Event) (op : World -> A * World) :
  P e -> logsOnly P (perform e op).
Proof.
  intros He st. exists [e]. unfold perform.
  destruct (op (world st)) as [a w']. split; [reflexivity | now repeat constructor].
Qed.

Lemma logsOnly_bind {A B} (P : Event -> Prop) (c : M A) (k : A -> M B) :
  logsOnly P c -> (forall a, logsOnly P (k a)) -> logsOnly P (bind c k).
Proof.
  intros Hc Hk st. unfold bind. destruct (Hc st) as (l1 & Hl1 & HP1).
  destruct (c st) as [[a|msg] st1]; cbn [snd] in *.
  - destruct (Hk a st1) as (l2 & Hl2 & HP2). exists (l1 ++ l2)%list.
    rewrite Hl2, Hl1, app_assoc. split; [reflexivity|]. now apply Forall_app.
  - now exists l1.
Qed.

Lemma logsOnly_forEach {A S} (P : Event -> Prop) (step : S -> A -> M S)
    (l : list A) (s : S) :
  (forall s x, logsOnly P (step s x)) -> logsOnly P (forEach step l s).
Proof.
  intros Hstep. revert s. induction l as [|x l IH]; intros s; cbn [forEach].
  - apply logsOnly_ret.
  - apply logsOnly_bind; auto.
Qed.

Create HintDb logs.
#[local] Hint Resolve logsOnly_ret logsOnly_ask logsOnly_perform logsOnly_bind
  logsOnly_forEach : logs.

Lemma removeExpanded_deletes (path : string) :
  logsOnly isDeletion (providers.removeExpanded path).
Proof.
  unfold providers.removeExpanded. apply logsOnly_bind; [apply logsOnly_ask|].
  intros expandedPath. now apply logsOnly_perform.
Qed.

Lemma settle_logs_nothing (P : Event -> Prop) (result : CleanResult)
    (item : CleanableItem) (err : option error) :
  logsOnly P (providers.settle result item err).
Proof. destruct err; apply logsOnly_ret. Qed.

(** The [Clean] of the PHP and of the Python provider performs deletions
    and nothing else, whatever the items are. *)
Lemma PHP_and_Python_only_delete (items : list CleanableItem) :
  logsOnly isDeletion (providers.PHPProvider_Clean items) /\
  logsOnly isDeletion (providers.PythonProvider_Clean items).
Proof.
  split; unfold providers.PHPProvider_Clean, providers.PythonProvider_Clean,
    providers.cleanWith;
    (apply logsOnly_bind; [|intros; apply logsOnly_ret]);
    apply logsOnly_forEach; intros result item;
    unfold providers.PHPProvider_CleanItem, providers.PythonProvider_CleanItem;
    (apply logsOnly_bind; [|intros; apply settle_logs_nothing]);
    repeat match goal with
           | |- context [if ?b then _ else _] => destruct b
           end;
    auto using removeExpanded_deletes with logs.
Qed.

End Commands.

(** C5. The [Clean] of the PHP and of the Python provider never starts a
    subprocess: whatever the items and their commands, all they perform are
    calls of [os.RemoveAll]. On the item that [PHPProvider.GetCleanableItems]
    builds (a command, no path) [PHPProvider.Clean] does nothing at all and
    counts the item as cleaned; on the item of
    [PythonProvider.GetCleanableItems], [PythonProvider.Clean] calls
    [os.RemoveAll] on the empty path. On the small machine,
    [dhell clean php --force] reports the Composer cache as cleaned and
    leaves every file in place. *)
Theorem PHP_and_Python_Clean_run_no_command :
  (forall (os : OS) items,
     logsOnly isDeletion (providers.PHPProvider_Clean items) /\
     logsOnly isDeletion (providers.PythonProvider_Clean items))
  /\ (forall (os : OS) size st,
        providers.PHPProvider_Clean
          [ {| Path := ""; Description := "Composer Cache"; Size := size;
               Command := "composer clear-cache"; Safe := true |} ] st
        = (Returned (Some {| ItemsCleaned := 1; SpaceReclaimed := wrap64 size;
                             Errors := [] |}, None), st))
  /\ (forall (os : OS) size w,
        log (snd (run (providers.PythonProvider_Clean
                         [ {| Path := ""; Description := "Pip Cache"; Size := size;
                              Command := "pip cache purge"; Safe := true |} ]) w))
        = [RemoveAll ""])
  /\ (let item := {| Path := ""; Description := "Composer Cache"; Size := 40;
                     Command := "composer clear-cache"; Safe := true |} in
      GetCleanableItems providers.NewPHPProvider laptop = Returned ([item], None) /\
      run (cmd.cleanProvider
             {| cmd.dryRun := false; cmd.force := true; cmd.verbose := false |}
             "" providers.NewPHPProvider) laptop
      = (Returned None,
         {| world := laptop;
            log := [ CallClean "PHP" [item];
                     Stdout (OutCleanResult
                               {| ItemsCleaned := 1; SpaceReclaimed := 40; Errors := [] |}
                               [item]) ] |})).
Proof.
  split; [|split; [|split]].
  - intros. apply PHP_and_Python_only_delete.
  - intros. lazy -[wrap64 add64]. reflexivity.
  - intros os size w. lazy -[wrap64 add64 os_RemoveAll].
    destruct (os_RemoveAll "" w) as [[e|] w']; reflexivity.
  - split; vm_compute; reflexivity.
Qed.

(** ** Disk usage *)

Section Disk_usage.
Context `{os : OS}.

Lemma WalkDir_addEntrySize (entries : list WalkEntry) (a : Z) :
  scanner.WalkDir scanner.addEntrySize entries (wrap64 a)
  = (wrap64 (a + sumZ (map entrySize entries)), None).
Proof.
  revert a. induction entries as [|d entries IH]; intros a.
  - cbn [scanner.WalkDir map sumZ fold_right]. now rewrite Z.add_0_r.
  - change (sumZ (map entrySize (d :: entries)))
      with (entrySize d + sumZ (map entrySize entries)).
    rewrite Z.add_assoc. rewrite <- IH. cbn [scanner.WalkDir].
    destruct d as [| |[n|]]; cbn [scanner.addEntrySize entrySize];
      rewrite ?Z.add_0_r; try reflexivity.
    unfold add64. now rewrite wrap64_add_l.
Qed.

(** [CalculateDirSize] never returns an error: the size is [0] for an
    absent path and the [int64] sum of the sizes of the files otherwise. *)
Lemma CalculateDirSize_value (w : World) (path : string) :
  scanner.CalculateDirSize w path
  = (if scanner.PathExists w (scanner.ExpandHome w path)
     then wrap64 (sumZ (map entrySize
                          (filepath_WalkDir w (scanner.ExpandHome w path))))
     else 0,
     None).
Proof.
  unfold scanner.CalculateDirSize.
  destruct (scanner.PathExists w (scanner.ExpandHome w path)); [|reflexivity].
  cbn [negb]. change 0 with (wrap64 0) at 1. now rewrite WalkDir_addEntrySize.
Qed.

Lemma sumZ_nonneg (l : list Z) : Forall (fun z => 0 <= z) l -> 0 <= sumZ l.
Proof.
  induction 1 as [|z l Hz _ IH]; [reflexivity|].
  change (sumZ (z :: l)) with (z + sumZ l). lia.
Qed.

Lemma CalculateDirSize_nonneg (w : World) (path : string) :
  sizesBounded w -> 0 <= fst (scanner.CalculateDirSize w path).
Proof.
  intros Hw. rewrite CalculateDirSize_value. cbn [fst].
  destruct (scanner.PathExists _ _); [|lia].
  destruct (Hw (scanner.ExpandHome w path)) as [Hpos Hrange].
  rewrite wrap64_in_range by exact Hrange.
  apply sumZ_nonneg. now apply Forall_map.
Qed.

Lemma measure_nonneg (w : World) (items : list DiskUsageItem) (p d : string) :
  sizesBounded w ->
  Forall (fun item => 0 <= ItemSize item) items ->
  Forall (fun item => 0 <= ItemSize item) (providers.measure w items p d).
Proof.
  intros Hw Hitems. unfold providers.measure.
  destruct (scanner.PathExists w p); [|exact Hitems].
  apply Forall_app. split; [exact Hitems|].
  repeat constructor. now apply CalculateDirSize_nonneg.
Qed.

(** A location that exists is listed whatever its size, [0] included. *)
Lemma measure_lists_every_size (w : World) (items : list DiskUsageItem) (p d : string) :
  scanner.PathExists w p = true ->
  providers.measure w items p d
  = (items ++ [ {| ItemPath := p; ItemDescription := d;
                   ItemSize := fst (scanner.CalculateDirSize w p) |} ])%list.
Proof. intros Hp. unfold providers.measure. now rewrite Hp. Qed.

(** What [GetGlobalCacheUsage] builds from the items it has measured. *)
Lemma usage_total (w : World) (items : list DiskUsageItem) :
  (sizesBounded w -> Forall (fun item => 0 <= ItemSize item) items) ->
  exists du,
    providers.usage items = Returned (Some du, None) /\
    Total du = wrap64 (sumZ (map ItemSize (Items du))) /\
    (sizesBounded w -> Forall (fun item => 0 <= ItemSize item) (Items du)).
Proof.
  intros Hitems. eexists. split; [reflexivity|]. split; [|exact Hitems].
  apply (fold_add64_sum ItemSize).
Qed.

(** When [GetGlobalCacheUsage] of the PHP provider returns, its total is
    the [int64] sum of its items as well. *)
Lemma PHPProvider_usage_total (w : World) (r : option DiskUsage * option error) :
  providers.PHPProvider_GetGlobalCacheUsage w = Returned r ->
  exists du, r = (Some du, None) /\
             Total du = wrap64 (sumZ (map ItemSize (Items du))).
Proof.
  unfold providers.PHPProvider_GetGlobalCacheUsage, Outcome_bind.
  destruct (providers.PHPProvider_installation w []) as [items|msg]; [|discriminate].
  intros [= <-]. eexists. split; [reflexivity|].
  apply (fold_add64_sum ItemSize).
Qed.

Create HintDb usage.
#[local] Hint Resolve measure_nonneg Forall_nil_2 : usage.

(** The result of [GetGlobalCacheUsage] of the five providers that cannot
    panic. *)
Lemma usage_of_five (w : World) :
  Forall (fun usage : World -> Outcome (option DiskUsage * option error) =>
            exists du,
              usage w = Returned (Some du, None) /\
              Total du = wrap64 (sumZ (map ItemSize (Items du))) /\
              (sizesBounded w -> Forall (fun item => 0 <= ItemSize item) (Items du)))
    [ providers.GoProvider_GetGlobalCacheUsage;
      providers.NodeProvider_GetGlobalCacheUsage;
      providers.JavaProvider_GetGlobalCacheUsage;
      providers.PythonProvider_GetGlobalCacheUsage;
      providers.RustProvider_GetGlobalCacheUsage ].
Proof.
  repeat first [apply Forall_nil_2 | apply Forall_cons_2]; cbv beta;
    unfold providers.GoProvider_GetGlobalCacheUsage,
      providers.NodeProvider_GetGlobalCacheUsage,
      providers.JavaProvider_GetGlobalCacheUsage,
      providers.PythonProvider_GetGlobalCacheUsage,
      providers.RustProvider_GetGlobalCacheUsage; cbv zeta;
    apply usage_total; intros Hw;
    repeat match goal with
           | |- context [if ?b then _ else _] => destruct b
           end;
    auto 10 with usage.
Qed.

End Disk_usage.

(** C6. For the Go, Node.js, Java, Python and Rust providers
    [GetGlobalCacheUsage] returns, in every world, a [DiskUsage] whose
    [Total] is the [int64] sum of the sizes of its items; the sizes are not
    negative in a world whose file sizes are bounded, and an item of size
    [0] is listed like any other. The PHP provider slices the resolved path
    of [php] at [strings.Index(realPath[idx:], "/bin") + idx] without
    testing the index for [-1]: on the machine [oddCellar], where [php]
    resolves to [/Cellar/php/opt/homebrew/php], the bound is [-1] and
    [GetGlobalCacheUsage] panics instead of returning a [DiskUsage]. *)
Theorem PHPProvider_GetGlobalCacheUsage_panics :
  (forall (os : OS) (w : World),
     Forall (fun usage : World -> Outcome (option DiskUsage * option error) =>
               exists du,
                 usage w = Returned (Some du, None) /\
                 Total du = wrap64 (sumZ (map ItemSize (Items du))) /\
                 (sizesBounded w ->
                  Forall (fun item => 0 <= ItemSize item) (Items du)))
       [ providers.GoProvider_GetGlobalCacheUsage;
         providers.NodeProvider_GetGlobalCacheUsage;
         providers.JavaProvider_GetGlobalCacheUsage;
         providers.PythonProvider_GetGlobalCacheUsage;
         providers.RustProvider_GetGlobalCacheUsage ])
  /\ scanner.FindExecutable oddCellar "php" = ("/Cellar/php/opt/homebrew/php", None)
  /\ GetGlobalCacheUsage providers.NewPHPProvider oddCellar
     = Panicked "slice bounds out of range".
Proof.
  split; [intros; apply usage_of_five|].
  split; vm_compute; reflexivity.
Qed.

(** ** Classification of the installation source *)

Lemma classify_first (rules : list Rule) (path : string)
    (before : list Rule) (rule : Rule) (after : list Rule) :
  rules = (before ++ rule :: after)%list ->
  fst rule path = true ->
  Forall (fun r => fst r path = false) before ->
  classify rules path = snd rule.
Proof.
  intros -> Hrule Hbefore.
  induction Hbefore as [|[matches source] before Hr _ IH]; simpl.
  - destruct rule as [matches source]. simpl in *. now rewrite Hrule.
  - simpl in Hr. now rewrite Hr.
Qed.

Lemma classify_none (rules : list Rule) (path : string) :
  Forall (fun r => fst r path = false) rules ->
  classify rules path = SourceUnknown.
Proof.
  induction 1 as [|[matches source] rules Hr _ IH]; simpl; [reflexivity|].
  simpl in Hr. now rewrite Hr.
Qed.

Lemma determineSource_classify `{os : OS} (e : Ecosystem) (w : World) (path : string) :
  determineSource e w path = classify (rulesOf e (os_Getenv w "JAVA_HOME")) path.
Proof.
  destruct e;
    unfold determineSource, providers.GoProvider_determineSource,
      providers.NodeProvider_determineSource, providers.JavaProvider_determineSource,
      providers.PythonProvider_determineSource, providers.PHPProvider_determineSource,
      providers.RustProvider_determineSource;
    cbv beta iota delta [rulesOf classify homebrewRule containsAny existsb];
    repeat match goal with
           | |- context [GoStrings.Contains ?s ?m] =>
               destruct (GoStrings.Contains s m)
           end;
    reflexivity.
Qed.

(** C7. For each of the six providers [determineSource] is the first-match
    classification of the path by the provider's ordered rule list, which
    depends on nothing but the path and, for Java, the value of
    [JAVA_HOME]: a rule that matches wins over every rule listed after it,
    whatever these match, and a path that no rule matches is
    [SourceUnknown]. A path that holds both the marker of a version manager
    and a Homebrew marker is a [SourceVersionManager] installation. *)
Theorem determineSource_first_match :
  (forall (os : OS) e w path,
     determineSource e w path = classify (rulesOf e (os_Getenv w "JAVA_HOME")) path)
  /\ (forall (os : OS) e w path before rule after,
        rulesOf e (os_Getenv w "JAVA_HOME") = (before ++ rule :: after)%list ->
        fst rule path = true ->
        Forall (fun r => fst r path = false) before ->
        determineSource e w path = snd rule)
  /\ (forall (os : OS) e w path,
        Forall (fun r => fst r path = false) (rulesOf e (os_Getenv w "JAVA_HOME")) ->
        determineSource e w path = SourceUnknown)
  /\ (forall (os : OS) w,
        determineSource Go w "/Users/dev/.goenv/versions/1.21.3/opt/homebrew/bin/go"
          = SourceVersionManager /\
        determineSource Node w "/opt/homebrew/opt/.nvm/versions/node/v18/bin/node"
          = SourceVersionManager /\
        determineSource Go w "/opt/homebrew/Cellar/go/1.21.3/usr/local/go/bin/go"
          = SourceHomebrew /\
        determineSource Rust w "/usr/bin/rustc" = SourceUnknown).
Proof.
  split; [|split; [|split]].
  - intros. apply determineSource_classify.
  - intros os e w path before rule after Hrules Hrule Hbefore.
    rewrite determineSource_classify. eapply classify_first; eauto.
  - intros os e w path Hnone.
    rewrite determineSource_classify. now apply classify_none.
  - intros. repeat split; vm_compute; reflexivity.
Qed.

(** ** The size of a directory *)

(** C8. When the path, after the expansion of the home directory, does not
    exist (which is what [scanner.PathExists] answers for the expanded
    path), [CalculateDirSize] returns the size [0] and no error. *)
Theorem CalculateDirSize_absent `{os : OS} (w : World) (path : string) :
  scanner.PathExists w (scanner.ExpandHome w path) = false ->
  scanner.CalculateDirSize w path = (0, None).
Proof.
  intros Habsent. unfold scanner.CalculateDirSize. now rewrite Habsent.
Qed.

(** The same for a path on which [os.Stat] fails after one expansion, when
    expanding twice is expanding once. *)
Lemma CalculateDirSize_no_stat `{os : OS} (w : World) (path : string) :
  homeExpanded w ->
  os_Stat w (scanner.ExpandHome w path) = false ->
  scanner.CalculateDirSize w path = (0, None).
Proof.
  intros Hhome Hstat. rewrite CalculateDirSize_value.
  unfold scanner.PathExists. now rewrite Hhome, Hstat.
Qed.

Lemma CalculateDirSize_absent_witness :
  scanner.PathExists laptop (scanner.ExpandHome laptop "~/.cargo/registry") = false /\
  scanner.CalculateDirSize laptop "~/.cargo/registry" = (0, None).
Proof.
  split; [reflexivity|].
  apply (CalculateDirSize_absent (os := machineOS) laptop "~/.cargo/registry").
  reflexivity.
Defined.

(** ** The scan command *)

Section Scan.
Context `{os : OS}.
Variables (flags : cmd.Flags) (w : World) (providers : list LanguageProvider).

Lemma finish_panicked (order : list nat) (msg : string) :
  fold_left (cmd.finish flags w providers) order (Panicked msg) = Panicked msg.
Proof. induction order as [|i order IH]; simpl; auto. Qed.

(** The slots after the goroutines of [order] have finished: a slot of
    [order] holds the result of its provider, every other slot is as it
    was. *)
Lemma finish_slots (order : list nat) (results : list ScanResult) (out : list string) :
  match fold_left (cmd.finish flags w providers) order (Returned (results, out)) with
  | Returned (results', _) =>
      List.length results' = List.length results /\
      (forall j p, j ∈ order -> providers !! j = Some p -> j < List.length results ->
         exists r o, cmd.scanProvider flags w p = Returned (r, o) /\
                     results' !! j = Some r)%nat /\
      (forall j, j ∉ order -> results' !! j = results !! j)
  | Panicked _ =>
      exists j p msg, j ∈ order /\ providers !! j = Some p /\
                      cmd.scanProvider flags w p = Panicked msg
  end.
Proof.
  revert results out. induction order as [|i order IH]; intros results out.
  - simpl. split; [reflexivity|]. split; [|reflexivity].
    intros j p Hj. inversion Hj.
  - cbn [fold_left]. unfold cmd.finish at 2. cbn [Outcome_bind].
    destruct (providers !! i) as [p|] eqn:Hp.
    + destruct (cmd.scanProvider flags w p) as [[r o]|msg] eqn:Hscan;
        cbn [Outcome_bind fst snd].
      * specialize (IH (<[i := r]> results) (out ++ o)%list).
        destruct (fold_left _ order _) as [[results' out']|msg]; [|].
        -- destruct IH as (Hlen & Hin & Hout). rewrite length_insert in Hlen, Hin.
           split; [exact Hlen|]. split.
           ++ intros j q Hj Hq Hlt.
              destruct (decide (j ∈ order)) as [Horder|Horder]; [now apply Hin|].
              apply elem_of_cons in Hj as [->|Hj]; [|contradiction].
              assert (q = p) as -> by congruence.
              exists r, o. split; [exact Hscan|].
              rewrite Hout by exact Horder. now apply list_lookup_insert_eq.
           ++ intros j Hj. apply not_elem_of_cons in Hj as [Hne Hj].
              rewrite Hout by exact Hj. now apply list_lookup_insert_ne.
        -- destruct IH as (j & q & m & Hj & Hq & Hm).
           exists j, q, m. split; [now apply elem_of_cons; right|]. now split.
      * rewrite finish_panicked. exists i, p, msg.
        split; [now apply elem_of_cons; left|]. now split.
    + specialize (IH results out).
      destruct (fold_left _ order _) as [[results' out']|msg]; [|].
      * destruct IH as (Hlen & Hin & Hout). split; [exact Hlen|]. split.
        -- intros j q Hj Hq Hlt.
           apply elem_of_cons in Hj as [->|Hj]; [congruence|]. now apply Hin.
        -- intros j Hj. apply not_elem_of_cons in Hj as [_ Hj]. now apply Hout.
      * destruct IH as (j & q & m & Hj & Hq & Hm).
        exists j, q, m. split; [now apply elem_of_cons; right|]. now split.
Qed.

(** C9. Whatever the order in which the goroutines of [scanProviders]
    finish, the result has one slot for each provider and the slot of a
    provider holds the result of [scanProvider] for that provider: the
    results are in the order of the providers. (When the scan of a provider
    panics, so does the program.) *)
Theorem scanProviders_preserves_order (order : list nat) :
  order ≡ₚ seq 0 (List.length providers) ->
  match cmd.scanProviders flags w providers order with
  | Returned (results, _) =>
      Forall2 (fun p r => exists out, cmd.scanProvider flags w p = Returned (r, out))
        providers results
  | Panicked _ =>
      Exists (fun p => exists msg, cmd.scanProvider flags w p = Panicked msg) providers
  end.
Proof.
  intros Horder. unfold cmd.scanProviders. cbv zeta.
  pose proof (finish_slots order
                (replicate (List.length providers) cmd.zeroScanResult) []) as H.
  destruct (fold_left _ order _) as [[results out]|msg].
  - destruct H as (Hlen & Hin & _). rewrite length_replicate in Hlen, Hin.
    apply Forall2_same_length_lookup. split; [now symmetry|].
    intros j p r Hp Hr.
    assert (Hj : (j < List.length providers)%nat) by (eapply lookup_lt_Some; eauto).
    destruct (Hin j p) as (r' & o & Hscan & Hr'); auto.
    + rewrite Horder. apply elem_of_seq. lia.
    + exists o. congruence.
  - destruct H as (j & p & m & _ & Hp & Hm).
    apply Exists_exists. exists p. split; [|now exists m].
    eapply list_elem_of_lookup_2; eauto.
Qed.

End Scan.

(** ** Cleaning twice *)

Section Clean_twice.
Context `{os : OS}.
Hypothesis laws : RemoveAllLaws.

Lemma ExpandHome_same_home (w w' : World) (p : string) :
  os_UserHomeDir w' = os_UserHomeDir w ->
  scanner.ExpandHome w' p = scanner.ExpandHome w p.
Proof. intros Hhome. unfold scanner.ExpandHome. now rewrite Hhome. Qed.

Lemma homeExpanded_same_home (w w' : World) :
  os_UserHomeDir w' = os_UserHomeDir w -> homeExpanded w -> homeExpanded w'.
Proof.
  intros Hhome Hw p. rewrite !(ExpandHome_same_home w w') by exact Hhome. apply Hw.
Qed.

(** What one action of the first run does. *)
Lemma cleanAction_path_only (item : CleanableItem) (st st' : State) (err : option error) :
  pathOnly item -> homeExpanded (world st) ->
  cleaner.cleanAction item st = (Returned err, st') ->
  os_UserHomeDir (world st') = os_UserHomeDir (world st) /\
  (forall q, os_Stat (world st) q = false -> os_Stat (world st') q = false) /\
  (err = None -> gone (world st') item).
Proof.
  intros Hcmd Hhome. unfold cleaner.cleanAction, pathOnly, gone in *.
  rewrite Hcmd. change (nonEmpty "") with false. cbv iota.
  destruct (nonEmpty (Path item)) eqn:Hpath.
  - unfold cleaner.CleanDirectory, bind, ask, scanner.PathExists. cbv beta.
    rewrite Hhome.
    destruct (os_Stat (world st) (scanner.ExpandHome (world st) (Path item))) eqn:Hstat;
      cbn [negb].
    + unfold perform.
      destruct (os_RemoveAll _ (world st)) as [e w'] eqn:Hrm.
      intros [= <- <-]. cbn [world].
      pose proof (removeAll_keeps_home laws
                    (scanner.ExpandHome (world st) (Path item)) (world st)) as Hkeep.
      rewrite Hrm in Hkeep. cbn [snd] in Hkeep.
      split; [exact Hkeep|]. split.
      * intros q Hq.
        pose proof (removeAll_creates_nothing laws
                      (scanner.ExpandHome (world st) (Path item)) q (world st) Hq) as H.
        now rewrite Hrm in H.
      * intros ->. right. rewrite (ExpandHome_same_home (world st) w') by exact Hkeep.
        eapply removeAll_removes; eauto.
    + intros [= <- <-]. split; [reflexivity|]. split; [auto|]. intros _. now right.
  - intros [= <- <-]. split; [reflexivity|]. split; [auto|]. intros _. now left.
Qed.

(** An action on an item that is gone does nothing and reports no error. *)
Lemma cleanAction_gone (item : CleanableItem) (st : State) :
  pathOnly item -> homeExpanded (world st) -> gone (world st) item ->
  cleaner.cleanAction item st = (Returned None, st).
Proof.
  intros Hcmd Hhome Hgone. unfold cleaner.cleanAction, pathOnly, gone in *.
  rewrite Hcmd. change (nonEmpty "") with false. cbv iota.
  destruct (nonEmpty (Path item)) eqn:Hpath; [|reflexivity].
  destruct Hgone as [|Hgone]; [discriminate|].
  unfold cleaner.CleanDirectory, bind, ask, scanner.PathExists. cbv beta.
  now rewrite Hhome, Hgone.
Qed.

Lemma first_run (items : list CleanableItem) (result result' : CleanResult)
    (st st' : State) :
  Forall pathOnly items -> homeExpanded (world st) ->
  forEach (cleaner.CleanItem false) items result st = (Returned result', st') ->
  List.length (Errors result') = List.length (Errors result) ->
  os_UserHomeDir (world st') = os_UserHomeDir (world st) /\
  (forall q, os_Stat (world st) q = false -> os_Stat (world st') q = false) /\
  Forall (gone (world st')) items.
Proof.
  intros Hitems. revert result st.
  induction Hitems as [|item rest Hitem _ IH]; intros result st Hhome Hrun Herrors.
  - injection Hrun as <- <-. repeat split; auto.
  - cbn [forEach] in Hrun. unfold bind at 1, cleaner.CleanItem at 1, bind at 1 in Hrun.
    destruct (cleanAction_returns item st) as (err & st1 & Haction & _).
    rewrite Haction in Hrun.
    destruct (cleanAction_path_only item st st1 err Hitem Hhome Haction)
      as (Hhome1 & Hkeep1 & Hgone1).
    assert (Hgrow : forall r,
               forEach (cleaner.CleanItem false) rest r st1 = (Returned result', st') ->
               (List.length (Errors r) <= List.length (Errors result'))%nat).
    { intros r Hr. destruct (forEach_CleanItem rest r st1) as (_ & st'' & Hr').
      rewrite Hr in Hr'. injection Hr' as -> _. cbn [Errors].
      rewrite length_app. lia. }
    destruct err as [e|]; cbv iota in Hrun; unfold ret at 1 in Hrun.
    + apply Hgrow in Hrun. cbn [cleaner.failed Errors] in Hrun.
      rewrite length_app in Hrun. cbn [List.length] in Hrun. lia.
    + destruct (IH (cleaner.cleaned result item) st1) as (Hhome' & Hkeep' & Hgone'); auto.
      * eapply homeExpanded_same_home; eauto.
      * split; [congruence|]. split; [auto|].
        constructor; [|exact Hgone'].
        destruct (Hgone1 eq_refl) as [Hnone|Hstat]; [now left|right].
        rewrite (ExpandHome_same_home (world st1) (world st')) by exact Hhome'.
        now apply Hkeep'.
Qed.

Lemma second_run (items : list CleanableItem) (result : CleanResult) (st : State) :
  Forall pathOnly items -> homeExpanded (world st) -> Forall (gone (world st)) items ->
  forEach (cleaner.CleanItem false) items result st
  = (Returned
       {| ItemsCleaned := ItemsCleaned result + Z.of_nat (List.length items);
          SpaceReclaimed :=
            fold_left (fun total item => add64 total (Size item)) items
              (SpaceReclaimed result);
          Errors := Errors result |}, st).
Proof.
  intros Hitems Hhome. revert result.
  induction Hitems as [|item rest Hitem _ IH]; intros result Hgone.
  - cbn. destruct result; cbn. now rewrite Z.add_0_r.
  - apply Forall_cons in Hgone as [Hgone Hrest].
    cbn [forEach]. unfold bind at 1, cleaner.CleanItem at 1, bind at 1.
    rewrite (cleanAction_gone item st Hitem Hhome Hgone). cbv iota. unfold ret at 1.
    rewrite (IH (cleaner.cleaned result item) Hrest).
    cbn [cleaner.cleaned ItemsCleaned SpaceReclaimed Errors fold_left List.length].
    do 2 f_equal. f_equal. lia.
Qed.

(** C4, amended. Take items that are cleaned by deleting their path, and a
    first run of [CleanItems] that reported no error. A second run on the
    same items finds every path absent: it deletes nothing, starts nothing
    and reports no error, and it counts every item again, so that it
    returns what the first run returned: [ItemsCleaned] is [len(items)] and
    [SpaceReclaimed] is the [int64] sum of the sizes of the items. *)
Theorem second_clean_counts_every_item_again (items : list CleanableItem)
    (w : World) (first : CleanResult) (st1 : State) :
  homeExpanded w ->
  Forall pathOnly items ->
  run (cleaner.CleanItems items false) w = (Returned (first, None), st1) ->
  Errors first = [] ->
  first = {| ItemsCleaned := Z.of_nat (List.length items);
             SpaceReclaimed := wrap64 (sumZ (map Size items));
             Errors := [] |} /\
  run (cleaner.CleanItems items false) (world st1)
  = (Returned (first, None), {| world := world st1; log := [] |}).
Proof.
  intros Hhome Hitems Hrun Herrors.
  unfold run, cleaner.CleanItems, bind in Hrun.
  destruct (forEach _ items _ _) as [[result|msg] st'] eqn:Hfirst; [|discriminate].
  injection Hrun as -> ->.
  destruct (first_run items cleaner.emptyResult first
              {| world := w; log := [] |} st1 Hitems Hhome Hfirst)
    as (Hhome1 & _ & Hgone); [now rewrite Herrors|].
  assert (Hsecond := second_run items cleaner.emptyResult
                       {| world := world st1; log := [] |} Hitems
                       (homeExpanded_same_home w (world st1) Hhome1 Hhome) Hgone).
  cbn [cleaner.emptyResult ItemsCleaned SpaceReclaimed Errors] in Hsecond.
  rewrite fold_add64_sum, Z.add_0_l in Hsecond.
  assert (Hsame : first = {| ItemsCleaned := Z.of_nat (List.length items);
                             SpaceReclaimed := wrap64 (sumZ (map Size items));
                             Errors := [] |}).
  { destruct (forEach_CleanItem items cleaner.emptyResult {| world := w; log := [] |})
      as (Hfst & st'' & Hrun).
    rewrite Hfirst in Hrun. injection Hrun as Hfirst' _.
    rewrite Hfirst' in Herrors. cbn [cleaner.emptyResult Errors app] in Herrors.
    assert (Hall : succeeded (attempts items {| world := w; log := [] |}) = items).
    { rewrite <- Hfst at 2. clear - Herrors.
      induction (attempts items {| world := w; log := [] |}) as [|[item [e|]] a IH];
        [reflexivity| |].
      - destruct (attempt_failed item e a) as [_ H]. rewrite H in Herrors. discriminate.
      - destruct (attempt_ok item a) as [H1 H2]. rewrite H1. rewrite H2 in Herrors.
        cbn [map fst]. f_equal. now apply IH. }
    rewrite Hfirst'. rewrite Hall, Herrors.
    cbn [cleaner.emptyResult ItemsCleaned SpaceReclaimed Errors app].
    now rewrite fold_add64_sum, Z.add_0_l. }
  split; [exact Hsame|].
  unfold run, cleaner.CleanItems, bind. rewrite Hsecond, Hsame. reflexivity.
Qed.

End Clean_twice.

(** ** The small machine *)

Lemma machine_stat_filter (p q : string) (l : list (string * Z)) :
  existsb (fun f => machine.under q (fst f)) l = false ->
  existsb (fun f => machine.under q (fst f))
    (List.filter (fun f => negb (machine.under p (fst f))) l) = false.
Proof.
  induction l as [|f l IH]; [reflexivity|]. cbn [existsb List.filter].
  intros [Hf Hl]%orb_false_elim.
  destruct (negb (machine.under p (fst f))); cbn [existsb]; [rewrite Hf|]; auto.
Qed.

Lemma machine_stat_removed (p : string) (l : list (string * Z)) :
  existsb (fun f => machine.under p (fst f))
    (List.filter (fun f => negb (machine.under p (fst f))) l) = false.
Proof.
  induction l as [|f l IH]; [reflexivity|]. cbn [List.filter].
  destruct (machine.under p (fst f)) eqn:Hf; cbn [negb existsb]; [|rewrite Hf]; auto.
Qed.

(** Deleting on the small machine obeys the laws of [os.RemoveAll]. *)
Lemma machine_RemoveAllLaws : @RemoveAllLaws machineOS.
Proof.
  split.
  - intros p w w'. cbn [os_RemoveAll os_Stat machineOS].
    unfold machine.removeAll, machine.stat, nonEmpty.
    destruct (String.eqb p ""); [reflexivity|].
    destruct (existsb (String.eqb p) (protected w)); [discriminate|].
    intros [= <-]. cbn [files negb andb]. apply machine_stat_removed.
  - intros p q w. cbn [os_RemoveAll os_Stat machineOS].
    unfold machine.removeAll, machine.stat.
    destruct (String.eqb p ""); [auto|].
    destruct (existsb (String.eqb p) (protected w)); [auto|].
    cbn [snd files]. destruct (nonEmpty q); [|reflexivity]. cbn [andb].
    apply machine_stat_filter.
  - intros p w. cbn [os_RemoveAll os_UserHomeDir machineOS].
    unfold machine.removeAll.
    destruct (String.eqb p ""); [reflexivity|].
    now destruct (existsb (String.eqb p) (protected w)).
Qed.

Lemma laptop_homeExpanded : @homeExpanded machineOS laptop.
Proof.
  intros p. unfold scanner.ExpandHome at 2 3.
  destruct (GoStrings.HasPrefix p "~/") eqn:Hp.
  - reflexivity.
  - unfold scanner.ExpandHome. now rewrite Hp.
Qed.

(** ** Instances of the conditional properties *)

Lemma confirmation_gate_witness :
  let items :=
    [ {| Path := "~/.gradle/caches"; Description := "Gradle Cache"; Size := 1000;
         Command := ""; Safe := true |};
      {| Path := "~/.m2/repository"; Description := "Maven Repository"; Size := 5000;
         Command := ""; Safe := false |} ] in
  let result :=
    run (cmd.cleanProvider
           {| cmd.dryRun := false; cmd.force := false; cmd.verbose := false |}
           (enter "n") providers.NewJavaProvider) laptop in
  GetCleanableItems providers.NewJavaProvider laptop = Returned (items, None) /\
  fst result = Returned None /\
  world (snd result) = laptop /\
  Forall (fun e => isMutation e = false) (log (snd result)) /\
  last (log (snd result)) = Some (Stdout OutCancelled).
Proof.
  intros items result. split; [reflexivity|].
  apply (proj2 (proj2 (confirmation_gate (os := machineOS)))
           providers.NewJavaProvider false (enter "n") laptop items).
  - reflexivity.
  - discriminate.
  - exact (proj1 (proj2 (proj2 (proj2
             (proj1 (proj2 (confirmation_gate (os := machineOS)))))))).
Defined.

(** Cleaning [/tmp/build-cache] twice: the second run finds the directory
    gone and still counts the item and its five bytes. *)
Lemma second_clean_is_not_zero :
  let items :=
    [ {| Path := "/tmp/build-cache"; Description := "Build Cache"; Size := 5;
         Command := ""; Safe := true |} ] in
  exists first second st1 st2,
    run (os := machineOS) (cleaner.CleanItems items false) laptop = (Returned (first, None), st1) /\
    os_Stat (OS := machineOS) (world st1) "/tmp/build-cache" = false /\
    run (os := machineOS) (cleaner.CleanItems items false) (world st1) = (Returned (second, None), st2) /\
    ItemsCleaned second = 1 /\ SpaceReclaimed second = 5 /\
    ~ (ItemsCleaned second = 0 /\ SpaceReclaimed second = 0).
Proof.
  intros items.
  set (r1 := run (os := machineOS) (cleaner.CleanItems items false) laptop).
  set (r2 := run (os := machineOS) (cleaner.CleanItems items false) (world (snd r1))).
  exists {| ItemsCleaned := 1; SpaceReclaimed := 5; Errors := [] |},
         {| ItemsCleaned := 1; SpaceReclaimed := 5; Errors := [] |},
         (snd r1), (snd r2).
  repeat split; try (vm_compute; reflexivity).
  intros [H _]. discriminate H.
Qed.

Lemma second_clean_counts_every_item_again_witness :
  let items :=
    [ {| Path := "~/.gradle/caches"; Description := "Gradle Cache"; Size := 1000;
         Command := ""; Safe := true |};
      {| Path := "~/.m2/repository"; Description := "Maven Repository"; Size := 5000;
         Command := ""; Safe := false |} ] in
  let first := {| ItemsCleaned := 2; SpaceReclaimed := 6000; Errors := [] |} in
  let st1 := snd (run (os := machineOS) (cleaner.CleanItems items false) laptop) in
  run (os := machineOS) (cleaner.CleanItems items false) laptop = (Returned (first, None), st1) /\
  os_Stat (OS := machineOS) (world st1) "/Users/dev/.gradle/caches" = false /\
  run (os := machineOS) (cleaner.CleanItems items false) (world st1)
  = (Returned (first, None), {| world := world st1; log := [] |}).
Proof.
  intros items first st1.
  split; [vm_compute; reflexivity|]. split; [vm_compute; reflexivity|].
  refine (proj2 (second_clean_counts_every_item_again (os := machineOS)
                   machine_RemoveAllLaws items laptop first st1
                   laptop_homeExpanded _ _ _)).
  - repeat constructor.
  - vm_compute; reflexivity.
  - reflexivity.
Defined.

(** Java, PHP and Node.js on the small machine, where the scan of PHP
    finishes first: the results are those of Java, PHP and Node.js, in this
    order, and the missing [node] is an error in its own slot. *)
Lemma scanProviders_on_laptop :
  let providers :=
    [ providers.NewJavaProvider; providers.NewPHPProvider; providers.NewNodeProvider ] in
  let flags := {| cmd.dryRun := false; cmd.force := false; cmd.verbose := false |} in
  match cmd.scanProviders flags laptop providers [1; 0; 2]%nat with
  | Returned (results, _) =>
      map (fun r => (Name <$> Provider r, Version <$> ScanInstallation r,
                     Total <$> ScanDiskUsage r, ScanError r)) results
      = [ (Some "Java", Some "17.0.9", Some 6090, None);
          (Some "PHP", Some "8.2.0", Some 100, None);
          (Some "Node.js", None, None, Some "node not found in PATH") ]
  | Panicked _ => False
  end.
Proof. vm_compute. reflexivity. Qed.

Lemma scanProviders_preserves_order_witness :
  let providers :=
    [ providers.NewJavaProvider; providers.NewPHPProvider; providers.NewNodeProvider ] in
  let flags := {| cmd.dryRun := false; cmd.force := false; cmd.verbose := false |} in
  match cmd.scanProviders flags laptop providers [1; 0; 2]%nat with
  | Returned (results, _) =>
      Forall2 (fun p r => exists out, cmd.scanProvider flags laptop p = Returned (r, out))
        providers results
  | Panicked _ =>
      Exists (fun p => exists msg, cmd.scanProvider flags laptop p = Panicked msg)
        providers
  end.
Proof.
  intros providers flags.
  apply (scanProviders_preserves_order (os := machineOS) flags laptop providers
           [1; 0; 2]%nat).
  apply perm_swap.
Defined.

(** * Properties of the providers and of the commands *)

(** ** Strings *)

Lemma app_cons (c : ascii) (a b : string) : String c a ++ b = String c (a ++ b).
Proof. reflexivity. Qed.

Lemma length_append (a b : string) :
  String.length (a ++ b) = (String.length a + String.length b)%nat.
Proof.
  induction a as [|c a IH]; [reflexivity|].
  rewrite app_cons. simpl. now rewrite IH.
Qed.

Lemma app_assoc_string (a b c : string) : (a ++ b) ++ c = a ++ b ++ c.
Proof.
  induction a as [|x a IH]; [reflexivity|]. now rewrite !app_cons, IH.
Qed.

Lemma substring_0_app (a b : string) :
  String.substring 0 (String.length a) (a ++ b) = a.
Proof.
  induction a as [|c a IH].
  - now destruct b.
  - rewrite app_cons. simpl. now rewrite IH.
Qed.

Lemma dropn_app (a b : string) : GoStrings.dropn (String.length a) (a ++ b) = b.
Proof. induction a as [|c a IH]; [reflexivity | exact IH]. Qed.

Lemma length_dropn (n : nat) (s : string) :
  String.length (GoStrings.dropn n s) = (String.length s - n)%nat.
Proof.
  revert s. induction n as [|n IH]; intros s; simpl; [lia|].
  destruct s as [|c s]; simpl; [reflexivity | apply IH].
Qed.

Lemma prefix_split (p s : string) :
  String.prefix p s = true -> s = p ++ GoStrings.dropn (String.length p) s.
Proof.
  revert s. induction p as [|c p IH]; intros s; [reflexivity|].
  destruct s as [|d s]; simpl; [discriminate|].
  destruct (ascii_dec c d) as [->|]; [|discriminate].
  intros H. rewrite app_cons. f_equal. now apply IH.
Qed.

Lemma prefix_app (p b : string) : String.prefix p (p ++ b) = true.
Proof.
  induction p as [|c p IH]; [now destruct b|].
  rewrite app_cons. simpl. destruct (ascii_dec c c); [exact IH | congruence].
Qed.

Lemma Index_eq (s sub : string) :
  GoStrings.Index s sub
  = if GoStrings.HasPrefix s sub then 0
    else match s with
         | EmptyString => -1
         | String _ s' =>
             let i := GoStrings.Index s' sub in
             if i <? 0 then -1 else i + 1
         end.
Proof. now destruct s. Qed.

Lemma Index_cases (s sub : string) :
  GoStrings.Index s sub = -1 \/ 0 <= GoStrings.Index s sub.
Proof.
  induction s as [|c s IH]; rewrite Index_eq;
    destruct (GoStrings.HasPrefix _ sub); auto; try lia.
  cbv zeta. destruct (Z.ltb_spec (GoStrings.Index s sub) 0); auto. right; lia.
Qed.

(** Where [Index] finds [sub], [sub] stands. *)
Lemma Index_found (s sub : string) :
  0 <= GoStrings.Index s sub ->
  exists before after,
    s = before ++ sub ++ after /\
    Z.of_nat (String.length before) = GoStrings.Index s sub.
Proof.
  induction s as [|c s IH]; rewrite Index_eq;
    destruct (GoStrings.HasPrefix _ sub) eqn:Hpre; intros Hi.
  - exists "", (GoStrings.dropn (String.length sub) ""). split; [|reflexivity].
    now apply prefix_split.
  - lia.
  - exists "", (GoStrings.dropn (String.length sub) (String c s)).
    split; [|reflexivity]. now apply prefix_split.
  - cbv zeta in *. destruct (Z.ltb_spec (GoStrings.Index s sub) 0); [lia|].
    destruct IH as (before & after & Hs & Hlen); [lia|].
    exists (String c before), after. split.
    + rewrite app_cons. now f_equal.
    + simpl String.length. lia.
Qed.

(** [Contains], read as a position. *)
Lemma Contains_Index (s sub : string) :
  GoStrings.Contains s sub = true <-> 0 <= GoStrings.Index s sub.
Proof. unfold GoStrings.Contains. apply Z.leb_le. Qed.

Lemma Contains_empty (s : string) : GoStrings.Contains s "" = true.
Proof.
  unfold GoStrings.Contains. rewrite Index_eq.
  unfold GoStrings.HasPrefix. now destruct s.
Qed.

(** ** The directory of the version manager *)

(** With the length of the marker as offset, [upTo] cuts the path right
    after the first occurrence of the marker. *)
Lemma upTo_found (path marker : string) :
  GoStrings.Contains path marker = true ->
  exists before after,
    path = before ++ marker ++ after /\
    providers.upTo path marker (Z.of_nat (String.length marker))
    = Returned (before ++ marker).
Proof.
  intros Hc. apply Contains_Index in Hc.
  destruct (Index_found _ _ Hc) as (before & after & Hpath & Hlen).
  exists before, after. split; [exact Hpath|].
  unfold providers.upTo. cbv zeta.
  destruct (Z.eqb_spec (GoStrings.Index path marker) (-1)) as [E|_]; [lia|].
  cbn [negb]. unfold slice_to. rewrite <- Hlen.
  assert (Hl : String.length path
               = (String.length before + String.length marker
                  + String.length after)%nat).
  { rewrite Hpath at 1. rewrite !length_append. lia. }
  destruct (Z.leb_spec 0 (Z.of_nat (String.length before)
                          + Z.of_nat (String.length marker))); [|lia].
  destruct (Z.leb_spec (Z.of_nat (String.length before)
                        + Z.of_nat (String.length marker))
                       (Z.of_nat (String.length path))); [|lia].
  cbn [andb]. f_equal.
  rewrite <- Nat2Z.inj_add, Nat2Z.id, <- length_append.
  rewrite Hpath at 1. rewrite <- app_assoc_string. apply substring_0_app.
Qed.

Lemma nonEmpty_app_r (a b : string) : nonEmpty b = true -> a ++ b <> "".
Proof.
  intros Hb H. destruct a; [|discriminate H].
  change (b = "") in H. subst b. discriminate Hb.
Qed.


(** ** Detection *)

Lemma index_lt {A} (l : list A) (i : nat) :
  (i < List.length l)%nat -> exists x, index l i = Returned x.
Proof.
  intros Hi. unfold index.
  destruct (List.nth_error l i) as [x|] eqn:E; [now exists x|].
  apply List.nth_error_None in E. lia.
Qed.

(** The slices of [JavaProvider.parseVersion] are inside the first line. *)
Lemma JavaProvider_parseVersion_returns (output : string) :
  exists version, providers.JavaProvider_parseVersion output = Returned version.
Proof.
  unfold providers.JavaProvider_parseVersion. cbv zeta.
  set (firstLine := GoStrings.SplitFirst output cleaner.newline).
  destruct (Z.eqb_spec (GoStrings.Index firstLine providers.quote) (-1)) as [|Hs];
    cbn [negb]; [now eexists|].
  destruct (Index_cases firstLine providers.quote) as [|Hs0]; [contradiction|].
  destruct (Index_found _ _ Hs0) as (before & after & Hline & Hlen).
  assert (Hl : String.length firstLine
               = (String.length before + 1 + String.length after)%nat).
  { rewrite Hline at 1. rewrite !length_append.
    change (String.length providers.quote) with 1%nat. lia. }
  unfold slice_from.
  destruct (Z.leb_spec 0 (GoStrings.Index firstLine providers.quote + 1)); [|lia].
  destruct (Z.leb_spec (GoStrings.Index firstLine providers.quote + 1)
                       (Z.of_nat (String.length firstLine))); [|lia].
  cbn [andb Outcome_bind].
  set (rest := GoStrings.dropn _ firstLine).
  destruct (Z.eqb_spec (GoStrings.Index rest providers.quote) (-1)) as [|He];
    cbn [negb]; [now eexists|].
  destruct (Index_cases rest providers.quote) as [|He0]; [contradiction|].
  destruct (Index_found _ _ He0) as (before' & after' & Hrest & Hlen').
  assert (Hl' : String.length rest
                = (String.length before' + 1 + String.length after')%nat).
  { rewrite Hrest at 1. rewrite !length_append.
    change (String.length providers.quote) with 1%nat. lia. }
  assert (Hd : String.length rest
               = (String.length firstLine
                  - Z.to_nat (GoStrings.Index firstLine providers.quote + 1))%nat).
  { apply length_dropn. }
  unfold slice.
  destruct (Z.leb_spec 0 (GoStrings.Index firstLine providers.quote + 1)); [|lia].
  destruct (Z.leb_spec (GoStrings.Index firstLine providers.quote + 1)
              (GoStrings.Index firstLine providers.quote + 1
               + GoStrings.Index rest providers.quote)); [|lia].
  destruct (Z.leb_spec (GoStrings.Index firstLine providers.quote + 1
                        + GoStrings.Index rest providers.quote)
              (Z.of_nat (String.length firstLine))); [|lia].
  now eexists.
Qed.

Lemma PHPProvider_parseVersion_returns (output : string) :
  exists version, providers.PHPProvider_parseVersion output = Returned version.
Proof.
  unfold providers.PHPProvider_parseVersion. cbv zeta.
  destruct (GoStrings.HasPrefix _ _); [|now eexists].
  destruct (Nat.leb_spec 2 (List.length
              (GoStrings.Fields (GoStrings.SplitFirst output cleaner.newline))));
    [|now eexists].
  apply index_lt. lia.
Qed.

Lemma RustProvider_parseVersion_returns (output : string) :
  exists version, providers.RustProvider_parseVersion output = Returned version.
Proof.
  unfold providers.RustProvider_parseVersion. cbv zeta.
  destruct (Nat.leb_spec 2 (List.length (GoStrings.Fields output)));
    cbn [andb]; [|now eexists].
  destruct (String.eqb _ _); [|now eexists].
  apply index_lt. lia.
Qed.

(** [getManagerPath] returns, and gives a directory to version-manager
    installations only. *)
Lemma getManagerPath_returns (e : Ecosystem) (path : string) (source : InstallSource) :
  exists managerPath,
    getManagerPath e path source = Returned managerPath /\
    (managerPath <> "" -> source = SourceVersionManager).
Proof.
  destruct e; unfold getManagerPath,
    providers.GoProvider_getManagerPath, providers.NodeProvider_getManagerPath,
    providers.JavaProvider_getManagerPath, providers.PythonProvider_getManagerPath,
    providers.PHPProvider_getManagerPath, providers.RustProvider_getManagerPath;
    destruct source; cbn [providers.isVersionManager andb];
    try (now exists "");
    repeat match goal with
           | |- context [GoStrings.Contains path ?m] =>
               let E := fresh "E" in
               destruct (GoStrings.Contains path m) eqn:E
           end;
    try (now exists "");
    match goal with
    | E : GoStrings.Contains path ?m = true |- context [providers.upTo path ?m ?n] =>
        change n with (Z.of_nat (String.length m));
        destruct (upTo_found _ _ E) as (before & after & _ & ->);
        now eexists
    end.
Qed.

(** [getManagerName] names [goenv] for every version-manager installation
    of Go: its own test of the path repeats the one of [determineSource]. *)
Lemma GoProvider_getManagerName_goenv (path : string) :
  providers.GoProvider_getManagerName path (providers.GoProvider_determineSource path)
  = if providers.isVersionManager (providers.GoProvider_determineSource path)
    then "goenv" else "".
Proof.
  unfold providers.GoProvider_getManagerName, providers.GoProvider_determineSource.
  destruct (GoStrings.Contains path ".goenv"); [reflexivity|].
  destruct (_ || _)%bool; [reflexivity|].
  now destruct (GoStrings.Contains path "/usr/local/go").
Qed.

Section Detection.
Context `{os : OS}.

(** What [DetectInstalled] of a provider comes to, by what the search path
    and the version sub-command give. *)
Lemma DetectInstalled_cases (e : Ecosystem) (w : World) :
  let found := exec_LookPath w (executableOf e) in
  let version := exec_CombinedOutput w [executableOf e; versionArgOf e] in
  exists installations err,
    DetectInstalled (providerOf e) w = Returned (installations, err) /\
    match snd found, snd version with
    | Some _, _ =>
        installations = [] /\ err = Some (executableOf e ++ " not found in PATH")
    | None, Some _ => installations = [] /\ err <> None
    | None, None =>
        err = None /\
        exists i,
          installations = [i] /\
          BinaryPath i = fst found /\
          Source i = determineSource e w (providers.resolveOr w (fst found)) /\
          (ManagerPath i <> "" -> Source i = SourceVersionManager) /\
          ManagerName i
          = match e with
            | Go => if providers.isVersionManager (Source i) then "goenv" else ""
            | _ => ""
            end
    end.
Proof.
  cbv zeta.
  destruct e; cbn [providerOf DetectInstalled executableOf versionArgOf
                   providers.NewGoProvider providers.NewNodeProvider
                   providers.NewJavaProvider providers.NewPythonProvider
                   providers.NewPHPProvider providers.NewRustProvider
                   determineSource];
    unfold providers.GoProvider_DetectInstalled, providers.NodeProvider_DetectInstalled,
      providers.JavaProvider_DetectInstalled, providers.PythonProvider_DetectInstalled,
      providers.PHPProvider_DetectInstalled, providers.RustProvider_DetectInstalled,
      scanner.FindExecutable, scanner.GetExecutableVersion;
    match goal with
    | |- context [exec_LookPath w ?x] =>
        destruct (exec_LookPath w x) as [binary [e1|]]
    end; cbn [fst snd];
    try (eexists _, _; split; [reflexivity|]; now split);
    match goal with
    | |- context [exec_CombinedOutput w ?x] =>
        destruct (exec_CombinedOutput w x) as [out [e2|]]
    end; cbn [fst snd];
    try (eexists _, _; split; [reflexivity|]; now split);
    cbv zeta.
  - (* Go *)
    destruct (getManagerPath_returns Go (providers.resolveOr w binary)
                (providers.GoProvider_determineSource (providers.resolveOr w binary)))
      as (m & Hm & Hvm).
    cbn [getManagerPath] in Hm. rewrite Hm.
    destruct (Nat.leb_spec 3 (List.length (GoStrings.Fields (GoStrings.TrimSpace out))))
      as [Hlen|Hlen].
    + destruct (index_lt (GoStrings.Fields (GoStrings.TrimSpace out)) 2) as [p ->];
        [lia|].
      cbn [Outcome_bind]. eexists _, _. split; [reflexivity|].
      split; [reflexivity|]. eexists. split; [reflexivity|].
      cbn [BinaryPath Source ManagerPath ManagerName].
      repeat split; [exact Hvm | apply GoProvider_getManagerName_goenv].
    + cbn [Outcome_bind]. eexists _, _. split; [reflexivity|].
      split; [reflexivity|]. eexists. split; [reflexivity|].
      cbn [BinaryPath Source ManagerPath ManagerName].
      repeat split; [exact Hvm | apply GoProvider_getManagerName_goenv].
  - (* Node.js *)
    destruct (getManagerPath_returns Node (providers.resolveOr w binary)
                (providers.NodeProvider_determineSource (providers.resolveOr w binary)))
      as (m & Hm & Hvm).
    cbn [getManagerPath] in Hm. rewrite Hm.
    cbn [Outcome_bind]. eexists _, _. split; [reflexivity|].
    split; [reflexivity|]. eexists. split; [reflexivity|]. now cbn.
  - (* Java *)
    destruct (getManagerPath_returns Java (providers.resolveOr w binary)
                (providers.JavaProvider_determineSource w (providers.resolveOr w binary)))
      as (m & Hm & Hvm).
    cbn [getManagerPath] in Hm. rewrite Hm.
    destruct (JavaProvider_parseVersion_returns (GoStrings.TrimSpace out)) as [v ->].
    cbn [Outcome_bind]. eexists _, _. split; [reflexivity|].
    split; [reflexivity|]. eexists. split; [reflexivity|]. now cbn.
  - (* Python *)
    destruct (getManagerPath_returns Python (providers.resolveOr w binary)
                (providers.PythonProvider_determineSource (providers.resolveOr w binary)))
      as (m & Hm & Hvm).
    cbn [getManagerPath] in Hm. rewrite Hm.
    cbn [Outcome_bind]. eexists _, _. split; [reflexivity|].
    split; [reflexivity|]. eexists. split; [reflexivity|]. now cbn.
  - (* PHP *)
    destruct (getManagerPath_returns PHP (providers.resolveOr w binary)
                (providers.PHPProvider_determineSource (providers.resolveOr w binary)))
      as (m & Hm & Hvm).
    cbn [getManagerPath] in Hm. rewrite Hm.
    destruct (PHPProvider_parseVersion_returns (GoStrings.TrimSpace out)) as [v ->].
    cbn [Outcome_bind]. eexists _, _. split; [reflexivity|].
    split; [reflexivity|]. eexists. split; [reflexivity|]. now cbn.
  - (* Rust *)
    destruct (getManagerPath_returns Rust (providers.resolveOr w binary)
                (providers.RustProvider_determineSource (providers.resolveOr w binary)))
      as (m & Hm & Hvm).
    cbn [getManagerPath] in Hm. rewrite Hm.
    destruct (RustProvider_parseVersion_returns (GoStrings.TrimSpace out)) as [v ->].
    cbn [Outcome_bind]. eexists _, _. split; [reflexivity|].
    split; [reflexivity|]. eexists. split; [reflexivity|]. now cbn.
Qed.


(** X2. [DetectInstalled] of every provider returns, in every world. When
    the executable is not on the search path it reports that and no
    installation; when the version cannot be asked for it reports an error
    and no installation; otherwise it reports exactly one installation:
    its binary path is the path found on the search path (not the resolved
    one), its source is [determineSource] of the resolved path, it has a
    manager path only if the source is a version manager, and the manager
    it names is [goenv] for a version-manager installation of Go and none
    otherwise. *)
Theorem DetectInstalled_reports_one_installation (e : Ecosystem) (w : World) :
  let found := exec_LookPath w (executableOf e) in
  let version := exec_CombinedOutput w [executableOf e; versionArgOf e] in
  exists installations err,
    DetectInstalled (providerOf e) w = Returned (installations, err) /\
    match snd found, snd version with
    | Some _, _ =>
        installations = [] /\ err = Some (executableOf e ++ " not found in PATH")
    | None, Some _ => installations = [] /\ err <> None
    | None, None =>
        err = None /\
        exists i,
          installations = [i] /\
          BinaryPath i = fst found /\
          Source i = determineSource e w (providers.resolveOr w (fst found)) /\
          (ManagerPath i <> "" -> Source i = SourceVersionManager) /\
          ManagerName i
          = match e with
            | Go => if providers.isVersionManager (Source i) then "goenv" else ""
            | _ => ""
            end
    end.
Proof. exact (DetectInstalled_cases e w). Qed.

End Detection.

(** ** The version of Java *)

Lemma substring_0_app_more (a b : string) (n : nat) :
  String.substring 0 (String.length a + n) (a ++ b) = a ++ String.substring 0 n b.
Proof.
  induction a as [|c a IH]; [reflexivity|].
  rewrite !app_cons. simpl. now rewrite IH.
Qed.

Lemma substring_skip_app (a b : string) (n : nat) :
  String.substring (String.length a) n (a ++ b) = String.substring 0 n b.
Proof. induction a as [|c a IH]; [reflexivity|]. rewrite app_cons. exact IH. Qed.

Lemma Contains_false (s sub : string) :
  GoStrings.Contains s sub = false <-> GoStrings.Index s sub = -1.
Proof.
  unfold GoStrings.Contains. rewrite Z.leb_gt.
  destruct (Index_cases s sub); lia.
Qed.

(** The position of a byte in a text that begins with a part without it. *)
Lemma Index_byte_app (c : ascii) (a b : string) :
  GoStrings.Index a (String c "") = -1 ->
  GoStrings.Index (a ++ b) (String c "")
  = if GoStrings.Index b (String c "") <? 0 then -1
    else Z.of_nat (String.length a) + GoStrings.Index b (String c "").
Proof.
  induction a as [|x a IH]; intros Ha.
  - change ("" ++ b) with b. cbn [String.length Z.of_nat].
    destruct (Z.ltb_spec (GoStrings.Index b (String c "")) 0); [|lia].
    destruct (Index_cases b (String c "")); lia.
  - rewrite app_cons. rewrite Index_eq in Ha. rewrite (Index_eq (String x (a ++ b))).
    unfold GoStrings.HasPrefix in *. cbn [String.prefix] in *.
    destruct (ascii_dec c x) as [|Hcx].
    + now destruct a.
    + cbv zeta in *.
      destruct (Z.ltb_spec (GoStrings.Index a (String c "")) 0) as [Hlt|]; [|lia].
      rewrite IH by (destruct (Index_cases a (String c "")); lia).
      destruct (Z.ltb_spec (GoStrings.Index b (String c "")) 0); [reflexivity|].
      destruct (Z.ltb_spec (Z.of_nat (String.length a)
                            + GoStrings.Index b (String c "")) 0); [lia|].
      cbn [String.length]. lia.
Qed.

Lemma Index_byte_head (c : ascii) (b : string) :
  GoStrings.Index (String c "" ++ b) (String c "") = 0.
Proof.
  rewrite app_cons, Index_eq. unfold GoStrings.HasPrefix. cbn [String.prefix].
  destruct (ascii_dec c c); [now destruct b | congruence].
Qed.

(** The first line of a text that begins with a part without a newline. *)
Lemma SplitFirst_app (a b : string) :
  GoStrings.Index a cleaner.newline = -1 ->
  GoStrings.SplitFirst (a ++ b) cleaner.newline
  = a ++ GoStrings.SplitFirst b cleaner.newline.
Proof.
  intros Ha. unfold GoStrings.SplitFirst. cbv zeta.
  unfold cleaner.newline in *. rewrite (Index_byte_app _ a b Ha).
  destruct (Z.ltb_spec (GoStrings.Index b (String (ascii_of_nat 10) "")) 0) as [|Hb].
  - reflexivity.
  - destruct (Z.ltb_spec (Z.of_nat (String.length a)
                          + GoStrings.Index b (String (ascii_of_nat 10) "")) 0); [lia|].
    rewrite Z2Nat.inj_add, Nat2Z.id by lia. apply substring_0_app_more.
Qed.

(** X3. [JavaProvider.parseVersion] reads back the version that
    [java -version] prints between the first pair of double quotes of its
    first line: for every text before the quotes and every version without
    a quote or a newline in them, and whatever follows. *)
Theorem JavaProvider_parseVersion_reads_the_quoted_version
    (before version rest : string) :
  GoStrings.Contains before providers.quote = false ->
  GoStrings.Contains before cleaner.newline = false ->
  GoStrings.Contains version providers.quote = false ->
  GoStrings.Contains version cleaner.newline = false ->
  providers.JavaProvider_parseVersion
    (before ++ providers.quote ++ version ++ providers.quote ++ rest)
  = Returned version.
Proof.
  intros Hbq%Contains_false Hbn%Contains_false Hvq%Contains_false Hvn%Contains_false.
  unfold providers.JavaProvider_parseVersion. cbv zeta.
  assert (Hline : GoStrings.SplitFirst
                    (before ++ providers.quote ++ version ++ providers.quote ++ rest)
                    cleaner.newline
                  = before ++ providers.quote ++ version ++ providers.quote
                    ++ GoStrings.SplitFirst rest cleaner.newline).
  { rewrite (SplitFirst_app before) by exact Hbn. f_equal.
    rewrite (SplitFirst_app providers.quote) by reflexivity. f_equal.
    rewrite (SplitFirst_app version) by exact Hvn. f_equal.
    now rewrite (SplitFirst_app providers.quote) by reflexivity. }
  rewrite Hline. clear Hline.
  set (tail := GoStrings.SplitFirst rest cleaner.newline).
  set (rest' := version ++ providers.quote ++ tail).
  assert (Hstart : GoStrings.Index (before ++ providers.quote ++ rest') providers.quote
                   = Z.of_nat (String.length before)).
  { unfold providers.quote in *. rewrite (Index_byte_app _ before _ Hbq).
    rewrite Index_byte_head. cbn [Z.ltb Z.compare]. lia. }
  assert (Hend : GoStrings.Index rest' providers.quote
                 = Z.of_nat (String.length version)).
  { unfold rest', providers.quote in *. rewrite (Index_byte_app _ version _ Hvq).
    rewrite Index_byte_head. cbn [Z.ltb Z.compare]. lia. }
  assert (Hskip : Z.to_nat (Z.of_nat (String.length before) + 1)
                  = String.length (before ++ providers.quote)).
  { rewrite length_append. change (String.length providers.quote) with 1%nat. lia. }
  assert (Hdrop : GoStrings.dropn (Z.to_nat (Z.of_nat (String.length before) + 1))
                    (before ++ providers.quote ++ rest') = rest').
  { rewrite Hskip, <- app_assoc_string. apply dropn_app. }
  assert (Hsub : String.substring (Z.to_nat (Z.of_nat (String.length before) + 1))
                   (String.length version) (before ++ providers.quote ++ rest')
                 = version).
  { rewrite Hskip, <- app_assoc_string, substring_skip_app.
    apply substring_0_app. }
  assert (Hlen : String.length (before ++ providers.quote ++ rest')
                 = (String.length before + 1
                    + (String.length version + 1 + String.length tail))%nat).
  { unfold rest'. rewrite !length_append.
    change (String.length providers.quote) with 1%nat. lia. }
  generalize dependent (before ++ providers.quote ++ rest').
  intros line Hstart Hdrop Hsub Hlen.
  rewrite Hstart.
  destruct (Z.eqb_spec (Z.of_nat (String.length before)) (-1)); [lia|]. cbn [negb].
  unfold slice_from.
  destruct (Z.leb_spec 0 (Z.of_nat (String.length before) + 1)); [|lia].
  destruct (Z.leb_spec (Z.of_nat (String.length before) + 1)
              (Z.of_nat (String.length line))); [|lia].
  cbn [andb Outcome_bind]. rewrite Hdrop, Hend.
  destruct (Z.eqb_spec (Z.of_nat (String.length version)) (-1)); [lia|]. cbn [negb].
  unfold slice.
  destruct (Z.leb_spec 0 (Z.of_nat (String.length before) + 1)); [|lia].
  destruct (Z.leb_spec (Z.of_nat (String.length before) + 1)
              (Z.of_nat (String.length before) + 1
               + Z.of_nat (String.length version))); [|lia].
  destruct (Z.leb_spec (Z.of_nat (String.length before) + 1
                        + Z.of_nat (String.length version))
              (Z.of_nat (String.length line))); [|lia].
  cbn [andb]. f_equal.
  replace (Z.to_nat (Z.of_nat (String.length before) + 1
                     + Z.of_nat (String.length version)
                     - (Z.of_nat (String.length before) + 1)))
    with (String.length version) by lia.
  exact Hsub.
Qed.

(** ** Environment variables *)

Lemma envVars_lookup_from (get : string -> string) (names : list string)
    (vars : gmap string string) (name : string) :
  fold_left
    (fun vars name =>
       let value := get name in
       if nonEmpty value then <[name := value]> vars else vars)
    names vars !! name
  = if (existsb (String.eqb name) names && nonEmpty (get name))%bool
    then Some (get name) else vars !! name.
Proof.
  revert vars. induction names as [|n names IH]; intros vars; [reflexivity|].
  cbn [fold_left existsb]. rewrite IH. cbv zeta.
  destruct (String.eqb_spec name n) as [->|Hne]; cbn [orb].
  - cbn [andb]. destruct (nonEmpty (get n)) eqn:Hn.
    + rewrite lookup_insert_eq, andb_true_r. now destruct (existsb _ names).
    + now rewrite andb_false_r.
  - destruct (existsb (String.eqb name) names && nonEmpty (get name))%bool;
      [reflexivity|].
    destruct (nonEmpty (get n)); [|reflexivity].
    apply lookup_insert_ne. congruence.
Qed.

Lemma existsb_eqb_In (name : string) (names : list string) :
  existsb (String.eqb name) names = true <-> In name names.
Proof.
  rewrite existsb_exists. split.
  - intros (n & Hin & ->%String.eqb_eq). exact Hin.
  - intros Hin. exists name. split; [exact Hin | apply String.eqb_refl].
Qed.

Section Environment_variables.
Context `{os : OS}.

(** X4. [GetEnvVars] of every provider maps a name to a value exactly when
    the name is one of the variables the provider looks up and the value
    read for it is not empty: a variable that is unset or empty is left
    out, and no other name appears. *)
Theorem GetEnvVars_holds_the_set_variables (e : Ecosystem) (w : World)
    (name value : string) :
  GetEnvVars (providerOf e) w !! name = Some value <->
  In name (envNamesOf e) /\ value = envValue e w name /\ value <> "".
Proof.
  assert (H : GetEnvVars (providerOf e) w
              = providers.envVars (envValue e w) (envNamesOf e)).
  { now destruct e. }
  rewrite H. unfold providers.envVars. rewrite envVars_lookup_from.
  rewrite lookup_empty.
  destruct (existsb (String.eqb name) (envNamesOf e)) eqn:Hin; cbn [andb].
  - apply existsb_eqb_In in Hin.
    unfold nonEmpty. destruct (String.eqb_spec (envValue e w name) "") as [E|E];
      cbn [negb].
    + split; [discriminate|]. intros (_ & -> & Hv). contradiction.
    + split.
      * intros [= <-]. auto.
      * intros (_ & -> & _). reflexivity.
  - split; [discriminate|]. intros (Hn%existsb_eqb_In & _). congruence.
Qed.

End Environment_variables.

(** ** What the providers list *)

Section Listings.
Context `{os : OS}.

Lemma measure_measured (w : World) (items : list DiskUsageItem) (p d : string) :
  Forall (measured w) items -> Forall (measured w) (providers.measure w items p d).
Proof.
  intros Hitems. unfold providers.measure.
  destruct (scanner.PathExists w p) eqn:Hp; [|exact Hitems].
  apply Forall_app. split; [exact Hitems|].
  apply Forall_cons_2; [|apply Forall_nil_2]. now split.
Qed.

Lemma PHPProvider_installation_measured (w : World) (items items' : list DiskUsageItem) :
  Forall (measured w) items ->
  providers.PHPProvider_installation w items = Returned items' ->
  Forall (measured w) items'.
Proof.
  intros Hitems. unfold providers.PHPProvider_installation, scanner.FindExecutable.
  destruct (exec_LookPath w "php") as [phpPath [err|]]; [now intros [= <-]|].
  destruct (_ || _)%bool; [|now intros [= <-]]. cbv zeta.
  destruct (negb _); [|now intros [= <-]].
  destruct (slice_from _ _) as [tail|]; [|discriminate]. cbn [Outcome_bind].
  destruct (slice_to _ _) as [phpDir|]; [|discriminate]. cbn [Outcome_bind].
  intros [= <-]. now apply measure_measured.
Qed.

(** What [GetGlobalCacheUsage] of a provider comes to. *)
Lemma GetGlobalCacheUsage_cases (e : Ecosystem) (w : World) :
  match GetGlobalCacheUsage (providerOf e) w with
  | Returned r =>
      exists diskUsage,
        r = (Some diskUsage, None) /\
        Forall (measured w) (Items diskUsage) /\
        Total diskUsage = wrap64 (sumZ (map ItemSize (Items diskUsage)))
  | Panicked _ => e = PHP
  end.
Proof.
  destruct e; cbn [providerOf GetGlobalCacheUsage
                   providers.NewGoProvider providers.NewNodeProvider
                   providers.NewJavaProvider providers.NewPythonProvider
                   providers.NewPHPProvider providers.NewRustProvider];
    unfold providers.GoProvider_GetGlobalCacheUsage,
      providers.NodeProvider_GetGlobalCacheUsage,
      providers.JavaProvider_GetGlobalCacheUsage,
      providers.PythonProvider_GetGlobalCacheUsage,
      providers.PHPProvider_GetGlobalCacheUsage,
      providers.RustProvider_GetGlobalCacheUsage, providers.usage; cbv zeta;
    try (eexists; split; [reflexivity|]; cbn [Items Total];
         split; [|apply fold_add64_sum];
         repeat first [ apply measure_measured
                      | match goal with
                        | |- context [if ?b then _ else _] => destruct b
                        end
                      | apply Forall_nil_2 ]).
  destruct (providers.PHPProvider_installation w []) as [items|msg] eqn:Hphp;
    cbn [Outcome_bind]; [|reflexivity].
  eexists; split; [reflexivity|]. cbn [Items Total].
  split; [|apply fold_add64_sum].
  do 2 apply measure_measured.
  eapply PHPProvider_installation_measured; [|exact Hphp]. apply Forall_nil_2.
Qed.

(** X5. Every location that [GetGlobalCacheUsage] lists exists, and is
    listed with the size that [CalculateDirSize] measures for it; a
    location that does not exist is left out. This holds for every
    provider and every world in which the call returns, and the call
    returns for every provider but the PHP one. *)
Theorem GetGlobalCacheUsage_lists_measured_locations (e : Ecosystem) (w : World) :
  match GetGlobalCacheUsage (providerOf e) w with
  | Returned r =>
      exists diskUsage, r = (Some diskUsage, None) /\
                        Forall (measured w) (Items diskUsage)
  | Panicked _ => e = PHP
  end.
Proof.
  pose proof (GetGlobalCacheUsage_cases e w) as H.
  destruct (GetGlobalCacheUsage (providerOf e) w) as [r|msg]; [|exact H].
  destruct H as (diskUsage & Hr & Hitems & _). now exists diskUsage.
Qed.

(** X6. [GetCleanableItems] of every provider returns, without an error.
    Every item it lists is cleaned in exactly one way: it carries a command
    and no path, or a path and no command. A path it carries exists, and
    the only item that is not marked safe is the Maven repository. *)
Theorem GetCleanableItems_lists_one_way_items (e : Ecosystem) (w : World) :
  exists items,
    GetCleanableItems (providerOf e) w = Returned (items, None) /\
    Forall (fun item =>
              oneWay item /\
              (nonEmpty (Path item) = true -> scanner.PathExists w (Path item) = true) /\
              (Safe item = false -> Description item = "Maven Repository"))
      items.
Proof.
  destruct e; cbn [providerOf GetCleanableItems
                   providers.NewGoProvider providers.NewNodeProvider
                   providers.NewJavaProvider providers.NewPythonProvider
                   providers.NewPHPProvider providers.NewRustProvider];
    unfold providers.GoProvider_GetCleanableItems,
      providers.NodeProvider_GetCleanableItems,
      providers.JavaProvider_GetCleanableItems,
      providers.PythonProvider_GetCleanableItems,
      providers.PHPProvider_GetCleanableItems,
      providers.RustProvider_GetCleanableItems, providers.cleanable; cbv zeta;
    (eexists; split; [reflexivity|]);
    repeat match goal with
           | |- context [if nonEmpty ?s then _ else _] => destruct (nonEmpty s)
           | |- context [scanner.PathExists w ?p] =>
               let E := fresh "E" in destruct (scanner.PathExists w p) eqn:E
           end;
    cbn [app];
    repeat first [apply Forall_nil_2 | apply Forall_cons_2];
    (split; [reflexivity|]); cbn [Path Safe Description];
    (split; [first [discriminate | intros _; assumption] | first [discriminate | reflexivity]]).
Qed.

End Listings.

(** ** The clean loops of the providers *)

Section Provider_loops.
Context `{os : OS}.

(** X7. In dry-run mode [CleanItems] performs no effect at all: the world
    and the log are as before. It counts every item as cleaned and adds up
    the sizes of all of them, whether or not a real run could clean them. *)
Theorem CleanItems_dry_run_counts_without_cleaning
    (items : list CleanableItem) (st : State) :
  cleaner.CleanItems items true st
  = (Returned ({| ItemsCleaned := Z.of_nat (List.length items);
                  SpaceReclaimed := wrap64 (sumZ (map Size items));
                  Errors := [] |}, None), st).
Proof.
  assert (H : forall result,
             forEach (cleaner.CleanItem true) items result st
             = (Returned
                  {| ItemsCleaned := ItemsCleaned result + Z.of_nat (List.length items);
                     SpaceReclaimed :=
                       fold_left (fun total item => add64 total (Size item)) items
                         (SpaceReclaimed result);
                     Errors := Errors result |}, st)).
  { induction items as [|item items IH]; intros result.
    - cbn. destruct result; cbn. now rewrite Z.add_0_r.
    - cbn [forEach]. unfold bind at 1, cleaner.CleanItem at 1, ret at 1.
      rewrite IH.
      cbn [cleaner.cleaned ItemsCleaned SpaceReclaimed Errors fold_left List.length].
      do 2 f_equal. f_equal. lia. }
  unfold cleaner.CleanItems, bind. rewrite H.
  cbn [cleaner.emptyResult ItemsCleaned SpaceReclaimed Errors].
  now rewrite fold_add64_sum.
Qed.

(** A loop that settles every item after its action: what it adds to the
    result. *)
Lemma forEach_settle (action : CleanableItem -> M (option error))
    (step : CleanResult -> CleanableItem -> M CleanResult)
    (items : list CleanableItem) :
  (forall result item, step result item = bind (action item) (providers.settle result item)) ->
  forall result st result' st',
    forEach step items result st = (Returned result', st') ->
    exists errs,
      Errors result' = (Errors result ++ errs)%list /\
      (List.length errs <= List.length items)%nat /\
      ItemsCleaned result'
      = ItemsCleaned result + Z.of_nat (List.length items) - Z.of_nat (List.length errs) /\
      (errs = [] ->
       SpaceReclaimed result'
       = fold_left (fun total item => add64 total (Size item)) items
           (SpaceReclaimed result)).
Proof.
  intros Hstep. induction items as [|item items IH]; intros result st result' st' Hrun.
  - injection Hrun as <- <-. exists []. rewrite app_nil_r. cbn. repeat split; lia.
  - cbn [forEach] in Hrun. unfold bind at 1 in Hrun. rewrite Hstep in Hrun.
    unfold bind at 1 in Hrun.
    destruct (action item st) as [[[e|]|msg] st1]; [| |discriminate];
      cbn [providers.settle] in Hrun; unfold ret at 1 in Hrun;
      destruct (IH _ _ _ _ Hrun) as (errs & Herrs & Hlen & Hcount & Hspace).
    + exists (("failed to clean " ++ Description item ++ ": " ++ e) :: errs).
      cbn [cleaner.failed Errors ItemsCleaned SpaceReclaimed] in *.
      rewrite Herrs, <- app_assoc. cbn [app List.length].
      repeat split; [lia | lia | discriminate].
    + exists errs. cbn [cleaner.cleaned Errors ItemsCleaned SpaceReclaimed] in *.
      cbn [List.length fold_left]. repeat split; [exact Herrs | lia | lia | exact Hspace].
Qed.

Lemma Clean_settles (e : Ecosystem) :
  exists action step,
    Clean (providerOf e) = providers.cleanWith step /\
    forall result item, step result item = bind (action item) (providers.settle result item).
Proof.
  destruct e;
    [ exists (fun item => if nonEmpty (Command item)
                          then providers.runShell (Command item) else ret None),
             providers.GoProvider_CleanItem
    | eexists _, providers.NodeProvider_CleanItem
    | eexists _, providers.JavaProvider_CleanItem
    | eexists _, providers.PythonProvider_CleanItem
    | eexists _, providers.PHPProvider_CleanItem
    | eexists _, providers.RustProvider_CleanItem ];
    (split; [reflexivity|]); intros result item; reflexivity.
Qed.

(** X8. Whenever the [Clean] of a provider returns, it returns a result and
    no error, and the result accounts for every item exactly once: the
    number of cleaned items and the number of recorded errors add up to the
    number of items. When no error was recorded, every item was counted and
    [SpaceReclaimed] is the [int64] sum of the sizes of the items. *)
Theorem Clean_accounts_for_every_item (e : Ecosystem)
    (items : list CleanableItem) (st st' : State)
    (r : option CleanResult * option error) :
  Clean (providerOf e) items st = (Returned r, st') ->
  exists result,
    r = (Some result, None) /\
    0 <= ItemsCleaned result /\
    ItemsCleaned result + Z.of_nat (List.length (Errors result))
    = Z.of_nat (List.length items) /\
    (Errors result = [] ->
     SpaceReclaimed result = wrap64 (sumZ (map Size items))).
Proof.
  destruct (Clean_settles e) as (action & step & -> & Hstep).
  unfold providers.cleanWith, bind.
  destruct (forEach step items cleaner.emptyResult st) as [[result|msg] st1] eqn:Hrun;
    [|discriminate].
  intros [= <- <-]. exists result. split; [reflexivity|].
  destruct (forEach_settle action step items Hstep _ _ _ _ Hrun)
    as (errs & Herrs & Hlen & Hcount & Hspace).
  cbn [cleaner.emptyResult Errors ItemsCleaned SpaceReclaimed app] in *.
  rewrite Herrs. repeat split; [lia | lia |].
  intros ->. rewrite Hspace by reflexivity. apply fold_add64_sum.
Qed.

End Provider_loops.

(** ** What a clean run touches *)

Section Effects_of_cleaning.
Context `{os : OS}.

Lemma logsOnly_panic {A} (P : Event -> Prop) (msg : string) :
  logsOnly P (panic (A := A) msg).
Proof. intros st. exists []. split; [now rewrite app_nil_r | constructor]. Qed.

Lemma logsOnly_forEach_in {A S} (P : Event -> Prop) (step : S -> A -> M S)
    (l : list A) (s : S) :
  (forall s x, In x l -> logsOnly P (step s x)) -> logsOnly P (forEach step l s).
Proof.
  revert s. induction l as [|x l IH]; intros s Hstep; cbn [forEach].
  - apply logsOnly_ret.
  - apply logsOnly_bind; [apply Hstep; now left|].
    intros s'. apply IH. intros s'' y Hy. apply Hstep. now right.
Qed.

(** [removeExpanded] logs the deletion of the expanded path. *)
Lemma removeExpanded_logs (P : Event -> Prop) (path : string) :
  (forall w, P (RemoveAll (scanner.ExpandHome w path))) ->
  logsOnly P (providers.removeExpanded path).
Proof.
  intros HP st. unfold providers.removeExpanded, bind, ask, perform. cbn [world].
  destruct (os_RemoveAll _ (world st)) as [err w'].
  eexists [_]. split; [reflexivity|]. apply Forall_cons_2; [apply HP | apply Forall_nil_2].
Qed.

Lemma runShell_logs (P : Event -> Prop) (command : string) :
  P (Exec ["sh"; "-c"; command]) -> logsOnly P (providers.runShell command).
Proof.
  intros HP. unfold providers.runShell.
  apply logsOnly_bind; [now apply logsOnly_perform | intros; apply logsOnly_ret].
Qed.

Lemma cleanAction_logs (P : Event -> Prop) (item : CleanableItem) :
  (forall ev, cleansDirectly item ev -> P ev) ->
  logsOnly P (cleaner.cleanAction item).
Proof.
  intros HP. unfold cleaner.cleanAction.
  destruct (nonEmpty (Command item)).
  - unfold cleaner.RunCleanCommand.
    destruct (_ =? _)%nat; [apply logsOnly_ret|].
    apply logsOnly_bind; [apply logsOnly_perform, HP; now left|].
    intros [output [err|]]; apply logsOnly_ret.
  - destruct (nonEmpty (Path item)); [|apply logsOnly_ret].
    intros st. unfold cleaner.CleanDirectory, bind, ask. cbn [world].
    destruct (negb _).
    + exists []. split; [now rewrite app_nil_r | constructor].
    + unfold perform. destruct (os_RemoveAll _ (world st)) as [err w'].
      eexists [_]. split; [reflexivity|].
      apply Forall_cons_2; [|apply Forall_nil_2]. apply HP. right. now eexists.
Qed.

(** X9. A clean run touches nothing but what its items name. Every effect
    of the [Clean] of a provider is the cleaning of one of the items it
    was given: the Go provider runs the command of the item in a shell and
    the Node.js provider runs it directly, and neither ever deletes; the
    Java, Python and PHP providers delete the expanded path of the item,
    and never start a subprocess; the Rust provider does one or the other.
    Every effect of [CleanItems] is the command of one of its items run
    directly, or the deletion of the expanded path of one of them. *)
Theorem Clean_touches_only_its_items :
  (forall (e : Ecosystem) (items : list CleanableItem),
     logsOnly (fun ev => exists item, In item items /\ cleans e item ev)
       (Clean (providerOf e) items)) /\
  (forall items : list CleanableItem,
     logsOnly (fun ev => exists item, In item items /\ cleansDirectly item ev)
       (cleaner.CleanItems items false)).
Proof.
  split.
  - intros e items.
    set (P := fun ev => exists item, In item items /\ cleans e item ev).
    assert (HP : forall item ev, In item items -> cleans e item ev -> P ev)
      by (intros item ev Hin H; now exists item).
    clearbody P.
    destruct e; cbn [providerOf Clean providers.NewGoProvider providers.NewNodeProvider
                     providers.NewJavaProvider providers.NewPythonProvider
                     providers.NewPHPProvider providers.NewRustProvider];
      unfold providers.GoProvider_Clean, providers.NodeProvider_Clean,
        providers.JavaProvider_Clean, providers.PythonProvider_Clean,
        providers.PHPProvider_Clean, providers.RustProvider_Clean,
        providers.cleanWith;
      (apply logsOnly_bind; [|intros; apply logsOnly_ret]);
      apply logsOnly_forEach_in; intros result item Hin;
      specialize (HP item);
      unfold providers.GoProvider_CleanItem, providers.NodeProvider_CleanItem,
        providers.JavaProvider_CleanItem, providers.PythonProvider_CleanItem,
        providers.PHPProvider_CleanItem, providers.RustProvider_CleanItem;
      (apply logsOnly_bind; [|intros err; apply settle_logs_nothing]).
    + destruct (nonEmpty (Command item)); [|apply logsOnly_ret].
      apply runShell_logs, HP; [exact Hin | reflexivity].
    + destruct (nonEmpty (Command item)); [|apply logsOnly_ret]. cbv zeta.
      unfold index.
      destruct (GoStrings.Fields (Command item)) as [|name parts] eqn:Hparts;
        cbn [List.nth_error]; [apply logsOnly_panic|].
      apply logsOnly_bind; [|intros; apply logsOnly_ret].
      apply logsOnly_perform, HP; [exact Hin|]. cbn [cleans List.tl]. now rewrite Hparts.
    + destruct (nonEmpty (Path item)); [|apply logsOnly_ret].
      apply removeExpanded_logs. intros w. apply HP; [exact Hin|]. now exists w.
    + destruct (nonEmpty (Command item)); [|apply logsOnly_ret]. cbv zeta.
      destruct (_ <? _)%nat; [|apply logsOnly_ret].
      apply removeExpanded_logs. intros w. apply HP; [exact Hin|]. now exists w.
    + destruct (nonEmpty (Command item)); [|apply logsOnly_ret].
      destruct (nonEmpty (Path item)); [|apply logsOnly_ret].
      apply removeExpanded_logs. intros w. apply HP; [exact Hin|]. now exists w.
    + destruct (nonEmpty (Path item)).
      * apply removeExpanded_logs. intros w. apply HP; [exact Hin|]. left. now exists w.
      * destruct (nonEmpty (Command item)); [|apply logsOnly_ret].
        apply runShell_logs, HP; [exact Hin|]. now right.
  - intros items. unfold cleaner.CleanItems.
    apply logsOnly_bind; [|intros; apply logsOnly_ret].
    apply logsOnly_forEach_in. intros result item Hin.
    unfold cleaner.CleanItem.
    apply logsOnly_bind;
      [apply cleanAction_logs; intros ev Hev; now exists item|].
    intros [err|]; apply logsOnly_ret.
Qed.

End Effects_of_cleaning.

(** ** What the clean of Java leaves behind *)

Section Deleting.
Context `{os : OS}.
Hypothesis laws : RemoveAllLaws.

Lemma removeExpanded_removes (path : string) (st st' : State) (err : option error) :
  providers.removeExpanded path st = (Returned err, st') ->
  os_UserHomeDir (world st') = os_UserHomeDir (world st) /\
  (forall q, os_Stat (world st) q = false -> os_Stat (world st') q = false) /\
  (err = None -> os_Stat (world st') (scanner.ExpandHome (world st') path) = false).
Proof.
  unfold providers.removeExpanded, bind, ask, perform. cbn [world].
  destruct (os_RemoveAll _ (world st)) as [e w'] eqn:Hrm.
  intros [= <- <-]. cbn [world].
  pose proof (removeAll_keeps_home laws
                (scanner.ExpandHome (world st) path) (world st)) as Hkeep.
  rewrite Hrm in Hkeep. cbn [snd] in Hkeep.
  split; [exact Hkeep|]. split.
  - intros q Hq.
    pose proof (removeAll_creates_nothing laws
                  (scanner.ExpandHome (world st) path) q (world st) Hq) as H.
    now rewrite Hrm in H.
  - intros ->. rewrite (ExpandHome_same_home (world st) w') by exact Hkeep.
    eapply removeAll_removes; eauto.
Qed.

(** A loop whose actions only delete, and delete the path of their item:
    after a run without a new error the paths of all items are gone. *)
Lemma forEach_removes (action : CleanableItem -> M (option error))
    (step : CleanResult -> CleanableItem -> M CleanResult)
    (items : list CleanableItem) :
  (forall result item, step result item = bind (action item) (providers.settle result item)) ->
  (forall item st err st',
     In item items ->
     action item st = (Returned err, st') ->
     os_UserHomeDir (world st') = os_UserHomeDir (world st) /\
     (forall q, os_Stat (world st) q = false -> os_Stat (world st') q = false) /\
     (err = None -> gone (world st') item)) ->
  forall result st result' st',
    forEach step items result st = (Returned result', st') ->
    List.length (Errors result') = List.length (Errors result) ->
    os_UserHomeDir (world st') = os_UserHomeDir (world st) /\
    (forall q, os_Stat (world st) q = false -> os_Stat (world st') q = false) /\
    Forall (gone (world st')) items.
Proof.
  intros Hstep. induction items as [|item items IH];
    intros Haction result st result' st' Hrun Herrors.
  - injection Hrun as <- <-. repeat split; auto.
  - cbn [forEach] in Hrun. unfold bind at 1 in Hrun. rewrite Hstep in Hrun.
    unfold bind at 1 in Hrun.
    destruct (action item st) as [[err|msg] st1] eqn:Hact; [|discriminate].
    destruct (Haction item st err st1 (or_introl eq_refl) Hact)
      as (Hhome1 & Hkeep1 & Hgone1).
    assert (Hrest : forall item st err st',
               In item items ->
               action item st = (Returned err, st') ->
               os_UserHomeDir (world st') = os_UserHomeDir (world st) /\
               (forall q, os_Stat (world st) q = false -> os_Stat (world st') q = false) /\
               (err = None -> gone (world st') item)).
    { intros i s e s' Hin. apply Haction. now right. }
    destruct err as [e|]; cbn [providers.settle] in Hrun; unfold ret at 1 in Hrun.
    + destruct (forEach_settle action step items Hstep _ _ _ _ Hrun)
        as (errs & Herrs & _).
      rewrite Herrs in Herrors. cbn [cleaner.failed Errors] in Herrors.
      rewrite !length_app in Herrors. cbn [List.length] in Herrors. lia.
    + destruct (IH Hrest _ _ _ _ Hrun) as (Hhome' & Hkeep' & Hgone');
        [exact Herrors|].
      split; [congruence|]. split; [auto|].
      constructor; [|exact Hgone'].
      destruct (Hgone1 eq_refl) as [Hnone|Hstat]; [now left|right].
      rewrite (ExpandHome_same_home (world st1) (world st')) by exact Hhome'.
      now apply Hkeep'.
Qed.

(** X10. After a run of [JavaProvider.Clean] that recorded no error, the
    path of every item is gone; the same holds for [RustProvider.Clean] on
    items that carry no command. (The laws of [os.RemoveAll] are assumed:
    what it removed is absent, and it creates nothing and leaves the home
    directory of the user alone.) *)
Theorem Clean_of_Java_and_Rust_removes_the_paths
    (items : list CleanableItem) (st st' : State) (result : CleanResult) :
  (providers.JavaProvider_Clean items st = (Returned (Some result, None), st') ->
   Errors result = [] ->
   Forall (gone (world st')) items) /\
  (Forall pathOnly items ->
   providers.RustProvider_Clean items st = (Returned (Some result, None), st') ->
   Errors result = [] ->
   Forall (gone (world st')) items).
Proof.
  assert (Hdelete : forall item st err st',
             (if nonEmpty (Path item) then providers.removeExpanded (Path item)
              else ret None) st = (Returned err, st') ->
             os_UserHomeDir (world st') = os_UserHomeDir (world st) /\
             (forall q, os_Stat (world st) q = false -> os_Stat (world st') q = false) /\
             (err = None -> gone (world st') item)).
  { intros item s err s'. unfold gone.
    destruct (nonEmpty (Path item)).
    - intros H. destruct (removeExpanded_removes _ _ _ _ H) as (H1 & H2 & H3). auto.
    - intros [= <- <-]. auto. }
  split.
  - unfold providers.JavaProvider_Clean, providers.cleanWith, bind.
    destruct (forEach _ items _ st) as [[r|msg] st1] eqn:Hrun; [|discriminate].
    intros [= <- <-] Herrors.
    eapply (forEach_removes _ providers.JavaProvider_CleanItem items
              (fun _ _ => eq_refl)); [|exact Hrun|now rewrite Herrors].
    intros item s err s' _. apply Hdelete.
  - intros Hpaths.
    unfold providers.RustProvider_Clean, providers.cleanWith, bind.
    destruct (forEach _ items _ st) as [[r|msg] st1] eqn:Hrun; [|discriminate].
    intros [= <- <-] Herrors.
    eapply (forEach_removes _ providers.RustProvider_CleanItem items
              (fun _ _ => eq_refl)); [|exact Hrun|now rewrite Herrors].
    intros item s err s' Hin.
    pose proof (proj1 (List.Forall_forall _ _) Hpaths item Hin) as Hpath.
    unfold pathOnly in Hpath. rewrite Hpath.
    change (nonEmpty "") with false. apply Hdelete.
Qed.

End Deleting.

(** ** The commands *)

Section Commands_end_to_end.
Context `{os : OS}.

(** X11. When [cleanProvider] cleans (it is not a dry run, there are items,
    and the run is forced or the answer was affirmative), it calls the
    [Clean] of the provider once, with exactly the items that
    [GetCleanableItems] listed and that the prompt showed, and reports what
    [Clean] returned. Before the call it has printed the warning about
    unsafe items (if there is one) and the prompt with the [int64] sum of
    the sizes; with [--force] it has printed neither and has not read
    standard input. *)
Theorem cleanProvider_cleans_what_it_listed (provider : LanguageProvider)
    (flags : cmd.Flags) (stdin : string) (w : World) (items : list CleanableItem) :
  cmd.dryRun flags = false ->
  GetCleanableItems provider w = Returned (items, None) ->
  items <> [] ->
  cmd.force flags = true \/ affirmative stdin ->
  run (cmd.cleanProvider flags stdin provider) w
  = match Clean provider items
            {| world := w; log := beforeClean flags provider items |} with
    | (Returned (_, Some err), st) => (Returned (Some ("cleaning failed: " ++ err)), st)
    | (Returned (Some result, None), st) =>
        (Returned None,
         {| world := world st;
            log := log st ++ [Stdout (OutCleanResult result items)] |})
    | (Returned (None, None), st) =>
        (Panicked "invalid memory address or nil pointer dereference", st)
    | (Panicked msg, st) => (Panicked msg, st)
    end.
Proof.
  intros Hdry Hitems Hne Hgo.
  assert (Hexec : forall l,
             cmd.executeCleaning flags provider items {| world := w; log := l |}
             = match Clean provider items
                       {| world := w;
                          log := (l ++ (if cmd.verbose flags
                                        then [Stdout (OutCleaning (Name provider))]
                                        else [])
                                    ++ [CallClean (Name provider) items])%list |} with
               | (Returned (_, Some err), st) =>
                   (Returned (Some ("cleaning failed: " ++ err)), st)
               | (Returned (Some result, None), st) =>
                   (Returned None,
                    {| world := world st;
                       log := log st ++ [Stdout (OutCleanResult result items)] |})
               | (Returned (None, None), st) =>
                   (Panicked "invalid memory address or nil pointer dereference", st)
               | (Panicked msg, st) => (Panicked msg, st)
               end).
  { intros l. unfold cmd.executeCleaning, bind, Println, emit.
    destruct (cmd.verbose flags); cbn [world log ret];
      rewrite <- ?app_assoc; cbn [app];
      destruct (Clean provider items _) as [[[[result|] [err|]]|msg] st]; reflexivity. }
  unfold run, cmd.cleanProvider, cmd.query. unfold bind at 1. cbn [world].
  rewrite Hitems. destruct items as [|item items]; [congruence|].
  cbn [List.length Nat.eqb]. rewrite Hdry. unfold beforeClean.
  destruct (cmd.force flags) eqn:Hforce; cbn [negb].
  - rewrite Hexec. reflexivity.
  - destruct Hgo as [|Hyes]; [discriminate|].
    set (warn := if existsb _ _ then Println OutUnsafeWarning else ret tt).
    assert (Hwarn : warn {| world := w; log := [] |}
                    = (Returned tt,
                       {| world := w;
                          log := if existsb (fun item => negb (Safe item)) (item :: items)
                                 then [Stdout OutUnsafeWarning] else [] |})).
    { subst warn. now destruct (existsb _ _). }
    unfold bind at 1. rewrite Hwarn.
    destruct (ConfirmClean_answer (item :: items) (cmd.totalSizeOf (item :: items)) stdin
                {| world := w;
                   log := if existsb (fun item => negb (Safe item)) (item :: items)
                          then [Stdout OutUnsafeWarning] else [] |})
      as (answer & Hconfirm & Hanswer).
    unfold bind at 1. rewrite Hconfirm.
    destruct answer; [|apply Hanswer in Hyes; discriminate].
    cbn [negb world log]. rewrite Hexec. rewrite <- !app_assoc. reflexivity.
Qed.

(** What [scanProvider] comes to for each of the six providers. *)
Lemma scanProvider_cases (e : Ecosystem) (flags : cmd.Flags) (w : World) :
  let found := exec_LookPath w (executableOf e) in
  match cmd.scanProvider flags w (providerOf e) with
  | Returned (row, out) =>
      Provider row = Some (providerOf e) /\
      out = [] /\
      match ScanError row with
      | Some msg =>
          ScanInstallation row = None /\
          ScanDiskUsage row = None /\
          (snd found <> None -> msg = executableOf e ++ " not found in PATH")
      | None =>
          snd found = None /\
          (exists i, ScanInstallation row = Some i /\ BinaryPath i = fst found) /\
          exists diskUsage,
            ScanDiskUsage row = Some diskUsage /\
            Total diskUsage = wrap64 (sumZ (map ItemSize (Items diskUsage))) /\
            Forall (measured w) (Items diskUsage)
      end
  | Panicked _ => e = PHP
  end.
Proof.
  cbv zeta. unfold cmd.scanProvider.
  destruct (DetectInstalled_cases e w) as (installations & err & -> & Hcases).
  cbn [Outcome_bind].
  destruct (snd (exec_LookPath w (executableOf e))) as [e1|] eqn:Hfound.
  - destruct Hcases as [-> ->]. cbn. repeat split; auto.
  - destruct (snd (exec_CombinedOutput w _)) as [e2|].
    + destruct Hcases as [-> Herr]. destruct err as [msg|]; [|contradiction].
      cbn. repeat split; auto. intros H; contradiction.
    + destruct Hcases as (-> & i & -> & Hbinary & _).
      pose proof (GetGlobalCacheUsage_cases e w) as Husage.
      destruct (GetGlobalCacheUsage (providerOf e) w) as [r|msg]; [|exact Husage].
      destruct Husage as (diskUsage & -> & Hitems & Htotal).
      cbn. repeat split; eauto.
Qed.


(** X12. What [scanProvider] reports for each of the six providers. It
    prints nothing, also with [--verbose]: the warning about a failed disk
    usage is never reached. A row with an error has neither an
    installation nor a disk usage, and says that the executable was not
    found when it is not on the search path. A row without an error
    belongs to an executable that was found, carries its installation, and
    always carries a disk usage, whose total is the [int64] sum of its
    items and whose locations all exist. Only the scan of PHP can panic. *)
Theorem scanProvider_rows (e : Ecosystem) (flags : cmd.Flags) (w : World) :
  let found := exec_LookPath w (executableOf e) in
  match cmd.scanProvider flags w (providerOf e) with
  | Returned (row, out) =>
      Provider row = Some (providerOf e) /\
      out = [] /\
      match ScanError row with
      | Some msg =>
          ScanInstallation row = None /\
          ScanDiskUsage row = None /\
          (snd found <> None -> msg = executableOf e ++ " not found in PATH")
      | None =>
          snd found = None /\
          (exists i, ScanInstallation row = Some i /\ BinaryPath i = fst found) /\
          exists diskUsage,
            ScanDiskUsage row = Some diskUsage /\
            Total diskUsage = wrap64 (sumZ (map ItemSize (Items diskUsage))) /\
            Forall (measured w) (Items diskUsage)
      end
  | Panicked _ => e = PHP
  end.
Proof. exact (scanProvider_cases e flags w). Qed.

End Commands_end_to_end.

(** ** Sizes of directories *)

Section Directory_sizes.
Context `{os : OS}.

(** X13. [CalculateDirSize] never fails. For a path that exists it is the
    [int64] sum of the sizes of the regular files that the walk reaches:
    directories, entries that the walk cannot read and files whose size
    cannot be read count as nothing and do not stop the walk. When that sum
    fits in an [int64] it is the exact sum. *)
Theorem CalculateDirSize_skips_what_it_cannot_read (w : World) (path : string) :
  let expandedPath := scanner.ExpandHome w path in
  let sizes := map entrySize (filepath_WalkDir w expandedPath) in
  snd (scanner.CalculateDirSize w path) = None /\
  (scanner.PathExists w expandedPath = true ->
   fst (scanner.CalculateDirSize w path) = wrap64 (sumZ sizes) /\
   (in_range (sumZ sizes) -> fst (scanner.CalculateDirSize w path) = sumZ sizes)).
Proof.
  cbv zeta. rewrite CalculateDirSize_value. cbn [fst snd].
  split; [reflexivity|]. intros ->. split; [reflexivity|].
  intros Hrange. now apply wrap64_in_range.
Qed.

Lemma CalculateDirSize_no_error (w : World) (path : string) :
  scanner.CalculateDirSize w path = (fst (scanner.CalculateDirSize w path), None).
Proof. now rewrite CalculateDirSize_value. Qed.

Lemma CalculateDirSize_missing (w : World) (path : string) :
  scanner.PathExists w (scanner.ExpandHome w path) = false ->
  fst (scanner.CalculateDirSize w path) = 0.
Proof. intros H. now rewrite CalculateDirSize_value, H. Qed.

Lemma ScanMultiplePaths_from (w : World) (paths : list string) (a : Z) :
  fold_left
    (fun total path =>
       match scanner.CalculateDirSize w path with
       | (_, Some _) => total
       | (size, None) => add64 total size
       end)
    paths (wrap64 a)
  = wrap64 (a + sumZ (map (fun path => fst (scanner.CalculateDirSize w path)) paths)).
Proof.
  revert a. induction paths as [|path paths IH]; intros a.
  - cbn. f_equal. lia.
  - cbn [fold_left map]. rewrite (CalculateDirSize_no_error w path) at 1.
    unfold add64 at 2. rewrite wrap64_add_l, IH. f_equal.
    change (sumZ (?z :: ?l)) with (z + sumZ l). lia.
Qed.

(** X14. [ScanMultiplePaths] never fails and returns the [int64] sum of
    what [CalculateDirSize] gives for each path, in any number of paths.
    A path that does not exist adds nothing: the result is that of the
    paths that exist. *)
Theorem ScanMultiplePaths_adds_the_directories (w : World) (paths : list string) :
  scanner.ScanMultiplePaths w paths
  = (wrap64 (sumZ (map (fun path => fst (scanner.CalculateDirSize w path)) paths)),
     None) /\
  scanner.ScanMultiplePaths w paths
  = scanner.ScanMultiplePaths w
      (List.filter (fun path => scanner.PathExists w (scanner.ExpandHome w path)) paths).
Proof.
  assert (Hsum : forall paths,
             scanner.ScanMultiplePaths w paths
             = (wrap64 (sumZ (map (fun path => fst (scanner.CalculateDirSize w path))
                                paths)), None)).
  { intros l. unfold scanner.ScanMultiplePaths. cbv zeta.
    change 0 with (wrap64 0) at 1. now rewrite ScanMultiplePaths_from. }
  split; [apply Hsum|]. rewrite !Hsum. do 2 f_equal.
  induction paths as [|path paths IH]; [reflexivity|].
  cbn [List.filter map].
  destruct (scanner.PathExists w (scanner.ExpandHome w path)) eqn:Hpath.
  - cbn [map]. change (sumZ (?z :: ?l)) with (z + sumZ l). now rewrite IH.
  - change (sumZ (?z :: ?l)) with (z + sumZ l).
    rewrite (CalculateDirSize_missing w path Hpath). now rewrite IH.
Qed.

Lemma CalculatePathSizes_from (w : World) (entries : list (string * string))
    (sizes : gmap string Z) (description : string) :
  NoDup entries.*1 ->
  fold_left
    (fun sizes entry =>
       let '(description, path) := entry in
       match scanner.CalculateDirSize w path with
       | (_, Some _) => <[description := 0]> sizes
       | (size, None) => <[description := size]> sizes
       end)
    entries sizes !! description
  = match (list_to_map entries : gmap string string) !! description with
    | Some path => Some (fst (scanner.CalculateDirSize w path))
    | None => sizes !! description
    end.
Proof.
  revert sizes. induction entries as [|[d p] entries IH]; intros sizes Hnodup;
    [reflexivity|].
  cbn [fmap list_fmap fst] in Hnodup. apply NoDup_cons in Hnodup as [Hd Hnodup].
  cbn [fold_left]. rewrite (CalculateDirSize_no_error w p) at 1.
  rewrite IH by exact Hnodup. cbn [list_to_map foldr fst snd uncurry].
  destruct (decide (description = d)) as [->|Hne].
  - rewrite (not_elem_of_list_to_map_1 (M := gmap string) entries d Hd).
    now rewrite !lookup_insert_eq.
  - rewrite !lookup_insert_ne by congruence. reflexivity.
Qed.

(** X15. [CalculatePathSizes] does not depend on the order in which Go
    ranges over the map of paths: in whatever order the entries arrive,
    the result has exactly the descriptions of the map, each with what
    [CalculateDirSize] gives for its path. *)
Theorem CalculatePathSizes_in_any_order (w : World) (paths : gmap string string)
    (entries : list (string * string)) :
  entries ≡ₚ map_to_list paths ->
  scanner.CalculatePathSizes w entries
  = (fun path => fst (scanner.CalculateDirSize w path)) <$> paths.
Proof.
  intros Hperm. apply map_eq. intros description.
  unfold scanner.CalculatePathSizes. rewrite CalculatePathSizes_from.
  - assert (Hmap : (list_to_map entries : gmap string string) = paths).
    { symmetry. apply list_to_map_flip. now symmetry. }
    rewrite Hmap, lookup_fmap, lookup_empty.
    now destruct (paths !! description).
  - rewrite Hperm. apply NoDup_fst_map_to_list.
Qed.

End Directory_sizes.

(** ** The choice of the providers *)

Section Selection.
Context `{os : OS}.

Lemma find_none_Forall {A} (f : A -> bool) (l : list A) :
  List.find f l = None <-> Forall (fun x => f x = false) l.
Proof.
  induction l as [|x l IH]; cbn [List.find].
  - split; [intros _; apply Forall_nil_2 | reflexivity].
  - destruct (f x) eqn:Hx.
    + split; [discriminate|]. intros H. apply Forall_cons in H as [H _]. congruence.
    + rewrite IH. split.
      * intros H. now apply Forall_cons_2.
      * intros H. now apply Forall_cons in H as [_ H].
Qed.

(** X16. The providers that [runClean] cleans, for the lowered argument
    [language]. Each of the documented languages selects its own provider,
    and [all] selects the six of them in the order of registration. Any
    other argument selects at most one provider, and none (the unknown
    language) exactly when no lowered provider name contains it. The
    test is containment, so the empty argument is not unknown: it selects
    the first provider, Go. *)
Theorem runClean_selects_by_containment :
  Forall (fun '(language, name) =>
            map Name (cmd.selectProviders cmd.allProviders language) = [name])
    [ ("go", "Golang"); ("node", "Node.js"); ("java", "Java");
      ("python", "Python"); ("php", "PHP"); ("rust", "Rust") ] /\
  map Name (cmd.selectProviders cmd.allProviders "all")
  = ["Golang"; "Node.js"; "Java"; "Python"; "PHP"; "Rust"] /\
  (forall providers language,
     language <> "all" ->
     (List.length (cmd.selectProviders providers language) <= 1)%nat) /\
  (forall providers language,
     providers <> [] ->
     cmd.selectProviders providers language = [] <->
     language <> "all" /\
     Forall (fun provider =>
               GoStrings.Contains (GoStrings.ToLower (Name provider)) language = false)
       providers) /\
  map Name (cmd.selectProviders cmd.allProviders "") = ["Golang"].
Proof.
  split; [|split; [|split; [|split]]].
  - repeat first [apply Forall_nil_2 | apply Forall_cons_2]; vm_compute; reflexivity.
  - vm_compute; reflexivity.
  - intros providers language Hne. unfold cmd.selectProviders.
    destruct (String.eqb_spec language "all"); [contradiction|].
    destruct (List.find _ providers); cbn; lia.
  - intros providers language Hproviders. unfold cmd.selectProviders.
    destruct (String.eqb_spec language "all") as [->|Hne].
    + split; [contradiction|]. now intros [H _].
    + rewrite <- find_none_Forall.
      destruct (List.find _ providers); split; try discriminate; auto.
      * intros [_ H]. discriminate H.
  - vm_compute; reflexivity.
Qed.

Lemma existsb_elements (f : string -> bool) (X : gset string) :
  existsb f (elements X) = true <-> exists term, term ∈ X /\ f term = true.
Proof.
  rewrite existsb_exists. split; intros (term & Hin & Hf); exists term;
    (split; [|exact Hf]).
  - now apply elem_of_elements, list_elem_of_In.
  - now apply list_elem_of_In, elem_of_elements.
Qed.

Lemma sublist_List_filter {A} (f : A -> bool) (l : list A) :
  sublist (List.filter f l) l.
Proof.
  induction l as [|x l IH]; cbn [List.filter]; [constructor|].
  destruct (f x); now constructor.
Qed.

Lemma List_filter_all {A} (f : A -> bool) (l : list A) :
  (forall x, f x = true) -> List.filter f l = l.
Proof.
  intros Hf. induction l as [|x l IH]; cbn [List.filter]; [reflexivity|].
  now rewrite Hf, IH.
Qed.

(** X17. [filterProviders] keeps the providers in their order and adds
    none. With a filter that is not empty, a provider is kept exactly when
    its lowered name contains one of the trimmed terms of the filter,
    whatever the order in which Go ranges over the terms. An empty term
    is contained in every name: a filter with a trailing comma, or one
    that is only a blank, keeps every provider. *)
Theorem filterProviders_keeps_the_matching_providers
    (providers : list LanguageProvider) (filter : string) :
  sublist (cmd.filterProviders providers filter) providers /\
  (filter = "" -> cmd.filterProviders providers filter = providers) /\
  (filter <> "" ->
   forall provider,
     In provider (cmd.filterProviders providers filter) <->
     In provider providers /\
     exists term, term ∈ cmd.filterTerms filter /\
                  GoStrings.Contains (GoStrings.ToLower (Name provider)) term = true) /\
  ("" ∈ cmd.filterTerms filter -> cmd.filterProviders providers filter = providers) /\
  "" ∈ cmd.filterTerms "go," /\ "" ∈ cmd.filterTerms " ".
Proof.
  split; [|split; [|split; [|split; [|split]]]].
  - unfold cmd.filterProviders. destruct (String.eqb filter ""); [reflexivity|].
    apply sublist_List_filter.
  - intros ->. reflexivity.
  - intros Hne provider. unfold cmd.filterProviders.
    destruct (String.eqb_spec filter ""); [contradiction|]. cbv zeta.
    rewrite filter_In, existsb_elements. reflexivity.
  - intros Hempty. unfold cmd.filterProviders.
    destruct (String.eqb filter ""); [reflexivity|]. cbv zeta.
    apply List_filter_all. intros provider. apply existsb_elements.
    exists "". split; [exact Hempty | apply Contains_empty].
  - unfold cmd.filterTerms. apply elem_of_list_to_set.
    assert (H : map GoStrings.TrimSpace (GoStrings.Split (GoStrings.ToLower "go,") ",")
                = ["go"; ""]) by (vm_compute; reflexivity).
    rewrite H. apply list_elem_of_In. cbn. auto.
  - unfold cmd.filterTerms. apply elem_of_list_to_set.
    assert (H : map GoStrings.TrimSpace (GoStrings.Split (GoStrings.ToLower " ") ",")
                = [""]) by (vm_compute; reflexivity).
    rewrite H. apply list_elem_of_In. cbn. auto.
Qed.

End Selection.

(** ** The text of a size *)

Lemma scale_spec (bytes : Z) (fuel : nat) (n div : Z) (exp : nat) :
  in_range bytes ->
  div = 1024 ^ (Z.of_nat exp + 1) ->
  n = bytes / div ->
  1 <= n < 1024 ^ Z.of_nat fuel ->
  exists exp',
    cleaner_text.scale fuel n div exp = (1024 ^ (Z.of_nat exp' + 1), exp') /\
    1024 ^ (Z.of_nat exp' + 1) <= bytes < 1024 * 1024 ^ (Z.of_nat exp' + 1).
Proof.
  intros Hrange. revert n div exp.
  induction fuel as [|fuel IH]; intros n div exp Hdiv Hn Hfuel.
  - cbn in Hfuel. lia.
  - assert (Hpos : 0 < div) by (subst div; apply Z.pow_pos_nonneg; lia).
    assert (Hle : div * n <= bytes) by (subst n; apply Z.mul_div_le; lia).
    assert (Hlt : bytes < div * (n + 1)).
    { subst n. pose proof (Z.mod_pos_bound bytes div Hpos).
      pose proof (Z.div_mod bytes div). lia. }
    cbn [cleaner_text.scale].
    destruct (Z.leb_spec 1024 n) as [Hbig|Hsmall].
    + assert (Hwrap : wrap64 (div * 1024) = div * 1024).
      { apply wrap64_in_range. unfold in_range, min_int64, max_int64 in *. nia. }
      rewrite Hwrap, Z.quot_div_nonneg by lia.
      apply IH.
      * rewrite Hdiv, Nat2Z.inj_succ.
        replace (Z.succ (Z.of_nat exp) + 1) with (Z.succ (Z.of_nat exp + 1)) by lia.
        rewrite Z.pow_succ_r by lia. lia.
      * rewrite Hn, Z.div_div by lia. reflexivity.
      * rewrite Nat2Z.inj_succ, Z.pow_succ_r in Hfuel by lia.
        split.
        -- apply Z.div_le_lower_bound; lia.
        -- apply Z.div_lt_upper_bound; lia.
    + exists exp. rewrite <- Hdiv. split; [reflexivity|]. nia.
Qed.

(** X18. [formatSize] never indexes outside its table of units. For a size
    below 1024 it prints the bytes; for any larger [int64] its loop ends
    with [div] a power of 1024 that no step of the loop lets overflow, the
    largest one that is not above the size, so that the number printed lies
    between 1 and 1024, and with a unit among [K], [M], [G], [T], [P] and
    [E] that is the one of that power. *)
Theorem formatSize_picks_the_unit (bytes : Z) :
  in_range bytes ->
  match cleaner_text.formatSize bytes with
  | Returned (cleaner_text.Bytes n) => n = bytes /\ bytes < 1024
  | Returned (cleaner_text.Scaled n div unit) =>
      n = bytes /\
      exists exp : nat,
        (exp <= 5)%nat /\
        div = 1024 ^ (Z.of_nat exp + 1) /\
        div <= bytes < 1024 * div /\
        List.nth_error (list_ascii_of_string "KMGTPE") exp = Some unit
  | Panicked _ => False
  end.
Proof.
  intros Hrange. unfold cleaner_text.formatSize.
  destruct (Z.ltb_spec bytes 1024) as [|Hbig]; [now split|].
  destruct (scale_spec bytes (S (Z.to_nat (Z.log2 bytes))) (bytes ÷ 1024) 1024 0
              Hrange eq_refl) as (exp & -> & Hlow & Hhigh).
  - rewrite Z.quot_div_nonneg by lia. reflexivity.
  - rewrite Z.quot_div_nonneg by lia. split.
    + apply Z.div_le_lower_bound; lia.
    + apply Z.div_lt_upper_bound; [lia|].
      pose proof (Z.log2_spec bytes ltac:(lia)) as [_ Hlog].
      pose proof (Z.log2_nonneg bytes) as Hnn.
      rewrite Nat2Z.inj_succ, Z2Nat.id by exact Hnn.
      assert (H2 : 2 ^ Z.succ (Z.log2 bytes) <= 1024 ^ Z.succ (Z.log2 bytes)).
      { apply Z.pow_le_mono_l. lia. }
      assert (0 < 1024 ^ Z.succ (Z.log2 bytes)) by (apply Z.pow_pos_nonneg; lia).
      lia.
  - assert (Hexp : (exp <= 5)%nat).
    { destruct (Nat.le_gt_cases exp 5) as [|Hgt]; [assumption|exfalso].
      assert (1024 ^ 7 <= 1024 ^ (Z.of_nat exp + 1))
        by (apply Z.pow_le_mono_r; lia).
      unfold in_range, max_int64 in Hrange.
      change (1024 ^ 7) with 1180591620717411303424 in *. lia. }
    unfold index.
    destruct exp as [|[|[|[|[|[|exp]]]]]]; [| | | | | |lia];
      cbn [Outcome_bind List.nth_error list_ascii_of_string];
      (split; [reflexivity|]; eexists; split; [exact Hexp|];
       split; [reflexivity|]; split; [split; [exact Hlow | exact Hhigh]|reflexivity]).
Qed.

(** ** What the scan measures and what the clean lists *)

Section Scan_and_clean.
Context `{os : OS}.

Lemma sumZ_app (l k : list Z) : sumZ (l ++ k) = sumZ l + sumZ k.
Proof.
  induction l as [|z l IH]; [reflexivity|].
  change (sumZ ((z :: l) ++ k)) with (z + sumZ (l ++ k)).
  change (sumZ (z :: l)) with (z + sumZ l). lia.
Qed.

Lemma sumZ_Permutation (l k : list Z) : l ≡ₚ k -> sumZ l = sumZ k.
Proof.
  induction 1 as [|z l k _ IH|y z l|l k m _ IH1 _ IH2];
    repeat change (sumZ (?z :: ?l)) with (z + sumZ l); lia.
Qed.

Lemma sumZ_submseteq (l k : list Z) :
  Forall (fun z => 0 <= z) k -> l ⊆+ k -> sumZ l <= sumZ k.
Proof.
  intros Hk [rest Hperm]%submseteq_Permutation.
  rewrite (sumZ_Permutation _ _ Hperm), sumZ_app.
  assert (0 <= sumZ rest); [|lia].
  apply sumZ_nonneg. rewrite Hperm in Hk. now apply Forall_app in Hk.
Qed.

Lemma measured_nonneg (w : World) (items : list DiskUsageItem) :
  sizesBounded w -> Forall (measured w) items ->
  Forall (fun z => 0 <= z) (map ItemSize items).
Proof.
  intros Hw Hitems. apply Forall_fmap. eapply Forall_impl; [exact Hitems|].
  intros item [_ Hsize]. cbv beta. unfold compose. rewrite Hsize.
  now apply CalculateDirSize_nonneg.
Qed.

(** X19. The two views of a provider agree. Whatever [GetCleanableItems]
    lists, [GetGlobalCacheUsage] has measured: the sizes of the cleanable
    items are, one for one, sizes of items of the disk usage, in every
    world and for each of the six providers (for PHP whenever the usage
    is returned). So the space that a clean offers to reclaim is never more
    than the space that the scan reports, when the file sizes are bounded. *)
Theorem GetCleanableItems_lists_measured_sizes (e : Ecosystem) (w : World) :
  match GetGlobalCacheUsage (providerOf e) w with
  | Returned r =>
      exists diskUsage items,
        r = (Some diskUsage, None) /\
        GetCleanableItems (providerOf e) w = Returned (items, None) /\
        map Size items ⊆+ map ItemSize (Items diskUsage) /\
        (sizesBounded w ->
         sumZ (map Size items) <= sumZ (map ItemSize (Items diskUsage)))
  | Panicked _ => e = PHP
  end.
Proof.
  pose proof (GetGlobalCacheUsage_cases e w) as Hcases.
  destruct (GetGlobalCacheUsage (providerOf e) w) as [r|msg] eqn:Husage;
    [|exact Hcases].
  destruct Hcases as (diskUsage & -> & Hmeasured & _).
  assert (Hsub : exists items,
             GetCleanableItems (providerOf e) w = Returned (items, None) /\
             map Size items ⊆+ map ItemSize (Items diskUsage)).
  { clear Hmeasured. revert Husage.
    destruct e; cbn [providerOf GetGlobalCacheUsage GetCleanableItems
                     providers.NewGoProvider providers.NewNodeProvider
                     providers.NewJavaProvider providers.NewPythonProvider
                     providers.NewPHPProvider providers.NewRustProvider];
      unfold providers.GoProvider_GetGlobalCacheUsage,
        providers.NodeProvider_GetGlobalCacheUsage,
        providers.JavaProvider_GetGlobalCacheUsage,
        providers.PythonProvider_GetGlobalCacheUsage,
        providers.PHPProvider_GetGlobalCacheUsage,
        providers.RustProvider_GetGlobalCacheUsage,
        providers.GoProvider_GetCleanableItems,
        providers.NodeProvider_GetCleanableItems,
        providers.JavaProvider_GetCleanableItems,
        providers.PythonProvider_GetCleanableItems,
        providers.PHPProvider_GetCleanableItems,
        providers.RustProvider_GetCleanableItems,
        providers.usage, providers.measure, providers.cleanable; cbv zeta;
      try (destruct (providers.PHPProvider_installation w []) as [items0|];
           cbn [Outcome_bind]; [|discriminate]);
      intros [= <-]; (eexists; split; [reflexivity|]); cbn [Items];
      repeat match goal with
             | |- context [if nonEmpty ?s then _ else _] => destruct (nonEmpty s)
             | |- context [scanner.PathExists w ?p] => destruct (scanner.PathExists w p)
             end;
      rewrite ?map_app; cbn [map app Size ItemSize];
      solve_submseteq. }
  destruct Hsub as (items & Hitems & Hsub).
  exists diskUsage, items. repeat split; auto.
  intros Hw. apply sumZ_submseteq; [|exact Hsub].
  now apply (measured_nonneg w).
Qed.

End Scan_and_clean.

(** ** The versions that PHP and Rust print *)

Lemma stripRune_plain (c : ascii) (s : string) :
  plainByte c = true ->
  GoStrings.stripRune GoStrings.spaceRunes (String c s) = None.
Proof.
  destruct c as [[] [] [] [] [] [] [] []]; intros H;
    try discriminate H; reflexivity.
Qed.

Lemma stripRune_space (s : string) :
  GoStrings.stripRune GoStrings.spaceRunes (" " ++ s) = Some s.
Proof. destruct s; reflexivity. Qed.

Lemma app_empty_r (s : string) : s ++ "" = s.
Proof. induction s as [|c s IH]; [reflexivity|]. now rewrite app_cons, IH. Qed.

(** [fields] moves a run of plain bytes into the field it is reading. *)
Lemma fields_plain (w : string) (fuel : nat) (cur s : string) :
  plain w = true ->
  GoStrings.fields (String.length w + fuel) cur (w ++ s)
  = GoStrings.fields fuel (cur ++ w) s.
Proof.
  revert cur. induction w as [|c w IH]; intros cur Hw.
  - now rewrite app_empty_r.
  - cbn [plain] in Hw. apply andb_prop in Hw as [Hc Hw].
    rewrite app_cons. cbn [String.length Nat.add GoStrings.fields].
    rewrite (stripRune_plain c _ Hc), IH by exact Hw.
    now rewrite app_assoc_string.
Qed.

Lemma flush_word (w : string) : nonEmpty w = true -> GoStrings.flush w = [w].
Proof. destruct w; [discriminate | reflexivity]. Qed.

(** A word and a space at the head of a text are its first field. *)
Lemma Fields_word (w rest : string) :
  isWord w -> GoStrings.Fields (w ++ " " ++ rest) = w :: GoStrings.Fields rest.
Proof.
  intros [Hne Hw]. unfold GoStrings.Fields.
  rewrite length_append.
  replace (S (String.length w + String.length (" " ++ rest)))
    with (String.length w + S (S (String.length rest)))%nat
    by (rewrite length_append; cbn [String.length]; lia).
  rewrite (fields_plain w _ "" _ Hw).
  change ("" ++ w) with w.
  cbn [GoStrings.fields]. rewrite app_cons. change ("" ++ rest) with rest.
  change (String " " rest) with (" " ++ rest). rewrite stripRune_space.
  now rewrite (flush_word w Hne).
Qed.

(** A word is its only field. *)
Lemma Fields_last_word (w : string) : isWord w -> GoStrings.Fields w = [w].
Proof.
  intros [Hne Hw]. unfold GoStrings.Fields.
  replace (S (String.length w)) with (String.length w + 1)%nat by lia.
  rewrite <- (app_empty_r w) at 2.
  rewrite (fields_plain w _ "" _ Hw). change ("" ++ w) with w.
  cbn [GoStrings.fields]. now apply flush_word.
Qed.

Lemma plain_no_newline (w : string) :
  plain w = true -> GoStrings.Index w cleaner.newline = -1.
Proof.
  induction w as [|c w IH]; intros Hw; [reflexivity|].
  cbn [plain] in Hw. apply andb_prop in Hw as [Hc Hw].
  rewrite Index_eq. unfold GoStrings.HasPrefix, cleaner.newline.
  cbn [String.prefix].
  destruct (ascii_dec (ascii_of_nat 10) c) as [<-|_]; [discriminate Hc|].
  fold cleaner.newline. rewrite (IH Hw). reflexivity.
Qed.

(** X20. [RustProvider.parseVersion] and [PHPProvider.parseVersion] read
    the version back from what the tools print: the word after [rustc],
    and the word after [PHP] on the first line, whatever follows the
    version after a space, and also when nothing follows it. *)
Theorem parseVersion_reads_the_second_word (version rest : string) :
  isWord version ->
  providers.RustProvider_parseVersion ("rustc " ++ version ++ " " ++ rest)
  = Returned version /\
  providers.RustProvider_parseVersion ("rustc " ++ version) = Returned version /\
  providers.PHPProvider_parseVersion ("PHP " ++ version ++ " " ++ rest)
  = Returned version /\
  providers.PHPProvider_parseVersion ("PHP " ++ version) = Returned version.
Proof.
  intros Hv.
  assert (Hrustc : isWord "rustc") by (split; reflexivity).
  assert (Hphp : isWord "PHP") by (split; reflexivity).
  assert (Hline : forall tail,
             GoStrings.SplitFirst ("PHP " ++ version ++ tail) cleaner.newline
             = "PHP " ++ version ++ GoStrings.SplitFirst tail cleaner.newline).
  { intros tail.
    rewrite (SplitFirst_app "PHP ") by reflexivity. f_equal.
    apply SplitFirst_app, plain_no_newline, Hv. }
  repeat split.
  - unfold providers.RustProvider_parseVersion. cbv zeta.
    change ("rustc " ++ version ++ " " ++ rest)
      with ("rustc" ++ " " ++ version ++ " " ++ rest).
    rewrite (Fields_word "rustc" _ Hrustc), (Fields_word version rest Hv).
    reflexivity.
  - unfold providers.RustProvider_parseVersion. cbv zeta.
    change ("rustc " ++ version) with ("rustc" ++ " " ++ version).
    rewrite (Fields_word "rustc" _ Hrustc), (Fields_last_word version Hv).
    reflexivity.
  - unfold providers.PHPProvider_parseVersion. cbv zeta.
    rewrite (Hline (" " ++ rest)).
    assert (Htail : exists rest', GoStrings.SplitFirst (" " ++ rest) cleaner.newline
                                  = " " ++ rest').
    { exists (GoStrings.SplitFirst rest cleaner.newline).
      apply (SplitFirst_app " "). reflexivity. }
    destruct Htail as [rest' ->].
    assert (Hpre : GoStrings.HasPrefix ("PHP " ++ version ++ " " ++ rest') "PHP " = true)
      by apply prefix_app.
    rewrite Hpre.
    change ("PHP " ++ version ++ " " ++ rest')
      with ("PHP" ++ " " ++ version ++ " " ++ rest').
    rewrite (Fields_word "PHP" _ Hphp), (Fields_word version rest' Hv).
    reflexivity.
  - unfold providers.PHPProvider_parseVersion. cbv zeta.
    assert (Hlast : GoStrings.SplitFirst ("PHP " ++ version) cleaner.newline
                    = "PHP " ++ version).
    { rewrite <- (app_empty_r version) at 1. rewrite (Hline "").
      change (GoStrings.SplitFirst "" cleaner.newline) with "".
      now rewrite app_empty_r. }
    rewrite Hlast.
    assert (Hpre : GoStrings.HasPrefix ("PHP " ++ version) "PHP " = true)
      by apply prefix_app.
    rewrite Hpre.
    change ("PHP " ++ version) with ("PHP" ++ " " ++ version).
    rewrite (Fields_word "PHP" _ Hphp), (Fields_last_word version Hv).
    reflexivity.
Qed.

Lemma parseVersion_reads_the_second_word_witness :
  providers.RustProvider_parseVersion "rustc 1.74.0 (79e9716c9 2023-11-13)"
  = Returned "1.74.0" /\
  providers.PHPProvider_parseVersion
    ("PHP 8.2.0 (cli) (built: Dec  6 2022)" ++ cleaner.newline ++ "Copyright (c) The PHP Group")
  = Returned "8.2.0".
Proof.
  assert (Hv : forall v, nonEmpty v = true -> plain v = true -> isWord v)
    by (intros v H1 H2; now split).
  split.
  - apply (parseVersion_reads_the_second_word "1.74.0" "(79e9716c9 2023-11-13)").
    apply Hv; reflexivity.
  - apply (proj1 (proj2 (proj2
             (parseVersion_reads_the_second_word "8.2.0"
                ("(cli) (built: Dec  6 2022)" ++ cleaner.newline
                 ++ "Copyright (c) The PHP Group")
                (Hv "8.2.0" eq_refl eq_refl))))).
Defined.

(** ** The scan command, end to end *)

Section Scan_command.
Context `{os : OS}.

Lemma allProviders_ecosystems (provider : LanguageProvider) :
  In provider cmd.allProviders -> exists e, provider = providerOf e.
Proof.
  intros [<-|[<-|[<-|[<-|[<-|[<-|[]]]]]]];
    [exists Go | exists Node | exists Java | exists Python | exists PHP | exists Rust];
    reflexivity.
Qed.

(** The goroutines of the six providers print nothing. *)
Lemma finish_prints_nothing (flags : cmd.Flags) (w : World)
    (providers : list LanguageProvider) (order : list nat)
    (results results' : list ScanResult) (out out' : list string) :
  (forall provider, In provider providers -> In provider cmd.allProviders) ->
  fold_left (cmd.finish flags w providers) order (Returned (results, out))
  = Returned (results', out') ->
  out' = out.
Proof.
  intros Hall. revert results out.
  induction order as [|i order IH]; intros results out; cbn [fold_left].
  - now intros [= _ <-].
  - unfold cmd.finish at 2. cbn [Outcome_bind fst snd].
    destruct (providers !! i) as [p|] eqn:Hp; [|apply IH].
    assert (Hin : In p cmd.allProviders).
    { apply Hall, list_elem_of_In. eapply list_elem_of_lookup_2; eauto. }
    destruct (allProviders_ecosystems p Hin) as [e ->].
    pose proof (scanProvider_cases e flags w) as Hscan. cbv zeta in Hscan.
    destruct (cmd.scanProvider flags w (providerOf e)) as [[r o]|msg];
      cbn [Outcome_bind fst snd].
    + destruct Hscan as (_ & -> & _). rewrite app_nil_r. apply IH.
    + rewrite finish_panicked. discriminate.
Qed.

(** X21. [dhell scan], whatever the order in which the scans finish. When
    the filter selects no provider it prints that and scans nothing.
    Otherwise it prints one table (after the two lines of [--verbose]) and
    never a warning; the table has one row for each selected provider, in
    the order of registration, and the row of a provider is what
    [scanProvider] reports for it, so that a tool that is not installed
    gives a row with an error and never stops the scan. The command can
    only panic when PHP is among the selected providers. *)
Theorem runScan_reports_the_selected_providers (flags : cmd.Flags)
    (langFilter : string) (w : World) (order : list nat) :
  let selected := cmd.filterProviders cmd.allProviders langFilter in
  order ≡ₚ seq 0 (List.length selected) ->
  match cmd.runScan flags langFilter w order with
  | Returned lines =>
      match selected with
      | [] => lines = [cmd.Text "No languages selected to scan."]
      | _ =>
          exists results,
            lines = ((if cmd.verbose flags
                      then [cmd.Text "Scanning development environment..."; cmd.Text ""]
                      else []) ++ [cmd.Table results])%list /\
            Forall2 (fun provider row =>
                       cmd.scanProvider flags w provider = Returned (row, []))
              selected results
      end
  | Panicked _ => In providers.NewPHPProvider selected
  end.
Proof.
  cbv zeta. intros Horder. unfold cmd.runScan. cbv zeta.
  assert (Hall : forall provider,
             In provider (cmd.filterProviders cmd.allProviders langFilter) ->
             In provider cmd.allProviders).
  { intros provider. unfold cmd.filterProviders.
    destruct (String.eqb langFilter ""); [auto|]. cbv zeta.
    rewrite filter_In. now intros [H _]. }
  destruct (cmd.filterProviders cmd.allProviders langFilter) as [|p selected] eqn:Hsel;
    [reflexivity|].
  cbn [List.length Nat.eqb]. unfold cmd.scanProviders. cbv zeta.
  pose proof (finish_slots flags w (p :: selected) order
                (replicate (List.length (p :: selected)) cmd.zeroScanResult) []) as H.
  destruct (fold_left _ order _) as [[results out]|msg] eqn:Hfold;
    cbn [Outcome_bind fst snd].
  - rewrite (finish_prints_nothing flags w (p :: selected) order _ results [] out
               Hall Hfold). cbn [map app].
    exists results. split; [reflexivity|].
    destruct H as (Hlen & Hin & _). rewrite length_replicate in Hlen, Hin.
    apply Forall2_same_length_lookup. split; [now symmetry|].
    intros j q r Hq Hr.
    assert (Hj : (j < List.length (p :: selected))%nat)
      by (eapply lookup_lt_Some; eauto).
    destruct (Hin j q) as (r' & o & Hscan & Hr'); auto.
    + rewrite Horder. apply elem_of_seq. lia.
    + assert (r' = r) as -> by congruence.
      assert (Hq' : In q cmd.allProviders).
      { apply Hall, list_elem_of_In. eapply list_elem_of_lookup_2; eauto. }
      destruct (allProviders_ecosystems q Hq') as [e ->].
      pose proof (scanProvider_cases e flags w) as Hcases. cbv zeta in Hcases.
      rewrite Hscan in Hcases. destruct Hcases as (_ & -> & _). exact Hscan.
  - destruct H as (j & q & m & _ & Hq & Hm).
    assert (Hq' : In q (p :: selected)).
    { apply list_elem_of_In. eapply list_elem_of_lookup_2; eauto. }
    destruct (allProviders_ecosystems q (Hall q Hq')) as [e ->].
    pose proof (scanProvider_cases e flags w) as Hcases. cbv zeta in Hcases.
    rewrite Hm in Hcases. subst e. exact Hq'.
Qed.

End Scan_command.

(** ** Instances of the conditional properties of this part *)

(** The first line of what [java -version] prints for OpenJDK 17. *)
Lemma JavaProvider_parseVersion_reads_the_quoted_version_witness :
  providers.JavaProvider_parseVersion
    ("openjdk version " ++ providers.quote ++ "17.0.9" ++ providers.quote
     ++ " 2023-10-17" ++ cleaner.newline
     ++ "OpenJDK Runtime Environment (build 17.0.9+9)")
  = Returned "17.0.9".
Proof.
  apply (JavaProvider_parseVersion_reads_the_quoted_version
           "openjdk version " "17.0.9"); vm_compute; reflexivity.
Defined.

(** The Java provider on the machine whose Maven repository cannot be
    removed: one item is cleaned, one error is recorded. *)
Lemma Clean_accounts_for_every_item_witness :
  let st := {| world := lockedLaptop; log := [] |} in
  exists result st',
    Clean (providerOf (os := machineOS) Java) javaItems st
    = (Returned (Some result, None), st') /\
    ItemsCleaned result = 1 /\
    List.length (Errors result) = 1%nat /\
    ItemsCleaned result + Z.of_nat (List.length (Errors result))
    = Z.of_nat (List.length javaItems).
Proof.
  intros st.
  set (run := Clean (providerOf (os := machineOS) Java) javaItems st).
  assert (Hrun : run = (Returned
                          (Some {| ItemsCleaned := 1; SpaceReclaimed := 1000;
                                   Errors := ["failed to clean Maven Repository: "
                                              ++ "unlinkat /Users/dev/.m2/repository: "
                                              ++ "permission denied"] |}, None),
                        snd run))
    by (vm_compute; reflexivity).
  destruct (Clean_accounts_for_every_item (os := machineOS) Java javaItems st
              (snd run) _ Hrun) as (result & Hresult & _ & Hcount & _).
  injection Hresult as <-.
  eexists _, _. split; [exact Hrun|]. split; [reflexivity|].
  split; [reflexivity | exact Hcount].
Defined.

(** The Java provider on the developer's machine: both directories are
    gone after the run. *)
Lemma Clean_of_Java_and_Rust_removes_the_paths_witness :
  let st' := snd (providers.JavaProvider_Clean (os := machineOS) javaItems
                    {| world := laptop; log := [] |}) in
  os_Stat (OS := machineOS) laptop "/Users/dev/.gradle/caches" = true /\
  os_Stat (OS := machineOS) (world st') "/Users/dev/.gradle/caches" = false /\
  Forall (gone (world st')) javaItems.
Proof.
  intros st'. split; [vm_compute; reflexivity|]. split; [vm_compute; reflexivity|].
  refine (proj1 (Clean_of_Java_and_Rust_removes_the_paths (os := machineOS)
                   machine_RemoveAllLaws javaItems {| world := laptop; log := [] |} st'
                   {| ItemsCleaned := 2; SpaceReclaimed := 6000; Errors := [] |}) _ _).
  - vm_compute; reflexivity.
  - reflexivity.
Defined.

(** [dhell clean java] on the developer's machine, answered with [y]. *)
Lemma cleanProvider_cleans_what_it_listed_witness :
  let flags := {| cmd.dryRun := false; cmd.force := false; cmd.verbose := false |} in
  let result :=
    run (os := machineOS)
      (cmd.cleanProvider flags (enter "y") providers.NewJavaProvider) laptop in
  fst result = Returned None /\
  log (snd result)
  = [ Stdout OutUnsafeWarning;
      Stdout (OutConfirmPrompt javaItems 6000);
      ReadStdin;
      CallClean "Java" javaItems;
      RemoveAll "/Users/dev/.gradle/caches";
      RemoveAll "/Users/dev/.m2/repository";
      Stdout (OutCleanResult
                {| ItemsCleaned := 2; SpaceReclaimed := 6000; Errors := [] |}
                javaItems) ] /\
  os_Stat (OS := machineOS) (world (snd result)) "/Users/dev/.m2/repository" = false.
Proof.
  intros flags result. subst result.
  rewrite (cleanProvider_cleans_what_it_listed (os := machineOS)
             providers.NewJavaProvider flags (enter "y") laptop javaItems).
  - vm_compute. repeat split; reflexivity.
  - reflexivity.
  - vm_compute; reflexivity.
  - discriminate.
  - right. exists (enter "y"). split; [vm_compute; reflexivity|].
    left. vm_compute; reflexivity.
Defined.

(** Two directories of the developer's machine, ranged over in the reverse
    of the order of the map. *)
Lemma CalculatePathSizes_in_any_order_witness :
  let paths : gmap string string :=
    {[ "Gradle Cache" := "~/.gradle/caches"; "Maven Repository" := "~/.m2/repository" ]} in
  scanner.CalculatePathSizes (os := machineOS) laptop (reverse (map_to_list paths))
  = (fun path => fst (scanner.CalculateDirSize (os := machineOS) laptop path)) <$> paths.
Proof.
  intros paths.
  apply (CalculatePathSizes_in_any_order (os := machineOS) laptop paths).
  apply reverse_Permutation.
Defined.

(** Five gibibytes. *)
Lemma formatSize_picks_the_unit_witness :
  in_range 5368709120 /\
  cleaner_text.formatSize 5368709120
  = Returned (cleaner_text.Scaled 5368709120 (1024 ^ 3) "G") /\
  match cleaner_text.formatSize 5368709120 with
  | Returned (cleaner_text.Bytes n) => n = 5368709120 /\ 5368709120 < 1024
  | Returned (cleaner_text.Scaled n div unit) =>
      n = 5368709120 /\
      exists exp : nat,
        (exp <= 5)%nat /\
        div = 1024 ^ (Z.of_nat exp + 1) /\
        div <= 5368709120 < 1024 * div /\
        List.nth_error (list_ascii_of_string "KMGTPE") exp = Some unit
  | Panicked _ => False
  end.
Proof.
  assert (Hrange : in_range 5368709120)
    by (unfold in_range, min_int64, max_int64; lia).
  split; [exact Hrange|]. split; [vm_compute; reflexivity|].
  exact (formatSize_picks_the_unit 5368709120 Hrange).
Defined.

(** [dhell scan --lang java,php] on the developer's machine, where the
    scan of PHP finishes first. *)
Lemma runScan_reports_the_selected_providers_witness :
  let flags := {| cmd.dryRun := false; cmd.force := false; cmd.verbose := false |} in
  let selected := cmd.filterProviders (os := machineOS) cmd.allProviders "java,php" in
  map Name selected = ["Java"; "PHP"] /\
  match cmd.runScan flags "java,php" laptop [1; 0]%nat with
  | Returned [cmd.Table results] =>
      map (fun r => (Name <$> Provider r, Version <$> ScanInstallation r,
                     Total <$> ScanDiskUsage r, ScanError r)) results
      = [ (Some "Java", Some "17.0.9", Some 6090, None);
          (Some "PHP", Some "8.2.0", Some 100, None) ]
  | _ => False
  end /\
  match cmd.runScan flags "java,php" laptop [1; 0]%nat with
  | Returned lines =>
      match selected with
      | [] => lines = [cmd.Text "No languages selected to scan."]
      | _ =>
          exists results,
            lines = [cmd.Table results] /\
            Forall2 (fun provider row =>
                       cmd.scanProvider flags laptop provider = Returned (row, []))
              selected results
      end
  | Panicked _ => In providers.NewPHPProvider selected
  end.
Proof.
  intros flags selected.
  split; [vm_compute; reflexivity|]. split; [vm_compute; reflexivity|].
  apply (runScan_reports_the_selected_providers (os := machineOS)
           flags "java,php" laptop [1; 0]%nat).
  assert (Hlen : List.length (cmd.filterProviders (os := machineOS)
                                cmd.allProviders "java,php") = 2%nat)
    by (vm_compute; reflexivity).
  rewrite Hlen. apply perm_swap.
Defined.
